(** * Rule-based product specification extractor (populate_specs_v2.py)

    A shallow embedding of [EnhancedSpecExtractor]: the pattern catalog, the
    value formatters, the value validator, the feature phrase extractor, the
    brand resolver and the merge of [process_row], together with the part of
    Python's [str] and [re] semantics that this code relies on. *)

From Stdlib Require Import List NArith ZArith Arith Bool String Ascii Lia.
Import ListNotations.

(** ** Characters and text

    A Python [str] is a sequence of Unicode code points. *)

Definition chr := N.
Definition text := list chr.

Definition str (s : string) : text :=
  map N_of_ascii (list_ascii_of_string s).

Definition text_eqb (a b : text) : bool :=
  if list_eq_dec N.eq_dec a b then true else false.

Definition len (s : text) : Z := Z.of_nat (List.length s).

(** Code points of the non-ASCII characters written in the source. *)
Definition c_times : chr := 215%N.      (* U+00D7 multiplication sign *)
Definition c_degree : chr := 176%N.     (* U+00B0 degree sign *)
Definition c_bullet : chr := 8226%N.    (* U+2022 *)
Definition c_black_circle : chr := 9679%N.  (* U+25CF *)
Definition c_white_circle : chr := 9675%N.  (* U+25CB *)
Definition c_black_small_square : chr := 9642%N.  (* U+25AA *)
Definition c_white_small_square : chr := 9643%N.  (* U+25AB *)

Definition c_space : chr := 32%N.
Definition c_newline : chr := 10%N.
Definition c_comma : chr := 44%N.
Definition c_period : chr := 46%N.
Definition c_underscore : chr := 95%N.
Definition c_dquote : chr := 34%N.
Definition c_squote : chr := 39%N.

(** ** The runtime outside the repository

    The Unicode character database behind [str] and [re], BeautifulSoup and
    [json.dumps] are not part of the repository.  On ASCII code points the
    character functions below are computed; above 127 they ask these tables.
    [uni_ci p c] says whether the non-ASCII character [c] matches the ASCII
    letter [p] under [re.IGNORECASE] (as U+017F does for [s]); the string
    functions are consulted only for strings holding a non-ASCII character. *)

Record Runtime : Type := {
  uni_isspace : chr -> bool;
  uni_isalnum : chr -> bool;
  uni_isdecimal : chr -> bool;
  uni_isdigit : chr -> bool;
  uni_isupper : chr -> bool;
  uni_ci : chr -> chr -> bool;
  uni_lower : text -> text;
  uni_upper : text -> text;
  uni_title : text -> text;
  soup_get_text : text -> text;
  json_dumps : list text -> text
}.

Definition is_ascii (c : chr) : bool := (c <? 128)%N.

Definition between (lo hi c : chr) : bool := ((lo <=? c) && (c <=? hi))%N.

Definition ascii_isupper (c : chr) : bool := between 65%N 90%N c.
Definition ascii_islower (c : chr) : bool := between 97%N 122%N c.
Definition ascii_isletter (c : chr) : bool := ascii_isupper c || ascii_islower c.
Definition ascii_isdigit (c : chr) : bool := between 48%N 57%N c.
Definition ascii_isspace (c : chr) : bool :=
  between 9%N 13%N c || between 28%N 32%N c.

Definition ascii_lower (c : chr) : chr :=
  if ascii_isupper c then (c + 32)%N else c.
Definition ascii_upper (c : chr) : chr :=
  if ascii_islower c then (c - 32)%N else c.

Section Chars.

Variable U : Runtime.

(** [c.isspace()], also the class [\s]. *)
Definition isspace (c : chr) : bool :=
  if is_ascii c then ascii_isspace c else uni_isspace U c.

(** [c.isalnum()]. *)
Definition isalnum (c : chr) : bool :=
  if is_ascii c then ascii_isletter c || ascii_isdigit c else uni_isalnum U c.

(** The class [\d] of [re]: a decimal digit. *)
Definition isdecimal (c : chr) : bool :=
  if is_ascii c then ascii_isdigit c else uni_isdecimal U c.

(** [c.isdigit()]. *)
Definition isdigit (c : chr) : bool :=
  if is_ascii c then ascii_isdigit c else uni_isdigit U c.

(** [c.isupper()] of a single character. *)
Definition isupper (c : chr) : bool :=
  if is_ascii c then ascii_isupper c else uni_isupper U c.

(** The class [\w] of [re]: alphanumeric or underscore. *)
Definition isword (c : chr) : bool := isalnum c || (c =? c_underscore)%N.

(** ** String methods *)

Fixpoint lstrip_by (p : chr -> bool) (s : text) : text :=
  match s with
  | c :: s' => if p c then lstrip_by p s' else s
  | [] => []
  end.

Definition rstrip_by (p : chr -> bool) (s : text) : text :=
  rev (lstrip_by p (rev s)).

(** [s.strip()]. *)
Definition strip (s : text) : text := rstrip_by isspace (lstrip_by isspace s).

(** [s.rstrip(chars)]. *)
Definition rstrip_chars (chars : text) (s : text) : text :=
  rstrip_by (fun c => existsb (N.eqb c) chars) s.

(** [s.count(c)] for a one-character [c]. *)
Definition count (c : chr) (s : text) : Z :=
  Z.of_nat (List.length (filter (N.eqb c) s)).

(** [s.replace(c, '')] for a one-character [c]. *)
Definition remove_char (c : chr) (s : text) : text :=
  filter (fun d => negb (d =? c)%N) s.

(** [s.isdigit()]: non-empty and every character a digit. *)
Definition str_isdigit (s : text) : bool :=
  match s with [] => false | _ => forallb isdigit s end.

(** [s.split()]: the maximal runs of non-whitespace characters. *)
Fixpoint split_aux (s : text) (cur : text) : list text :=
  match s with
  | [] => match cur with [] => [] | _ => [rev cur] end
  | c :: s' =>
      if isspace c
      then match cur with
           | [] => split_aux s' []
           | _ => rev cur :: split_aux s' []
           end
      else split_aux s' (c :: cur)
  end.

Definition split (s : text) : list text := split_aux s [].

(** [sep.join(parts)]. *)
Fixpoint join (sep : text) (parts : list text) : text :=
  match parts with
  | [] => []
  | [p] => p
  | p :: ps => p ++ sep ++ join sep ps
  end.

(** [s.lower()], [s.upper()] and [s.title()]. *)
Definition lower (s : text) : text :=
  if forallb is_ascii s then map ascii_lower s else uni_lower U s.

Definition upper (s : text) : text :=
  if forallb is_ascii s then map ascii_upper s else uni_upper U s.

Fixpoint ascii_title (prev_cased : bool) (s : text) : text :=
  match s with
  | [] => []
  | c :: s' =>
      (if prev_cased then ascii_lower c else ascii_upper c)
        :: ascii_title (ascii_isletter c) s'
  end.

Definition title (s : text) : text :=
  if forallb is_ascii s then ascii_title false s else uni_title U s.

End Chars.

(** ** Exceptions

    Python operations that can raise are written in this error monad:
    integer division, indexing a list or a string, [row[key]], a method call
    on [None], the HTML parser on markup it rejects, an assignment to a
    cell that pandas refuses. *)

Inductive exn : Type :=
| ZeroDivisionError
| IndexError
| KeyError
| AttributeError
| ParserRejectedMarkup
| TypeError.

Inductive res (A : Type) : Type :=
| Ok (a : A)
| Raise (e : exn).

Arguments Ok {A} a.
Arguments Raise {A} e.

Definition bind {A B : Type} (m : res A) (f : A -> res B) : res B :=
  match m with
  | Ok a => f a
  | Raise e => Raise e
  end.

Notation "x <- m ;; k" := (bind m (fun x => k))
  (at level 61, m at next level, right associativity).

(** [l[i]] for a non-negative literal index [i]. *)
Definition index {A : Type} (l : list A) (i : nat) : res A :=
  match nth_error l i with
  | Some a => Ok a
  | None => Raise IndexError
  end.

(** [l[:n]] with Python's reading of a negative bound. *)
Definition slice_to {A : Type} (l : list A) (n : Z) : list A :=
  if (0 <=? n)%Z then firstn (Z.to_nat n) l
  else firstn (Z.to_nat (Z.of_nat (List.length l) + n)) l.

(** ** Regular expressions of [re]

    The constructs used by the source's patterns.  A quantifier is always
    applied to a single-character atom there, except [?], which is also
    applied to groups. *)

Inductive citem : Type :=
| IChr (c : chr)
| IRange (lo hi : chr)
| ISpace.

Inductive atom : Type :=
| ALit (c : chr)
| ASet (items : list citem)
| ANotSet (items : list citem)
| ADigit
| ASpace
| AAny.

Inductive regex : Type :=
| Eps
| Chr (a : atom)
| Cat (r1 r2 : regex)
| Alt (r1 r2 : regex)
| Opt (r : regex)
| Rep (a : atom) (lo : nat) (hi : option nat) (lazy : bool)
| Grp (n : nat) (r : regex)
| NotAhead (r : regex)
| WordB
| Eos.

Fixpoint Cats (rs : list regex) : regex :=
  match rs with
  | [] => Eps
  | [r] => r
  | r :: rs' => Cat r (Cats rs')
  end.

Fixpoint Alts (rs : list regex) : regex :=
  match rs with
  | [] => Eps
  | [r] => r
  | r :: rs' => Alt r (Alts rs')
  end.

Definition Lits (s : string) : regex := Cats (map (fun c => Chr (ALit c)) (str s)).

Definition Star (a : atom) : regex := Rep a 0 None false.
Definition Plus (a : atom) : regex := Rep a 1 None false.
Definition Maybe (a : atom) : regex := Rep a 0 (Some 1) false.

Fixpoint ngroups (r : regex) : nat :=
  match r with
  | Cat r1 r2 | Alt r1 r2 => Nat.max (ngroups r1) (ngroups r2)
  | Opt r1 | NotAhead r1 => ngroups r1
  | Grp n r1 => Nat.max n (ngroups r1)
  | _ => 0
  end.

Definition caps := list (nat * (nat * nat)).

Fixpoint cap_lookup (n : nat) (c : caps) : option (nat * nat) :=
  match c with
  | [] => None
  | (m, se) :: c' => if Nat.eqb m n then Some se else cap_lookup n c'
  end.

Fixpoint first_some {A B : Type} (f : A -> option B) (l : list A) : option B :=
  match l with
  | [] => None
  | a :: l' => match f a with Some b => Some b | None => first_some f l' end
  end.

(** The repetition counts a quantifier tries, in the order it tries them:
    from the longest run down for a greedy one, from the shortest up for a
    lazy one. *)
Definition counts (lo n_max : nat) (lazy : bool) : list nat :=
  if n_max <? lo then []
  else let up := seq lo (n_max - lo + 1) in
       if lazy then up else rev up.

Definition N_range (lo hi : chr) : list chr :=
  map (fun k => (lo + N.of_nat k)%N) (seq 0 (N.to_nat (hi + 1 - lo))).

Section Regex.

Variable U : Runtime.
Variable icase : bool.     (* re.IGNORECASE *)

(** A literal of the pattern against a character of the text.  Under
    IGNORECASE a cased literal is compared after lower-casing; the cased
    literals of the source's patterns are ASCII letters. *)
Definition lit_match (p c : chr) : bool :=
  if icase && ascii_isletter p
  then if is_ascii c then (ascii_lower c =? ascii_lower p)%N
       else uni_ci U (ascii_lower p) c
  else (c =? p)%N.

Definition item_match (c : chr) (it : citem) : bool :=
  match it with
  | IChr p => lit_match p c
  | IRange lo hi =>
      if icase then existsb (fun p => lit_match p c) (N_range lo hi)
      else between lo hi c
  | ISpace => isspace U c
  end.

Definition atom_match (a : atom) (c : chr) : bool :=
  match a with
  | ALit p => lit_match p c
  | ASet items => existsb (item_match c) items
  | ANotSet items => negb (existsb (item_match c) items)
  | ADigit => isdecimal U c
  | ASpace => isspace U c
  | AAny => negb (c =? c_newline)%N
  end.

(** Length of the run of characters matching [a] at the head of [s], at
    most [limit]. *)
Fixpoint run (a : atom) (s : text) (limit : nat) : nat :=
  match limit, s with
  | S l, c :: s' => if atom_match a c then S (run a s' l) else 0
  | _, _ => 0
  end.

Variable t : text.         (* the string searched *)

Definition char_at (i : nat) : option chr := nth_error t i.

Definition word_at (i : nat) : bool :=
  match char_at i with Some c => isword U c | None => false end.

(** [\b]: exactly one of the characters before and after is a word
    character. *)
Definition at_boundary (i : nat) : bool :=
  xorb (match i with 0 => false | S j => word_at j end) (word_at i).

(** [$]: at the end, or before a newline that ends the string. *)
Definition at_end (i : nat) : bool :=
  (i =? List.length t) ||
  ((S i =? List.length t) &&
   match char_at i with Some c => (c =? c_newline)%N | None => false end).

Definition cont := nat -> caps -> option (nat * caps).

Definition accept : cont := fun j c => Some (j, c).

(** The backtracking matcher, in continuation-passing style: [mtch r i c k]
    matches [r] at position [i] and hands every end position to [k], in the
    order [re] tries them, until [k] succeeds. *)
Fixpoint mtch (r : regex) (i : nat) (c : caps) (k : cont) : option (nat * caps) :=
  match r with
  | Eps => k i c
  | Chr a =>
      match char_at i with
      | Some ch => if atom_match a ch then k (S i) c else None
      | None => None
      end
  | Cat r1 r2 => mtch r1 i c (fun j c' => mtch r2 j c' k)
  | Alt r1 r2 =>
      match mtch r1 i c k with
      | Some x => Some x
      | None => mtch r2 i c k
      end
  | Opt r1 =>
      match mtch r1 i c k with
      | Some x => Some x
      | None => k i c
      end
  | Rep a lo hi lazy =>
      let limit := match hi with Some h => h | None => List.length t end in
      first_some (fun n => k (i + n) c)
                 (counts lo (run a (skipn i t) limit) lazy)
  | Grp n r1 => mtch r1 i c (fun j c' => k j ((n, (i, j)) :: c'))
  | NotAhead r1 =>
      match mtch r1 i c accept with
      | Some _ => None
      | None => k i c
      end
  | WordB => if at_boundary i then k i c else None
  | Eos => if at_end i then k i c else None
  end.

End Regex.

(** A match object. *)
Record pymatch : Type := {
  m_string : text;
  m_start : nat;
  m_end : nat;
  m_caps : caps;
  m_ngroups : nat
}.

Definition substr (t : text) (s e : nat) : text := firstn (e - s) (skipn s t).

(** [m.group(n)] for [1 <= n <= m_ngroups]: [None] when the group took no
    part in the match. *)
Definition group (m : pymatch) (n : nat) : option text :=
  match cap_lookup n (m_caps m) with
  | Some (s, e) => Some (substr (m_string m) s e)
  | None => None
  end.

(** [m.group(n)], which raises IndexError when the pattern has no group
    [n]. *)
Definition group_checked (m : pymatch) (n : nat) : res (option text) :=
  if n <=? m_ngroups m then Ok (group m n) else Raise IndexError.

(** [m.groups()]. *)
Definition groups (m : pymatch) : list (option text) :=
  map (group m) (seq 1 (m_ngroups m)).

Section Searching.

Variable U : Runtime.
Variable icase : bool.

Definition match_at (r : regex) (t : text) (i : nat) : option pymatch :=
  match mtch U icase t r i [] (accept) with
  | Some (j, c) =>
      Some {| m_string := t; m_start := i; m_end := j; m_caps := c;
              m_ngroups := ngroups r |}
  | None => None
  end.

(** The leftmost match starting at or after [pos]. *)
Definition search_from (r : regex) (t : text) (pos : nat) : option pymatch :=
  first_some (match_at r t) (seq pos (S (List.length t) - pos)).

(** [re.search(r, t)]. *)
Definition search (r : regex) (t : text) : option pymatch := search_from r t 0.

(** The successive non-overlapping matches scanned by [re.findall] and
    [re.sub]. *)
Fixpoint matches_from (fuel : nat) (r : regex) (t : text) (pos : nat) : list pymatch :=
  match fuel with
  | 0 => []
  | S f =>
      match search_from r t pos with
      | None => []
      | Some m =>
          m :: matches_from f r t
                 (if m_end m =? m_start m then S (m_end m) else m_end m)
      end
  end.

Definition all_matches (r : regex) (t : text) : list pymatch :=
  matches_from (S (List.length t)) r t 0.

(** [re.findall(r, t)] for a pattern with exactly one group: the texts of
    group 1. *)
Definition findall (r : regex) (t : text) : list text :=
  map (fun m => match group m 1 with Some g => g | None => [] end)
      (all_matches r t).

(** [re.sub(r, '', t)]: the text outside the matches. *)
Fixpoint cut_matches (t : text) (pos : nat) (ms : list pymatch) : text :=
  match ms with
  | [] => skipn pos t
  | m :: ms' => substr t pos (m_start m) ++ cut_matches t (m_end m) ms'
  end.

Definition sub_empty (r : regex) (t : text) : text :=
  cut_matches t 0 (all_matches r t).

End Searching.

(** ** Values of a row and dictionaries *)

(** A cell as [process_row] sees it: a null ([None] or NaN, for which
    [pd.isna] holds) or any other scalar, which the code only uses through
    [str(...)]. *)
Inductive value : Type :=
| PyNone
| NaN
| Str (s : text).

Definition notna (v : value) : bool :=
  match v with Str _ => true | _ => false end.

Definition py_str (v : value) : text :=
  match v with
  | PyNone => str "None"
  | NaN => str "nan"
  | Str s => s
  end.

(** The columns of a row that [process_row] reads; [None] is a column the
    row does not have. *)
Record Row : Type := {
  col_body_html : option value;    (* 'Body HTML' *)
  col_title : option value;        (* 'Title' *)
  col_vendor : option value;       (* 'Vendor' *)
  col_type : option value;         (* 'Type' *)
  col_material : option value      (* 'Metafield: custom.product_material [single_line_text_field]' *)
}.

(** [row.get(key)] and [row[key]]. *)
Definition row_get (cell : option value) : value :=
  match cell with Some v => v | None => PyNone end.

Definition row_index (cell : option value) : res value :=
  match cell with Some v => Ok v | None => Raise KeyError end.

(** A [dict] keeps its keys in insertion order; assigning to a key that is
    present keeps its place. *)
Definition dict := list (string * text).

Fixpoint dict_get (k : string) (d : dict) : option text :=
  match d with
  | [] => None
  | (k', v) :: d' => if String.eqb k' k then Some v else dict_get k d'
  end.

Definition dict_mem (k : string) (d : dict) : bool :=
  match dict_get k d with Some _ => true | None => false end.

Fixpoint dict_set (k : string) (v : text) (d : dict) : dict :=
  match d with
  | [] => [(k, v)]
  | (k', v') :: d' =>
      if String.eqb k' k then (k, v) :: d' else (k', v') :: dict_set k v d'
  end.

(** [d.update(e)]. *)
Definition dict_update (d e : dict) : dict :=
  fold_left (fun acc kv => dict_set (fst kv) (snd kv) acc) e d.

Definition dict_len (d : dict) : Z := Z.of_nat (List.length d).

(** ** The value validator *)

(** [a / b > 0.3] on integers.  The quotient of two integers is rounded
    correctly and [0.3] is the double nearest to 3/10, so for every length
    a string can have in memory the comparison is that of the exact
    fractions. *)
Definition ratio_exceeds (a b : Z) : res bool :=
  if (b =? 0)%Z then Raise ZeroDivisionError
  else Ok (3 * b <? 10 * a)%Z.

Definition is_empty (s : text) : bool :=
  match s with [] => true | _ => false end.

Definition special_count (U : Runtime) (s : text) : Z :=
  Z.of_nat (List.length
    (filter (fun c => negb (isalnum U c) && negb (c =? c_space)%N) s)).

Definition _is_valid_value (U : Runtime) (value : text) (max_length : Z) : res bool :=
  if is_empty value || is_empty (strip U value) then Ok false
  else
    let value := strip U value in
    if (max_length <? len value)%Z then Ok false
    else
      exceeds <- ratio_exceeds (special_count U value) (len value) ;;
      if exceeds then Ok false
      else if ((5 <? count c_comma value) || (5 <? count c_period value))%Z
           then Ok false
           else Ok true.

(** ** Formatters *)

(** A group inside an f-string. *)
Definition fstr (g : option text) : text :=
  match g with Some s => s | None => str "None" end.

(** Truth value of [m.group(n)]. *)
Definition truthy (g : option text) : bool :=
  match g with Some (_ :: _) => true | _ => false end.

(** A [str] method called on [m.group(n)]. *)
Definition on_str {A : Type} (g : option text) (f : text -> A) : res A :=
  match g with Some s => Ok (f s) | None => Raise AttributeError end.

Definition _format_dimensions (U : Runtime) (m : pymatch) : res text :=
  let gs :=
    flat_map (fun g =>
      match g with
      | Some s => if negb (is_empty s) && str_isdigit U (remove_char c_period s)
                  then [s] else []
      | None => []
      end) (groups m) in
  if 3 <=? List.length gs then
    unit <- (if 4 <=? List.length (groups m) then
               g4 <- group_checked m 4 ;;
               if truthy g4 then g4' <- group_checked m 4 ;; Ok (fstr g4')
               else Ok (str "inches")
             else Ok (str "inches")) ;;
    let unit := if text_eqb unit [c_dquote] then str "inches" else unit in
    a <- index gs 0 ;;
    b <- index gs 1 ;;
    c <- index gs 2 ;;
    Ok (a ++ str " x " ++ b ++ str " x " ++ c ++ str " " ++ unit)
  else if List.length gs =? 2 then
    a <- index gs 0 ;;
    b <- index gs 1 ;;
    Ok (a ++ str " x " ++ b)
  else Ok [].

(** [\b(with|and|for|the|a|an)\b.*] *)
Definition filler_pattern : regex :=
  Cats [WordB;
        Grp 1 (Alts [Lits "with"; Lits "and"; Lits "for"; Lits "the";
                     Lits "a"; Lits "an"]);
        WordB; Star AAny].

Definition _clean_material (U : Runtime) (material : text) : text :=
  let material := lower U (strip U material) in
  let material := strip U (sub_empty U false filler_pattern material) in
  if ((3 <? len material) && (len material <? 30))%Z
  then title U material
  else [].

(** [f"{m.group(1)} {m.group(2)}"] *)
Definition fmt_number_unit (m : pymatch) : res text :=
  Ok (fstr (group m 1) ++ str " " ++ fstr (group m 2)).

(** The number, a degree sign, a space, and the unit in upper case:
    [m.group(2).upper() if m.group(2) else 'F']. *)
Definition fmt_temperature (U : Runtime) (m : pymatch) : res text :=
  unit <- (if truthy (group m 2) then on_str (group m 2) (upper U)
           else Ok (str "F")) ;;
  Ok (fstr (group m 1) ++ [c_degree] ++ str " " ++ unit).

(** ** The pattern catalog *)

Definition lit (s : string) : atom :=
  match str s with c :: _ => ALit c | [] => AAny end.

(** [\d+\.?\d*] *)
Definition number : regex := Cats [Plus ADigit; Maybe (lit "."); Star ADigit].
(** [\s*] and [\s+] *)
Definition ws : regex := Star ASpace.
Definition ws1 : regex := Plus ASpace.
(** an optional double or single quote mark *)
Definition quote : regex := Maybe (ASet [IChr c_dquote; IChr c_squote]).
(** one of x, X and the multiplication sign *)
Definition by_sign : regex := Chr (ASet [IChr 120%N; IChr 88%N; IChr c_times]).

Definition pat_dimensions_1 : regex :=
  Cats [Grp 1 number; ws; quote; ws; by_sign; ws;
        Grp 2 number; ws; quote; ws; by_sign; ws;
        Grp 3 number; ws; quote; ws;
        Opt (Grp 4 (Alts [Cat (Lits "inche") (Maybe (lit "s"));
                          Lits "in"; Lits "cm"; Lits "mm"; Chr (ALit c_dquote)]))].

Definition pat_dimensions_2 : regex :=
  Cats [Alt (Cat (Lits "dimension") (Maybe (lit "s"))) (Lits "size");
        Maybe (lit ":"); ws;
        Grp 1 number; ws; by_sign; ws; Grp 2 number; ws;
        Opt (Cats [by_sign; ws; Grp 3 number])].

Definition pat_weight : regex :=
  Cats [Grp 1 number; ws;
        Grp 2 (Alts [Cat (Lits "lb") (Maybe (lit "s"));
                     Cat (Lits "pound") (Maybe (lit "s"));
                     Lits "kg";
                     Cat (Lits "kilogram") (Maybe (lit "s"))]);
        WordB].

Definition pat_capacity_1 : regex :=
  Cats [Opt (Cats [Lits "capacity"; Maybe (lit ":"); ws]);
        Grp 1 number; ws; Opt (Cat (Chr (lit "-")) ws);
        Grp 2 (Alts [Lits "cup"; Lits "cups"; Lits "oz";
                     Cat (Lits "ounce") (Maybe (lit "s"));
                     Lits "ml";
                     Cat (Lits "milliliter") (Maybe (lit "s"));
                     Lits "liter";
                     Cat (Lits "liter") (Maybe (lit "s"));
                     Lits "l"; Lits "gallon";
                     Cat (Lits "gallon") (Maybe (lit "s"));
                     Lits "qt";
                     Cat (Lits "quart") (Maybe (lit "s"))]);
        WordB].

Definition pat_capacity_2 : regex :=
  Cats [Alt (Lits "up to") (Lits "upto"); ws1; Grp 1 (Plus ADigit); ws1;
        Grp 2 (Alt (Lits "cup") (Lits "cups")); WordB].

Definition pat_power : regex :=
  Cats [Grp 1 (Plus ADigit); ws;
        Grp 2 (Alts [Lits "watt"; Lits "watts"; Lits "w"]);
        WordB; NotAhead (Cat ws (Lits "max"))].

Definition pat_voltage : regex :=
  Cats [Grp 1 (Plus ADigit); ws;
        Grp 2 (Alts [Lits "volt"; Lits "volts"; Lits "v"]);
        WordB].

Definition pat_material_1 : regex :=
  Cats [Alt (Cat (Lits "made ") (Alt (Lits "of") (Lits "from")))
            (Cat (Lits "material") (Maybe (lit ":")));
        ws1;
        Grp 1 (Rep (ASet [IRange 97%N 122%N; ISpace]) 3 (Some 30) true);
        Alts [Chr (lit "."); Chr (lit ","); Eos;
              Cat ws1 (Alts [Lits "with"; Lits "and"; Lits "for"])]].

Definition pat_material_2 : regex :=
  Cats [WordB;
        Grp 1 (Alts [Cats [Lits "stainless"; ws1; Lits "steel"];
                     Cats [Lits "carbon"; ws1; Lits "steel"];
                     Lits "aluminum"; Lits "plastic"; Lits "glass";
                     Lits "ceramic"; Lits "wood"; Lits "silicone";
                     Lits "rubber"]);
        WordB].

Definition pat_color : regex :=
  Cats [Alt (Lits "color") (Lits "colour"); Maybe (lit ":"); ws1;
        Grp 1 (Rep (ASet [IRange 97%N 122%N; ISpace]) 3 (Some 20) true);
        Alts [Chr (lit "."); Chr (lit ","); Eos]].

Definition pat_temperature : regex :=
  Cats [Alt (Lits "up to") (Cat (Lits "max") (Opt (Lits "imum")));
        ws1; Grp 1 (Plus ADigit); ws;
        Opt (Alt (Cat (Lits "degree") (Maybe (lit "s"))) (Chr (ALit c_degree)));
        ws;
        Opt (Grp 2 (Alts [Lits "f"; Lits "fahrenheit"; Lits "c"; Lits "celsius"]))].

Definition pat_settings : regex :=
  Cats [Grp 1 (Plus ADigit); ws1;
        Opt (Cat (Lits "precision") ws1);
        Alts [Lits "speed"; Lits "heat"; Lits "temperature"];
        ws1; Lits "setting"; Maybe (lit "s")].

Definition pat_pieces : regex :=
  Cats [Grp 1 (Plus ADigit); ws; Opt (Cat (Chr (lit "-")) ws); Lits "piece"].

Definition rule : Type := regex * (pymatch -> res text).
Definition catalog : Type := list (string * list rule).

(** [self.patterns], in the order the dictionary is written. *)
Definition patterns (U : Runtime) : catalog :=
  [ ("Dimensions"%string,
       [ (pat_dimensions_1, _format_dimensions U);
         (pat_dimensions_2, _format_dimensions U) ]);
    ("Weight"%string, [ (pat_weight, fmt_number_unit) ]);
    ("Capacity"%string,
       [ (pat_capacity_1, fmt_number_unit);
         (pat_capacity_2, fmt_number_unit) ]);
    ("Power"%string, [ (pat_power, fmt_number_unit) ]);
    ("Voltage"%string, [ (pat_voltage, fmt_number_unit) ]);
    ("Material"%string,
       [ (pat_material_1, fun m => on_str (group m 1) (_clean_material U));
         (pat_material_2, fun m => on_str (group m 1) (title U)) ]);
    ("Color"%string,
       [ (pat_color, fun m => on_str (group m 1) (fun s => title U (strip U s))) ]);
    ("Temperature Range"%string, [ (pat_temperature, fmt_temperature U) ]);
    ("Settings"%string,
       [ (pat_settings, fun m => Ok (fstr (group m 1) ++ str " settings")) ]);
    ("Pieces"%string,
       [ (pat_pieces, fun m => Ok (fstr (group m 1) ++ str " pieces")) ]) ].

(** ** The extraction engine *)

(** The rules of one label, tried in order on the lower-cased text.  The
    body of the [try] is the call of the formatter and the validation; a
    rule whose formatter or validation raises is skipped ([except:
    continue]), as is one whose value is empty or rejected. *)
Fixpoint try_rules (U : Runtime) (rules : list rule) (text_lower : text) : option text :=
  match rules with
  | [] => None
  | (pattern, formatter) :: rest =>
      match search U true pattern text_lower with
      | Some m =>
          match (value <- formatter m ;;
                 ok <- (if is_empty value then Ok false
                        else _is_valid_value U value 100) ;;
                 Ok (value, ok)) with
          | Ok (value, true) => Some value
          | Ok (_, false) => try_rules U rest text_lower
          | Raise _ => try_rules U rest text_lower
          end
      | None => try_rules U rest text_lower
      end
  end.

Fixpoint extract_loop (U : Runtime) (cat : catalog) (text_lower : text)
    (max_specs : Z) (specs : dict) : dict :=
  match cat with
  | [] => specs
  | (spec_name, rules) :: rest =>
      if (max_specs <=? dict_len specs)%Z then specs
      else extract_loop U rest text_lower max_specs
             (match try_rules U rules text_lower with
              | Some value => dict_set spec_name value specs
              | None => specs
              end)
  end.

(** The engine over any catalog; [extract_specs_from_text] runs it on
    [self.patterns]. *)
Definition extract_with (U : Runtime) (cat : catalog) (txt : text) (max_specs : Z) : dict :=
  extract_loop U cat (lower U txt) max_specs [].

Definition extract_specs_from_text (U : Runtime) (txt : text) (max_specs : Z) : dict :=
  extract_with U (patterns U) txt max_specs.

(** ** The feature phrase extractor *)

Definition bullet_glyphs : list chr :=
  [c_bullet; c_black_circle; c_white_circle; c_black_small_square;
   c_white_small_square].

(** A bullet glyph, [\s*], then a group of 10 to 80 characters that are
    neither a bullet glyph nor a newline. *)
Definition bullet_pattern : regex :=
  Cats [Chr (ASet (map IChr bullet_glyphs)); ws;
        Grp 1 (Rep (ANotSet (map IChr (bullet_glyphs ++ [c_newline])))
                   10 (Some 80) false)].

(** [keyword:?\s+([^.]{15,80})\.] *)
Definition keyword_pattern (keyword : string) : regex :=
  Cats [Lits keyword; Maybe (lit ":"); ws1;
        Grp 1 (Rep (ANotSet [IChr c_period]) 15 (Some 80) false);
        Chr (lit ".")].

Definition feature_keywords : list (regex * string) :=
  [ (keyword_pattern "featuring", "Feature"%string);
    (keyword_pattern "includes", "Included"%string);
    (keyword_pattern "comes with", "Included"%string) ].

(** One [for] loop over candidate phrases: each is stripped, keeps its place
    when its length is strictly between [lo] and 80 and it is valid. *)
Fixpoint collect (U : Runtime) (label : string) (lo : Z) (trail : text)
    (cands : list text) (features : list (string * text))
    : res (list (string * text)) :=
  match cands with
  | [] => Ok features
  | cand :: rest =>
      let feature := rstrip_chars trail (strip U cand) in
      keep <- (if ((lo <? len feature) && (len feature <? 80))%Z
               then _is_valid_value U feature 100
               else Ok false) ;;
      collect U label lo trail rest
        (if keep then features ++ [(label, feature)] else features)
  end.

(** The bullet pass: the first [max_features] bullet segments, filtered. *)
Definition bullet_features (U : Runtime) (txt : text) (max_features : Z)
    : res (list (string * text)) :=
  collect U "Feature" 10 (str ".,")
    (slice_to (findall U false bullet_pattern txt) max_features) [].

(** The phrase-keyword pass. *)
Fixpoint keyword_features (U : Runtime) (kws : list (regex * string))
    (txt : text) (max_features : Z) (features : list (string * text))
    : res (list (string * text)) :=
  match kws with
  | [] => Ok features
  | (pattern, label) :: rest =>
      features' <-
        collect U label 15 (str ",")
          (slice_to (findall U true pattern txt)
                    (max_features - Z.of_nat (List.length features)))
          features ;;
      keyword_features U rest txt max_features features'
  end.

Definition extract_key_features (U : Runtime) (txt : text) (max_features : Z)
    : res (list (string * text)) :=
  features <- bullet_features U txt max_features ;;
  if negb (match features with [] => true | _ => false end)
  then Ok features
  else keyword_features U feature_keywords txt max_features features.

(** ** The brand resolver *)

Definition extract_brand (U : Runtime) (title vendor : value) : res (option text) :=
  match (if notna vendor
         then let brand := strip U (py_str vendor) in
              if ((2 <? len brand) && (len brand <? 30))%Z
              then Some brand else None
         else None) with
  | Some brand => Ok (Some brand)
  | None =>
      if notna title then
        let words := split U (py_str title) in
        match words with
        | [] => Ok None
        | _ =>
            brand <- index words 0 ;;
            first <- index brand 0 ;;
            if (isupper U first && ((2 <? len brand) && (len brand <? 30))%Z)%bool
            then Ok (Some brand)
            else Ok None
        end
      else Ok None
  end.

(** ** The merge of [process_row]

    [soup_get_text] is the text that the HTML parser gives for markup it
    accepts, and [clean_html] and the steps below are the functions of the
    source on such markup.  The parser can also reject markup; that error
    path of the same functions is in the module [Markup] further down. *)

Definition clean_html (U : Runtime) (html_text : value) : text :=
  if notna html_text
  then join [c_space] (split U (soup_get_text U (py_str html_text)))
  else [].

(** 1. structured specs from the description *)
Definition add_description (U : Runtime) (row : Row) (all_specs : dict) : res dict :=
  if notna (row_get (col_body_html row)) then
    body <- row_index (col_body_html row) ;;
    let clean_text := clean_html U body in
    let text_specs := extract_specs_from_text U clean_text 5 in
    Ok (dict_update all_specs text_specs)
  else Ok all_specs.

Definition add_missing (all_specs extra : dict) : dict :=
  fold_left (fun acc kv =>
               if dict_mem (fst kv) acc then acc
               else dict_set (fst kv) (snd kv) acc)
            extra all_specs.

(** 2. specs from the title *)
Definition add_title (U : Runtime) (row : Row) (all_specs : dict) : res dict :=
  if notna (row_get (col_title row)) then
    ttl <- row_index (col_title row) ;;
    let clean_title := clean_html U ttl in
    let title_specs := extract_specs_from_text U clean_title 2 in
    Ok (add_missing all_specs title_specs)
  else Ok all_specs.

(** 3. brand *)
Definition add_brand (U : Runtime) (row : Row) (all_specs : dict) : res dict :=
  brand <- extract_brand U (row_get (col_title row)) (row_get (col_vendor row)) ;;
  if truthy brand && negb (dict_mem "Brand" all_specs)
  then Ok (dict_set "Brand" (fstr brand) all_specs)
  else Ok all_specs.

(** 4. product type *)
Definition add_category (U : Runtime) (row : Row) (all_specs : dict) : res dict :=
  if notna (row_get (col_type row)) then
    ty <- row_index (col_type row) ;;
    let product_type := strip U (py_str ty) in
    if (negb (is_empty product_type)
        && ((3 <? len product_type) && (len product_type <? 50))%Z)%bool
    then Ok (dict_set "Category" product_type all_specs)
    else Ok all_specs
  else Ok all_specs.

(** 5. material from the metafield *)
Definition add_material (U : Runtime) (row : Row) (all_specs : dict) : res dict :=
  if notna (row_get (col_material row)) then
    mat <- row_index (col_material row) ;;
    let material := strip U (py_str mat) in
    if (negb (dict_mem "Material" all_specs)
        && ((3 <? len material) && (len material <? 30))%Z)%bool
    then Ok (dict_set "Material" material all_specs)
    else Ok all_specs
  else Ok all_specs.

(** 6. one or two key features when there are fewer than 4 specs *)
Definition add_features (U : Runtime) (row : Row) (all_specs : dict) : res dict :=
  if ((dict_len all_specs <? 4)%Z && notna (row_get (col_body_html row)))%bool then
    body <- row_index (col_body_html row) ;;
    let clean_text := clean_html U body in
    features <- extract_key_features U clean_text
                  (Z.min 2 (5 - dict_len all_specs)) ;;
    Ok (dict_update all_specs features)
  else Ok all_specs.

(** The dictionary [all_specs] that [process_row] has built when it
    returns. *)
Definition all_specs (U : Runtime) (row : Row) : res dict :=
  s1 <- add_description U row [] ;;
  s2 <- add_title U row s1 ;;
  s3 <- add_brand U row s2 ;;
  s4 <- add_category U row s3 ;;
  s5 <- add_material U row s4 ;;
  add_features U row s5.

Definition format_specs_for_shopify (U : Runtime) (specs : dict) : text :=
  match specs with
  | [] => []
  | _ => json_dumps U (map (fun kv => str (fst kv) ++ str ": " ++ snd kv) specs)
  end.

Definition process_row (U : Runtime) (row : Row) : res text :=
  specs <- all_specs U row ;;
  Ok (format_specs_for_shopify U specs).

(** ** A runtime for running examples

    Tables that are right on ASCII text and on the symbols written in the
    source (the multiplication sign, the degree sign, the bullet glyphs),
    which are neither spaces, letters nor digits: every code point above 127
    is taken as such a symbol.  Its [soup_get_text] is that of text without
    markup: the stripped text. *)
Definition plain : Runtime :=
  {| uni_isspace := fun _ => false;
     uni_isalnum := fun _ => false;
     uni_isdecimal := fun _ => false;
     uni_isdigit := fun _ => false;
     uni_isupper := fun _ => false;
     uni_ci := fun _ _ => false;
     uni_lower := map ascii_lower;
     uni_upper := map ascii_upper;
     uni_title := ascii_title false;
     soup_get_text := fun s =>
       rstrip_by ascii_isspace (lstrip_by ascii_isspace s);
     json_dumps := fun l =>
       str "[" ++ join (str ", ") (map (fun s => [c_dquote] ++ s ++ [c_dquote]) l)
           ++ str "]" |}.

(** ** What a match is

    [derives r i c j c'] reads a pattern as a relation: [r] can match the
    text from position [i] to position [j], taking the captures from [c] to
    [c'].  A negative lookahead holds where the matcher finds no match of
    its body. *)

Section Derivation.

Variable U : Runtime.
Variable icase : bool.
Variable t : text.

Fixpoint derives (r : regex) (i : nat) (c : caps) (j : nat) (c' : caps) : Prop :=
  match r with
  | Eps => j = i /\ c' = c
  | Chr a =>
      exists ch, char_at t i = Some ch /\ atom_match U icase a ch = true
                 /\ j = S i /\ c' = c
  | Cat r1 r2 => exists m cm, derives r1 i c m cm /\ derives r2 m cm j c'
  | Alt r1 r2 => derives r1 i c j c' \/ derives r2 i c j c'
  | Opt r1 => derives r1 i c j c' \/ (j = i /\ c' = c)
  | Rep a lo hi lazy =>
      exists n, lo <= n
        /\ n <= run U icase a (skipn i t)
                  (match hi with Some h => h | None => List.length t end)
        /\ j = i + n /\ c' = c
  | Grp n r1 => exists c1, derives r1 i c j c1 /\ c' = (n, (i, j)) :: c1
  | NotAhead r1 => mtch U icase t r1 i c (@accept) = None /\ j = i /\ c' = c
  | WordB => at_boundary U t i = true /\ j = i /\ c' = c
  | Eos => at_end t i = true /\ j = i /\ c' = c
  end.

End Derivation.

(** ** Entries of the merged dictionary

    An entry of [all_specs] has passed the validator, or it is the brand
    returned by [extract_brand], the trimmed product type, or the trimmed
    material metafield, which are only checked for their length. *)

Definition entry_ok (U : Runtime) (row : Row) (kv : string * text) : Prop :=
  _is_valid_value U (snd kv) 100 = Ok true
  \/ (fst kv = "Brand"%string
      /\ extract_brand U (row_get (col_title row)) (row_get (col_vendor row))
         = Ok (Some (snd kv))
      /\ (2 < len (snd kv) < 30)%Z)
  \/ (fst kv = "Category"%string
      /\ snd kv = strip U (py_str (row_get (col_type row)))
      /\ (3 < len (snd kv) < 50)%Z)
  \/ (fst kv = "Material"%string
      /\ snd kv = strip U (py_str (row_get (col_material row)))
      /\ (3 < len (snd kv) < 30)%Z).

(** An entry made by the feature phrase extractor. *)
Definition feature_ok (U : Runtime) (kv : string * text) : Prop :=
  (fst kv = "Feature"%string \/ fst kv = "Included"%string)
  /\ _is_valid_value U (snd kv) 100 = Ok true.

(** The labels of the steps after the pattern passes that assign without
    looking whether the label is set. *)
Definition overwritten (k : string) : Prop :=
  k = "Category"%string \/ k = "Feature"%string \/ k = "Included"%string.

(** ** Rows used as examples *)

Definition row_of (body ttl vendor ty material : option value) : Row :=
  {| col_body_html := body; col_title := ttl; col_vendor := vendor;
     col_type := ty; col_material := material |}.


(** A row whose only cell is the product type [!!!!]. *)
Definition junk_type_row : Row :=
  row_of None None None (Some (Str (str "!!!!"))) None.

(** A row whose description and title both state a weight. *)
Definition two_weights_row : Row :=
  row_of (Some (Str (str "Weighs 4.5 lbs")))
         (Some (Str (str "Acme Blender 2 kg")))
         None None None.

(** ** Occurrences of a phrase in a text

    [starts_with U p s]: [s] begins with the characters of [p], compared as
    [re.IGNORECASE] compares a literal; [ci_equal U p s]: [s] is [p] up to
    that comparison. *)

Fixpoint starts_with (U : Runtime) (p s : text) : bool :=
  match p, s with
  | [], _ => true
  | pc :: p', c :: s' => lit_match U true pc c && starts_with U p' s'
  | _ :: _, [] => false
  end.

Definition ci_equal (U : Runtime) (p s : text) : bool :=
  (List.length p =? List.length s) && starts_with U p s.

(** The shape [\d+\.?\d*] of a number. *)
Definition number_shape (U : Runtime) (s : text) : Prop :=
  exists whole dot frac,
    s = whole ++ dot ++ frac
    /\ whole <> []
    /\ forallb (isdecimal U) whole = true
    /\ (dot = [] \/ dot = [c_period])
    /\ forallb (isdecimal U) frac = true.

Definition weight_units : list string :=
  ["lb"; "lbs"; "pound"; "pounds"; "kg"; "kilogram"; "kilograms"]%string.

Definition power_units : list string := ["watt"; "watts"; "w"]%string.

(** [rest] begins with optional white space and then [max]. *)
Definition followed_by_max (U : Runtime) (rest : text) : bool :=
  existsb (fun n => forallb (isspace U) (firstn n rest)
                    && starts_with U (str "max") (skipn n rest))
          (seq 0 (S (List.length rest))).

(** An integer at [i..j), white space at [j..k), then the unit [u] as a
    word ending at a word boundary. *)
Definition power_occurrence (U : Runtime) (t : text) (i j k : nat) (u : string) : bool :=
  if starts_with U (str u) (skipn k t) then
    if at_boundary U t (k + List.length (str u)) then
      if i <? j then
        if j <=? k then
          if forallb (isdecimal U) (substr t i j)
          then forallb (isspace U) (substr t j k)
          else false
        else false
      else false
    else false
  else false.

(** Every occurrence of [<integer> <watt|watts|w>] in [t] is followed by
    [max]. *)
Definition every_power_occurrence_followed_by_max (U : Runtime) (t : text) : bool :=
  let positions := seq 0 (S (List.length t)) in
  forallb (fun k =>
    forallb (fun u =>
      forallb (fun j =>
        forallb (fun i =>
          if power_occurrence U t i j k u
          then followed_by_max U (skipn (k + List.length (str u)) t)
          else true)
          positions)
        positions)
      power_units)
    positions.

(** A bullet glyph occurs in the text. *)
Definition has_bullet_glyph (txt : text) : bool :=
  existsb (fun c => existsb (N.eqb c) bullet_glyphs) txt.

(** ** Texts used as examples *)

Definition feature_phrase : text :=
  str "a removable nonstick plate for easy cleaning".

(** A keyword phrase followed by a bullet whose segment is too short to be
    a feature. *)
Definition phrase_then_short_bullet : text :=
  str "Featuring: a removable nonstick plate for easy cleaning. "
  ++ [c_bullet] ++ str " ok".

Definition deg (n unit : string) : text := str n ++ [c_degree] ++ str " " ++ str unit.

(** ** The HTML parser with its failure

    [BeautifulSoup(str(html_text), 'html.parser')] raises on markup that
    the parser rejects, such as the marked section [<![foo bar]>] whose
    keyword it does not know; [clean_html] has no handler, and neither has
    [process_row].  Here the parser followed by
    [get_text(separator=' ', strip=True)] is the parameter [soup], which
    returns the text or raises, and the functions of the source that reach
    the parser are written over it.  The functions of the same names above
    are these for a parser that accepts its input. *)

Module Markup.

Definition clean_html (U : Runtime) (soup : text -> res text)
    (html_text : value) : res text :=
  if notna html_text then
    txt <- soup (py_str html_text) ;;
    Ok (join [c_space] (split U txt))
  else Ok [].

(** 1. structured specs from the description *)
Definition add_description (U : Runtime) (soup : text -> res text)
    (row : Row) (all_specs : dict) : res dict :=
  if notna (row_get (col_body_html row)) then
    body <- row_index (col_body_html row) ;;
    clean_text <- clean_html U soup body ;;
    let text_specs := extract_specs_from_text U clean_text 5 in
    Ok (dict_update all_specs text_specs)
  else Ok all_specs.

(** 2. specs from the title *)
Definition add_title (U : Runtime) (soup : text -> res text)
    (row : Row) (all_specs : dict) : res dict :=
  if notna (row_get (col_title row)) then
    ttl <- row_index (col_title row) ;;
    clean_title <- clean_html U soup ttl ;;
    let title_specs := extract_specs_from_text U clean_title 2 in
    Ok (add_missing all_specs title_specs)
  else Ok all_specs.

(** 6. one or two key features when there are fewer than 4 specs *)
Definition add_features (U : Runtime) (soup : text -> res text)
    (row : Row) (all_specs : dict) : res dict :=
  if ((dict_len all_specs <? 4)%Z && notna (row_get (col_body_html row)))%bool then
    body <- row_index (col_body_html row) ;;
    clean_text <- clean_html U soup body ;;
    features <- extract_key_features U clean_text
                  (Z.min 2 (5 - dict_len all_specs)) ;;
    Ok (dict_update all_specs features)
  else Ok all_specs.

(** The dictionary [all_specs] that [process_row] has built when it
    returns; steps 3 to 5 do not reach the parser. *)
Definition all_specs (U : Runtime) (soup : text -> res text) (row : Row)
    : res dict :=
  s1 <- add_description U soup row [] ;;
  s2 <- add_title U soup row s1 ;;
  s3 <- add_brand U row s2 ;;
  s4 <- add_category U row s3 ;;
  s5 <- add_material U row s4 ;;
  add_features U soup row s5.

Definition process_row (U : Runtime) (soup : text -> res text) (row : Row)
    : res text :=
  specs <- all_specs U soup row ;;
  Ok (format_specs_for_shopify U specs).

End Markup.


(** The parser accepts the cell, when the cell is not null, and the text
    it gives is the one the runtime [U] has for it. *)
Definition parses (U : Runtime) (soup : text -> res text) (cell : value) : Prop :=
  notna cell = true -> soup (py_str cell) = Ok (soup_get_text U (py_str cell)).

(** A parser for running examples: it rejects the marked section
    [<![foo bar]>] and reads every other text as [plain] does. *)
Definition rejected_markup : text := str "<![foo bar]>".

Definition example_soup (s : text) : res text :=
  if text_eqb s rejected_markup then Raise ParserRejectedMarkup
  else Ok (soup_get_text plain s).


(** ** The loop of [process_excel_file]

    A sheet has the specification column or not, the same for all its
    rows; a row of the sheet as [iterrows] yields it is the product data
    read by [process_row] and the cell of the specification column, [None]
    in a sheet without that column.  Reading and writing the file and the
    progress output are left out.  The assignment
    [df.at[idx, spec_col] = specs_json], which pandas can refuse (a
    TypeError when the column cannot hold a string), is the parameter
    [df_at_set]; [json.loads] followed by [len], which only feeds the
    statistics and whose failure is ignored, is the parameter
    [loads_len]. *)

Inductive Sheet : Type :=
| WithSpecColumn (rows : list (Row * value))
| WithoutSpecColumn (rows : list Row).

Record SheetRow : Type := {
  sr_row : Row;
  sr_spec : option value    (* 'Metafield: custom.spec_list [list.single_line_text_field]' *)
}.

Definition iterrows (df : Sheet) : list SheetRow :=
  match df with
  | WithSpecColumn rows =>
      map (fun rv => {| sr_row := fst rv; sr_spec := Some (snd rv) |}) rows
  | WithoutSpecColumn rows =>
      map (fun r => {| sr_row := r; sr_spec := None |}) rows
  end.

Record Stats : Type := {
  total : Z;
  already_populated : Z;
  newly_populated : Z;
  skipped : Z;
  specs_extracted : Z
}.

(** [pd.notna(row[spec_col]) and str(row[spec_col]).strip()] *)
Definition has_existing (U : Runtime) (r : SheetRow) : res bool :=
  cell <- row_index (sr_spec r) ;;
  if notna cell then
    cell' <- row_index (sr_spec r) ;;
    Ok (negb (is_empty (strip U (py_str cell'))))
  else Ok false.

Fixpoint process_rows (U : Runtime) (soup : text -> res text)
    (df_at_set : text -> res unit) (loads_len : text -> option Z)
    (overwrite_existing : bool) (rows : list SheetRow) (stats : Stats)
    : res (list SheetRow * Stats) :=
  match rows with
  | [] => Ok ([], stats)
  | r :: rest =>
      existing <- has_existing U r ;;
      if existing && negb overwrite_existing then
        out <- process_rows U soup df_at_set loads_len overwrite_existing rest
                 {| total := total stats;
                    already_populated := already_populated stats + 1;
                    newly_populated := newly_populated stats;
                    skipped := skipped stats;
                    specs_extracted := specs_extracted stats |} ;;
        Ok (r :: fst out, snd out)
      else
        specs_json <- Markup.process_row U soup (sr_row r) ;;
        if negb (is_empty specs_json) then
          stored <- df_at_set specs_json ;;
          out <- process_rows U soup df_at_set loads_len overwrite_existing rest
                   {| total := total stats;
                      already_populated := already_populated stats;
                      newly_populated := newly_populated stats + 1;
                      skipped := skipped stats;
                      specs_extracted :=
                        match loads_len specs_json with
                        | Some n => specs_extracted stats + n
                        | None => specs_extracted stats
                        end |} ;;
          Ok ({| sr_row := sr_row r; sr_spec := Some (Str specs_json) |} :: fst out,
              snd out)
        else
          out <- process_rows U soup df_at_set loads_len overwrite_existing rest
                   {| total := total stats;
                      already_populated := already_populated stats;
                      newly_populated := newly_populated stats;
                      skipped := skipped stats + 1;
                      specs_extracted := specs_extracted stats |} ;;
          Ok (r :: fst out, snd out)
  end.

(** The rows and statistics of [process_excel_file] once the sheet is
    read. *)
Definition process_excel_file (U : Runtime) (soup : text -> res text)
    (df_at_set : text -> res unit) (loads_len : text -> option Z)
    (overwrite_existing : bool) (df : Sheet)
    : res (list SheetRow * Stats) :=
  process_rows U soup df_at_set loads_len overwrite_existing (iterrows df)
    {| total := Z.of_nat (List.length (iterrows df));
       already_populated := 0; newly_populated := 0; skipped := 0;
       specs_extracted := 0 |}.

(** ** The pattern pass, label by label

    A description of the result of the engine against which the loop with
    its cap is compared: the accepted value of every label that has one, in
    the order of the catalog. *)
Definition matched_specs (U : Runtime) (cat : catalog) (text_lower : text) : dict :=
  flat_map (fun entry =>
              match try_rules U (snd entry) text_lower with
              | Some value => [(fst entry, value)]
              | None => []
              end) cat.

(** The pattern passes of [process_row] over the description and over the
    title; empty when the cell is null or absent. *)
Definition description_specs (U : Runtime) (row : Row) : dict :=
  if notna (row_get (col_body_html row))
  then extract_specs_from_text U (clean_html U (row_get (col_body_html row))) 5
  else [].

Definition title_specs (U : Runtime) (row : Row) : dict :=
  if notna (row_get (col_title row))
  then extract_specs_from_text U (clean_html U (row_get (col_title row))) 2
  else [].

(** The trimmed cell when it is not null and its length is strictly between
    [lo] and [hi]. *)
Definition trimmed_between (U : Runtime) (cell : value) (lo hi : Z) : option text :=
  if notna cell
  then let s := strip U (py_str cell) in
       if ((lo <? len s) && (len s <? hi))%Z then Some s else None
  else None.

(** The first of two lookups that has a value. *)
Definition or_else {A : Type} (a b : option A) : option A :=
  match a with Some _ => a | None => b end.

(** A regular expression without capture groups. *)
Fixpoint group_free (r : regex) : bool :=
  match r with
  | Cat r1 r2 | Alt r1 r2 => group_free r1 && group_free r2
  | Opt r1 | NotAhead r1 => group_free r1
  | Grp _ _ => false
  | _ => true
  end.

(** A text that does not begin with a character satisfying [p]. *)
Definition starts_clean (p : chr -> bool) (s : text) : Prop :=
  match s with c :: _ => p c = false | [] => True end.

(** A word as [split] yields them: not empty, without white space. *)
Definition word_ok (U : Runtime) (w : text) : Prop :=
  w <> [] /\ forallb (fun c => negb (isspace U c)) w = true.

(** What the validator accepts, written on the trimmed value. *)
Definition acceptable (U : Runtime) (value : text) (max_length : Z) : Prop :=
  let s := strip U value in
  s <> []
  /\ (len s <= max_length)%Z
  /\ (10 * special_count U s <= 3 * len s)%Z
  /\ (count c_comma s <= 5)%Z
  /\ (count c_period s <= 5)%Z.

(** An entry of [extract_key_features]. *)
Definition feature_entry (U : Runtime) (kv : string * text) : Prop :=
  ((fst kv = "Feature"%string /\ (10 < len (snd kv) < 80)%Z)
   \/ (fst kv = "Included"%string /\ (15 < len (snd kv) < 80)%Z))
  /\ _is_valid_value U (snd kv) 100 = Ok true.

(** What the loop of [process_excel_file] does to one row [r] when it gets
    past it, [o] being the row afterwards: a row that has specifications is
    left as it is unless they are to be overwritten; otherwise
    [process_row] returns a text, and the row is left as it is when the text
    is empty, and else the text is stored in its specification cell. *)
Definition row_outcome (U : Runtime) (soup : text -> res text)
    (df_at_set : text -> res unit) (overwrite_existing : bool)
    (r o : SheetRow) : Prop :=
  exists existing,
    has_existing U r = Ok existing
    /\ if existing && negb overwrite_existing then o = r
       else exists specs_json,
              Markup.process_row U soup (sr_row r) = Ok specs_json
              /\ if is_empty specs_json then o = r
                 else df_at_set specs_json = Ok tt
                      /\ o = {| sr_row := sr_row r;
                                sr_spec := Some (Str specs_json) |}.

(** The loop gets past the row: [row_outcome] for some row afterwards. *)
Definition row_passes (U : Runtime) (soup : text -> res text)
    (df_at_set : text -> res unit) (overwrite_existing : bool)
    (r : SheetRow) : Prop :=
  exists o, row_outcome U soup df_at_set overwrite_existing r o.

(** A store that takes every text, as a column of strings does. *)
Definition always_stored (specs_json : text) : res unit := Ok tt.

(** The text that [process_row] returns for [two_weights_row] under
    [plain]. *)
Definition two_weights_json : text :=
  str "[" ++ [c_dquote] ++ str "Weight: 4.5 lbs" ++ [c_dquote] ++ str ", "
  ++ [c_dquote] ++ str "Brand: Acme" ++ [c_dquote] ++ str "]".

(** A sheet of two rows, the first with specifications, the second with an
    empty specification cell, and its rows and statistics after the loop. *)
Definition populated_cell : value := Str (str "[]").

Definition example_sheet : Sheet :=
  WithSpecColumn [ (junk_type_row, populated_cell);
                   (two_weights_row, Str []) ].

Definition example_sheet_after : list SheetRow :=
  [ {| sr_row := junk_type_row; sr_spec := Some populated_cell |};
    {| sr_row := two_weights_row; sr_spec := Some (Str two_weights_json) |} ].

Definition example_stats : Stats :=
  {| total := 2; already_populated := 1; newly_populated := 1; skipped := 0;
     specs_extracted := 2 |}.

(** ** Texts used as examples of the Weight entry *)

(** A weight whose number has 100 digits, and a text with dimensions before
    its weight. *)
Definition hundred_digit_weight : text := List.repeat 49%N 100 ++ str " kg".

Definition dimensions_then_weight : text := str "10 x 5 x 3 inches, 2 kg".

(** ** The feature loops in closed form *)

(** The validator accepts the value at the default maximum length. *)
Definition accepts (U : Runtime) (value : text) : bool :=
  match _is_valid_value U value 100 with
  | Ok true => true
  | _ => false
  end.

(** What a feature loop keeps of one candidate: the candidate trimmed and
    without the trailing characters [trail], when its length is strictly
    between [lo] and 80 and the validator accepts it. *)
Definition kept (U : Runtime) (lo : Z) (trail : text) (cand : text) : option text :=
  let feature := rstrip_chars trail (strip U cand) in
  if (lo <? len feature)%Z then
    if (len feature <? 80)%Z then
      if accepts U feature then Some feature else None
    else None
  else None.

(** The candidates kept, in their order, each under [label]. *)
Definition kept_features (U : Runtime) (label : string) (lo : Z) (trail : text)
    (cands : list text) : list (string * text) :=
  flat_map (fun cand => match kept U lo trail cand with
                        | Some feature => [(label, feature)]
                        | None => []
                        end) cands.

(** The result of the phrase-keyword pass started on an empty list: for
    each keyword in turn, what is kept of its first matches, as many as
    the maximum count less the features found so far. *)
Definition phrase_features (U : Runtime) (txt : text) (max_features : Z)
    : list (string * text) :=
  let k1 := kept_features U "Feature" 15 (str ",")
              (slice_to (findall U true (keyword_pattern "featuring") txt)
                        max_features) in
  let k2 := kept_features U "Included" 15 (str ",")
              (slice_to (findall U true (keyword_pattern "includes") txt)
                        (max_features - Z.of_nat (List.length k1))) in
  let k3 := kept_features U "Included" 15 (str ",")
              (slice_to (findall U true (keyword_pattern "comes with") txt)
                        (max_features - Z.of_nat (List.length (k1 ++ k2)))) in
  (k1 ++ k2) ++ k3.

(** A bullet whose segment the validator rejects, then a bullet with a
    feature. *)
Definition good_bullet : text := str "dishwasher safe parts".

Definition junk_then_good : text :=
  [c_bullet] ++ str " !!!!!!!!!!!! " ++ [c_bullet] ++ str " " ++ good_bullet.

(** ** Weight expressions

    A weight expression in [t]: digits at [i..a), an optional period at
    [a..b), digits at [b..j), white space at [j..k), then the unit [u], one
    of [weight_units] read without regard to case, ending at a word
    boundary. *)
Definition weight_expression (U : Runtime) (t : text) (i a b j k : nat)
    (u : string) : bool :=
  if existsb (String.eqb u) weight_units then
    if starts_with U (str u) (skipn k t) then
      if at_boundary U t (k + List.length (str u)) then
        if i <? a then
          if a <=? b then
            if b <=? S a then
              if b <=? j then
                if j <=? k then
                  if forallb (isdecimal U) (substr t i a) then
                    if forallb (fun c => (c =? c_period)%N) (substr t a b) then
                      if forallb (isdecimal U) (substr t b j)
                      then forallb (isspace U) (substr t j k)
                      else false
                    else false
                  else false
                else false
              else false
            else false
          else false
        else false
      else false
    else false
  else false.

(** The labels an entry of the merged dictionary can have. *)
Definition known_labels (U : Runtime) : list string :=
  map fst (patterns U) ++ ["Brand"; "Category"; "Feature"; "Included"]%string.

(** * Properties *)

(** ** The matcher against the relation *)

Lemma first_some_sound {A B : Type} (f : A -> option B) (l : list A) (b : B) :
  first_some f l = Some b -> exists a, In a l /\ f a = Some b.
Proof.
  induction l as [|a l IH]; simpl; [discriminate|].
  destruct (f a) eqn:E.
  - intros H; inversion H; subst. exists a; auto.
  - intros H. destruct (IH H) as (a' & Hin & Hf). exists a'; auto.
Qed.

Lemma first_some_complete {A B : Type} (f : A -> option B) (l : list A) (a : A) :
  In a l -> f a <> None -> first_some f l <> None.
Proof.
  induction l as [|x l IH]; simpl; [tauto|].
  intros [->|Hin] Hf.
  - destruct (f a); [discriminate|congruence].
  - destruct (f x); [discriminate|auto].
Qed.

Lemma first_some_none {A B : Type} (f : A -> option B) (l : list A) :
  first_some f l = None -> forall a, In a l -> f a = None.
Proof.
  intros H a Hin. destruct (f a) eqn:E; [|reflexivity].
  exfalso. apply (first_some_complete f l a Hin); congruence.
Qed.

Lemma counts_spec (lo n_max : nat) (lazy : bool) (n : nat) :
  In n (counts lo n_max lazy) <-> lo <= n <= n_max.
Proof.
  unfold counts. destruct (Nat.ltb_spec n_max lo).
  - simpl. lia.
  - destruct lazy; [|rewrite <- in_rev]; rewrite in_seq; lia.
Qed.

Section MatcherLaws.

Variable U : Runtime.
Variable icase : bool.
Variable t : text.

Lemma mtch_sound (r : regex) :
  forall i c k res,
    mtch U icase t r i c k = Some res ->
    exists j c', derives U icase t r i c j c' /\ k j c' = Some res.
Proof.
  induction r as [|a|r1 IH1 r2 IH2|r1 IH1 r2 IH2|r1 IH1|a lo hi lazy|n r1 IH1|r1 IH1| |];
    intros i c k res H; simpl in H |- *.
  - exists i, c; auto.
  - destruct (char_at t i) as [ch|] eqn:Ech; [|discriminate].
    destruct (atom_match U icase a ch) eqn:Ea; [|discriminate].
    exists (S i), c. split; [exists ch|]; auto.
  - apply IH1 in H. destruct H as (m & cm & D1 & H).
    apply IH2 in H. destruct H as (j & c' & D2 & H).
    exists j, c'. split; [exists m, cm|]; auto.
  - destruct (mtch U icase t r1 i c k) eqn:E1.
    + inversion H; subst. apply IH1 in E1. destruct E1 as (j & c' & D & Hk).
      exists j, c'; auto.
    + apply IH2 in H. destruct H as (j & c' & D & Hk). exists j, c'; auto.
  - destruct (mtch U icase t r1 i c k) eqn:E1.
    + inversion H; subst. apply IH1 in E1. destruct E1 as (j & c' & D & Hk).
      exists j, c'; auto.
    + exists i, c; auto.
  - apply first_some_sound in H. destruct H as (n & Hin & Hk).
    apply counts_spec in Hin. exists (i + n), c. split; [exists n|]; intuition.
  - apply IH1 in H. destruct H as (j & c1 & D & Hk).
    exists j, ((n, (i, j)) :: c1). split; [exists c1|]; auto.
  - destruct (mtch U icase t r1 i c (@accept)) eqn:E1; [discriminate|].
    exists i, c; auto.
  - destruct (at_boundary U t i) eqn:E; [|discriminate]. exists i, c; auto.
  - destruct (at_end t i) eqn:E; [|discriminate]. exists i, c; auto.
Qed.

Lemma mtch_complete (r : regex) :
  forall i c j c' (k : cont),
    derives U icase t r i c j c' -> k j c' <> None ->
    mtch U icase t r i c k <> None.
Proof.
  induction r as [|a|r1 IH1 r2 IH2|r1 IH1 r2 IH2|r1 IH1|a lo hi lazy|n r1 IH1|r1 IH1| |];
    intros i c j c' k D Hk; simpl in D |- *.
  - destruct D as [-> ->]. exact Hk.
  - destruct D as (ch & -> & -> & -> & ->). exact Hk.
  - destruct D as (m & cm & D1 & D2).
    apply (IH1 i c m cm); [exact D1|]. apply (IH2 m cm j c'); assumption.
  - destruct D as [D|D].
    + specialize (IH1 _ _ _ _ k D Hk). destruct (mtch U icase t r1 i c k); congruence.
    + specialize (IH2 _ _ _ _ k D Hk). destruct (mtch U icase t r1 i c k); congruence.
  - destruct D as [D|[-> ->]].
    + specialize (IH1 _ _ _ _ k D Hk). destruct (mtch U icase t r1 i c k); congruence.
    + destruct (mtch U icase t r1 i c k); congruence.
  - destruct D as (n & Hlo & Hhi & -> & ->).
    apply first_some_complete with (a := n); [|exact Hk].
    apply counts_spec; lia.
  - destruct D as (c1 & D & ->).
    apply (IH1 i c j c1); assumption.
  - destruct D as (E & -> & ->). rewrite E. exact Hk.
  - destruct D as (E & -> & ->). rewrite E. exact Hk.
  - destruct D as (E & -> & ->). rewrite E. exact Hk.
Qed.

End MatcherLaws.

(** ** Dictionaries *)

Lemma dict_set_in (k k' : string) (v v' : text) (d : dict) :
  In (k, v) (dict_set k' v' d) -> (k = k' /\ v = v') \/ In (k, v) d.
Proof.
  induction d as [|[k0 v0] d IH]; simpl.
  - intros [H|[]]. inversion H; auto.
  - destruct (String.eqb k0 k'); simpl.
    + intros [H|H]; [inversion H; auto|auto].
    + intros [H|H]; [auto|]. destruct (IH H); auto.
Qed.

Lemma dict_set_length (k : string) (v : text) (d : dict) :
  List.length d <= List.length (dict_set k v d) <= S (List.length d).
Proof.
  induction d as [|[k0 v0] d IH]; simpl; [lia|].
  destruct (String.eqb k0 k); simpl; lia.
Qed.

Lemma dict_get_set_same (k : string) (v : text) (d : dict) :
  dict_get k (dict_set k v d) = Some v.
Proof.
  induction d as [|[k0 v0] d IH]; simpl.
  - now rewrite String.eqb_refl.
  - destruct (String.eqb k0 k) eqn:E; simpl.
    + now rewrite String.eqb_refl.
    + now rewrite E.
Qed.

Lemma dict_get_set_other (k k' : string) (v : text) (d : dict) :
  k' <> k -> dict_get k (dict_set k' v d) = dict_get k d.
Proof.
  intros Hne. induction d as [|[k0 v0] d IH]; simpl.
  - destruct (String.eqb_spec k' k); congruence.
  - destruct (String.eqb_spec k0 k'); simpl.
    + subst. destruct (String.eqb_spec k' k); congruence.
    + now rewrite IH.
Qed.

Lemma dict_get_in (k : string) (v : text) (d : dict) :
  dict_get k d = Some v -> In (k, v) d.
Proof.
  induction d as [|[k0 v0] d IH]; simpl; [discriminate|].
  destruct (String.eqb_spec k0 k).
  - intros H; inversion H; subst; auto.
  - auto.
Qed.

Lemma dict_get_none_in (k : string) (v : text) (d : dict) :
  dict_get k d = None -> ~ In (k, v) d.
Proof.
  induction d as [|[k0 v0] d IH]; simpl; [tauto|].
  destruct (String.eqb_spec k0 k); [discriminate|].
  intros H [E|Hin]; [inversion E; congruence|]. now apply IH.
Qed.

Lemma dict_update_forall (P : string * text -> Prop) (e d : dict) :
  Forall P d -> Forall P e -> Forall P (dict_update d e).
Proof.
  unfold dict_update. revert d.
  induction e as [|[k v] e IH]; simpl; intros d Hd He; [exact Hd|].
  inversion He; subst. apply IH; [|assumption].
  apply Forall_forall. intros [k1 v1] Hin.
  apply dict_set_in in Hin. destruct Hin as [[-> ->]|Hin]; [assumption|].
  rewrite Forall_forall in Hd. now apply Hd.
Qed.

Lemma dict_update_length (e d : dict) :
  List.length d <= List.length (dict_update d e) <= List.length d + List.length e.
Proof.
  unfold dict_update. revert d.
  induction e as [|[k v] e IH]; simpl; intros d; [lia|].
  specialize (IH (dict_set k v d)). pose proof (dict_set_length k v d). lia.
Qed.

Lemma dict_update_get_other (k : string) (e d : dict) :
  ~ In k (map fst e) -> dict_get k (dict_update d e) = dict_get k d.
Proof.
  unfold dict_update. revert d.
  induction e as [|[k0 v0] e IH]; simpl; intros d Hn; [reflexivity|].
  rewrite IH by tauto. apply dict_get_set_other. tauto.
Qed.

Lemma dict_update_nil_get (k : string) (e : dict) :
  NoDup (map fst e) -> dict_get k (dict_update [] e) = dict_get k e.
Proof.
  assert (G : forall d, NoDup (map fst e) ->
              dict_get k (dict_update d e) =
              match dict_get k e with Some v => Some v | None => dict_get k d end).
  { unfold dict_update. induction e as [|[k0 v0] e IH]; simpl; intros d Hnd.
    - reflexivity.
    - inversion Hnd; subst. rewrite IH by assumption.
      destruct (String.eqb_spec k0 k).
      + subst. destruct (dict_get k e) eqn:E.
        * exfalso. apply H1. apply dict_get_in in E.
          change k with (fst (k, t)). now apply in_map.
        * apply dict_get_set_same.
      + destruct (dict_get k e); [reflexivity|].
        now apply dict_get_set_other. }
  intros Hnd. rewrite G by assumption. now destruct (dict_get k e).
Qed.

Lemma add_missing_forall (P : string * text -> Prop) (e d : dict) :
  Forall P d -> Forall P e -> Forall P (add_missing d e).
Proof.
  unfold add_missing. revert d.
  induction e as [|[k v] e IH]; simpl; intros d Hd He; [exact Hd|].
  inversion He; subst. apply IH; [|assumption].
  destruct (dict_mem k d); [assumption|].
  apply Forall_forall. intros [k1 v1] Hin.
  apply dict_set_in in Hin. destruct Hin as [[-> ->]|Hin]; [assumption|].
  rewrite Forall_forall in Hd. now apply Hd.
Qed.

Lemma add_missing_length (e d : dict) :
  List.length d <= List.length (add_missing d e) <= List.length d + List.length e.
Proof.
  unfold add_missing. revert d.
  induction e as [|[k v] e IH]; simpl; intros d; [lia|].
  destruct (dict_mem k d).
  - specialize (IH d). lia.
  - specialize (IH (dict_set k v d)). pose proof (dict_set_length k v d). lia.
Qed.

Lemma add_missing_keeps (k : string) (v : text) (e d : dict) :
  dict_get k d = Some v -> dict_get k (add_missing d e) = Some v.
Proof.
  unfold add_missing. revert d.
  induction e as [|[k0 v0] e IH]; simpl; intros d H; [exact H|].
  apply IH. destruct (dict_mem k0 d) eqn:E; [exact H|].
  rewrite dict_get_set_other; [exact H|].
  intros ->. unfold dict_mem in E. now rewrite H in E.
Qed.

(** ** The validator returns *)

Lemma valid_returns (U : Runtime) (v : text) (n : Z) :
  exists b, _is_valid_value U v n = Ok b.
Proof.
  unfold _is_valid_value.
  destruct (is_empty v); simpl; [eauto|].
  destruct (strip U v) as [|c s] eqn:Es; simpl; [eauto|].
  destruct (n <? len (c :: s))%Z; [eauto|].
  unfold ratio_exceeds, len. simpl List.length.
  destruct (Z.eqb_spec (Z.of_nat (S (List.length s))) 0); [lia|].
  simpl. destruct (_ <? _)%Z; [eauto|].
  destruct (_ || _); eauto.
Qed.

(** ** The engine *)

Lemma try_rules_valid (U : Runtime) (rules : list rule) (t : text) (v : text) :
  try_rules U rules t = Some v -> _is_valid_value U v 100 = Ok true.
Proof.
  induction rules as [|[pattern formatter] rest IH]; simpl; [discriminate|].
  destruct (search U true pattern t) as [m|]; [|exact IH].
  destruct (formatter m) as [value|e]; simpl; [|exact IH].
  destruct (is_empty value) eqn:Ee; simpl; [exact IH|].
  destruct (_is_valid_value U value 100) as [[|]|e] eqn:Ev; simpl; try exact IH.
  intros H; inversion H; subst. exact Ev.
Qed.

Lemma extract_loop_in (U : Runtime) (cat : catalog) (t : text) (n : Z) :
  forall specs k v,
    In (k, v) (extract_loop U cat t n specs) ->
    In (k, v) specs \/
    (exists rules, In (k, rules) cat /\ try_rules U rules t = Some v).
Proof.
  induction cat as [|[name rules] rest IH]; simpl; intros specs k v H; [auto|].
  destruct (n <=? dict_len specs)%Z; [auto|].
  apply IH in H. destruct H as [H|(rs & Hin & Ht)].
  - destruct (try_rules U rules t) as [value|] eqn:Et; [|auto].
    apply dict_set_in in H. destruct H as [[-> ->]|H]; [|auto].
    right. exists rules; auto.
  - right. exists rs; auto.
Qed.

Lemma extract_loop_length (U : Runtime) (cat : catalog) (t : text) (n : Z) :
  forall specs,
    (0 <= n)%Z -> (dict_len specs <= n)%Z ->
    (dict_len (extract_loop U cat t n specs) <= n)%Z.
Proof.
  induction cat as [|[name rules] rest IH]; simpl; intros specs Hn Hs; [exact Hs|].
  destruct (Z.leb_spec n (dict_len specs)); [exact Hs|].
  apply IH; [exact Hn|].
  destruct (try_rules U rules t); [|lia].
  pose proof (dict_set_length name t0 specs). unfold dict_len in *. lia.
Qed.

Lemma extract_loop_get (U : Runtime) (cat : catalog) (t : text) (n : Z) :
  forall specs k v,
    dict_get k (extract_loop U cat t n specs) = Some v ->
    dict_get k specs = Some v \/
    (exists rules, In (k, rules) cat /\ try_rules U rules t = Some v).
Proof.
  induction cat as [|[name rules] rest IH]; simpl; intros specs k v H; [auto|].
  destruct (n <=? dict_len specs)%Z; [auto|].
  apply IH in H. destruct H as [H|(rs & Hin & Ht)].
  - destruct (try_rules U rules t) as [value|] eqn:Et; [|auto].
    destruct (String.eqb_spec name k).
    + subst. rewrite dict_get_set_same in H. inversion H; subst.
      right. exists rules; auto.
    + rewrite dict_get_set_other in H by assumption. auto.
  - right. exists rs; auto.
Qed.

Lemma extract_loop_keys (U : Runtime) (cat : catalog) (t : text) (n : Z) :
  forall specs,
    NoDup (map fst specs ++ map fst cat) ->
    NoDup (map fst (extract_loop U cat t n specs)).
Proof.
  assert (K : forall k v d, ~ In k (map fst d) ->
              map fst (dict_set k v d) = map fst d ++ [k]).
  { intros k v d. induction d as [|[k0 v0] d IHd]; simpl; intros Hn; [reflexivity|].
    destruct (String.eqb_spec k0 k); [tauto|]. simpl. rewrite IHd; tauto. }
  induction cat as [|[name rules] rest IH]; simpl; intros specs H.
  - now rewrite app_nil_r in H.
  - destruct (n <=? dict_len specs)%Z.
    + now apply NoDup_app_remove_r in H.
    + apply IH. destruct (try_rules U rules t).
      * rewrite K.
        -- rewrite <- app_assoc. exact H.
        -- apply NoDup_remove_2 in H. intros Hin. apply H. apply in_or_app; auto.
      * apply NoDup_remove_1 in H. exact H.
Qed.

(** ** The feature phrase extractor returns *)

Lemma slice_to_length {A : Type} (l : list A) (n : Z) :
  (0 <= n)%Z -> (Z.of_nat (List.length (slice_to l n)) <= n)%Z.
Proof.
  intros Hn. unfold slice_to. destruct (Z.leb_spec 0 n); [|lia].
  pose proof (firstn_le_length (Z.to_nat n) l). lia.
Qed.

Lemma collect_spec (U : Runtime) (label : string) (lo : Z) (trail : text)
    (P : string * text -> Prop) :
  (forall f, _is_valid_value U f 100 = Ok true -> P (label, f)) ->
  forall cands features,
    Forall P features ->
    exists fs,
      collect U label lo trail cands features = Ok fs
      /\ Forall P fs
      /\ List.length features <= List.length fs
         <= List.length features + List.length cands.
Proof.
  intros HP. induction cands as [|cand rest IH]; simpl; intros features Hf.
  - exists features. repeat split; auto; lia.
  - set (feature := rstrip_chars trail (strip U cand)).
    destruct ((lo <? len feature) && (len feature <? 80))%Z.
    + destruct (valid_returns U feature 100) as (b & Hb). rewrite Hb. simpl.
      destruct b.
      * destruct (IH (features ++ [(label, feature)])) as (fs & E & F & L).
        { apply Forall_app; split; [assumption|]. constructor; auto. }
        exists fs. rewrite length_app in L. simpl in L.
        repeat split; auto; lia.
      * destruct (IH features Hf) as (fs & E & F & L).
        exists fs. repeat split; auto; lia.
    + simpl. destruct (IH features Hf) as (fs & E & F & L).
      exists fs. repeat split; auto; lia.
Qed.

Lemma keyword_features_spec (U : Runtime) (txt : text) (n : Z) :
  forall kws features,
    Forall (fun kw => snd kw = "Feature"%string \/ snd kw = "Included"%string) kws ->
    Forall (feature_ok U) features ->
    (Z.of_nat (List.length features) <= n)%Z ->
    exists fs,
      keyword_features U kws txt n features = Ok fs
      /\ Forall (feature_ok U) fs
      /\ (Z.of_nat (List.length fs) <= n)%Z.
Proof.
  induction kws as [|[pattern label] rest IH]; simpl; intros features Hk Hf Hn.
  - exists features; auto.
  - inversion Hk as [|? ? Hl Hk']; subst. simpl in Hl.
    pose proof (collect_spec U label 15 (str ",") (feature_ok U)
                  (fun f Hv => conj Hl Hv)
                  (slice_to (findall U true pattern txt)
                     (n - Z.of_nat (List.length features)))
                  features Hf) as (fs & E & F & L).
    rewrite E. simpl. apply IH; [assumption|assumption|].
    pose proof (slice_to_length (findall U true pattern txt)
                  (n - Z.of_nat (List.length features))).
    lia.
Qed.

Lemma keyword_features_returns (U : Runtime) (txt : text) (n : Z) :
  forall kws features,
    Forall (fun kw => snd kw = "Feature"%string \/ snd kw = "Included"%string) kws ->
    Forall (feature_ok U) features ->
    exists fs,
      keyword_features U kws txt n features = Ok fs
      /\ Forall (feature_ok U) fs.
Proof.
  induction kws as [|[pattern label] rest IH]; simpl; intros features Hk Hf.
  - exists features; auto.
  - inversion Hk as [|? ? Hl Hk']; subst. simpl in Hl.
    pose proof (collect_spec U label 15 (str ",") (feature_ok U)
                  (fun f Hv => conj Hl Hv)
                  (slice_to (findall U true pattern txt)
                     (n - Z.of_nat (List.length features)))
                  features Hf) as (fs & E & F & L).
    rewrite E. simpl. apply IH; assumption.
Qed.

Lemma bullet_features_spec (U : Runtime) (txt : text) (n : Z) :
  exists fs,
    bullet_features U txt n = Ok fs
    /\ Forall (feature_ok U) fs
    /\ List.length fs
       <= List.length (slice_to (findall U false bullet_pattern txt) n).
Proof.
  unfold bullet_features.
  pose proof (collect_spec U "Feature" 10 (str ".,") (feature_ok U)
                (fun f Hv => conj (or_introl eq_refl) Hv)
                (slice_to (findall U false bullet_pattern txt) n)
                [] (Forall_nil _)) as (fs & E & F & L).
  exists fs. simpl in L. repeat split; auto; lia.
Qed.

Lemma feature_keywords_labels :
  Forall (fun kw : regex * string =>
            snd kw = "Feature"%string \/ snd kw = "Included"%string)
         feature_keywords.
Proof.
  unfold feature_keywords.
  repeat (apply Forall_cons; [simpl; auto|]). apply Forall_nil.
Qed.

Lemma extract_key_features_spec (U : Runtime) (txt : text) (n : Z) :
  exists fs,
    extract_key_features U txt n = Ok fs
    /\ Forall (feature_ok U) fs
    /\ ((0 <= n)%Z -> (Z.of_nat (List.length fs) <= n)%Z).
Proof.
  unfold extract_key_features.
  destruct (bullet_features_spec U txt n) as (bs & E & F & L). rewrite E. simpl.
  destruct bs as [|b bs]; simpl.
  - destruct (Z.leb_spec 0 n).
    + destruct (keyword_features_spec U txt n feature_keywords []
                  feature_keywords_labels (Forall_nil _))
        as (fs & E' & F' & L'); [simpl; lia|].
      exists fs; auto.
    + destruct (keyword_features_returns U txt n feature_keywords []
                  feature_keywords_labels (Forall_nil _)) as (fs & E' & F').
      exists fs. repeat split; auto. lia.
  - exists (b :: bs). repeat split; auto. intros Hn.
    pose proof (slice_to_length (findall U false bullet_pattern txt) n Hn).
    lia.
Qed.

(** ** The brand resolver returns *)

Lemma split_aux_nonempty (U : Runtime) (s : text) :
  forall cur, Forall (fun w : text => w <> []) (split_aux U s cur).
Proof.
  assert (R : forall (c : chr) cur, rev (c :: cur) <> []).
  { intros c cur H. apply (f_equal (@List.length chr)) in H.
    rewrite length_rev in H. discriminate. }
  induction s as [|c s IH]; simpl; intros cur.
  - destruct cur; constructor; auto.
  - destruct (isspace U c).
    + destruct cur; [apply IH|]. constructor; auto.
    + apply IH.
Qed.

Lemma extract_brand_spec (U : Runtime) (ttl vendor : value) :
  exists b,
    extract_brand U ttl vendor = Ok b
    /\ match b with
       | Some brand => (2 < len brand < 30)%Z
       | None => True
       end.
Proof.
  unfold extract_brand.
  destruct (notna vendor).
  - destruct (Z.ltb_spec 2 (len (strip U (py_str vendor))));
      destruct (Z.ltb_spec (len (strip U (py_str vendor))) 30); simpl;
        try (exists (Some (strip U (py_str vendor))); split; [reflexivity|lia]).
    all: destruct (notna ttl); [|exists None; auto].
    all: pose proof (split_aux_nonempty U (py_str ttl) []) as W; fold (split U (py_str ttl)) in W.
    all: destruct (split U (py_str ttl)) as [|w ws]; [exists None; auto|].
    all: inversion W as [|? ? Hw _]; subst; destruct w as [|c w]; [congruence|].
    all: simpl; destruct (isupper U c); simpl; [|exists None; auto].
    all: destruct (Z.ltb_spec 2 (len (c :: w)));
           destruct (Z.ltb_spec (len (c :: w)) 30); simpl;
           try (exists None; split; [reflexivity|exact I]).
    all: exists (Some (c :: w)); split; [reflexivity|lia].
  - destruct (notna ttl); [|exists None; auto].
    pose proof (split_aux_nonempty U (py_str ttl) []) as W; fold (split U (py_str ttl)) in W.
    destruct (split U (py_str ttl)) as [|w ws]; [exists None; auto|].
    inversion W as [|? ? Hw _]; subst; destruct w as [|c w]; [congruence|].
    simpl; destruct (isupper U c); simpl; [|exists None; auto].
    destruct (Z.ltb_spec 2 (len (c :: w)));
      destruct (Z.ltb_spec (len (c :: w)) 30); simpl;
      try (exists None; split; [reflexivity|exact I]).
    exists (Some (c :: w)); split; [reflexivity|lia].
Qed.

(** ** The steps of the merge *)

Lemma notna_cell (cell : option value) :
  notna (row_get cell) = true -> exists s, cell = Some (Str s).
Proof.
  destruct cell as [[| |s]|]; simpl; try discriminate. eauto.
Qed.

Lemma valid_entry_ok (U : Runtime) (row : Row) (kv : string * text) :
  _is_valid_value U (snd kv) 100 = Ok true -> entry_ok U row kv.
Proof. intros H. left. exact H. Qed.

Lemma extract_with_valid (U : Runtime) (cat : catalog) (txt : text) (n : Z) :
  Forall (fun kv => _is_valid_value U (snd kv) 100 = Ok true)
         (extract_with U cat txt n).
Proof.
  apply Forall_forall. intros [k v] Hin. unfold extract_with in Hin.
  apply extract_loop_in in Hin. destruct Hin as [[]|(rules & _ & Ht)].
  simpl. eapply try_rules_valid; eassumption.
Qed.

Lemma extract_with_length (U : Runtime) (cat : catalog) (txt : text) (n : Z) :
  (0 <= n)%Z -> (dict_len (extract_with U cat txt n) <= n)%Z.
Proof.
  intros Hn. apply extract_loop_length; [exact Hn|]. unfold dict_len; simpl; lia.
Qed.

Lemma patterns_labels (U : Runtime) :
  map fst (patterns U) =
  ["Dimensions"; "Weight"; "Capacity"; "Power"; "Voltage"; "Material";
   "Color"; "Temperature Range"; "Settings"; "Pieces"]%string.
Proof. reflexivity. Qed.

Lemma patterns_nodup (U : Runtime) : NoDup (map fst (patterns U)).
Proof.
  rewrite patterns_labels.
  repeat (apply NoDup_cons; [simpl; intuition discriminate|]). apply NoDup_nil.
Qed.

Lemma extract_specs_length (U : Runtime) (txt : text) (n : Z) :
  (0 <= n)%Z -> (dict_len (extract_specs_from_text U txt n) <= n)%Z.
Proof. apply extract_with_length. Qed.

Lemma extract_specs_valid (U : Runtime) (txt : text) (n : Z) :
  Forall (fun kv => _is_valid_value U (snd kv) 100 = Ok true)
         (extract_specs_from_text U txt n).
Proof. apply extract_with_valid. Qed.

Lemma extract_specs_nodup (U : Runtime) (txt : text) (n : Z) :
  NoDup (map fst (extract_specs_from_text U txt n)).
Proof. apply extract_loop_keys. exact (patterns_nodup U). Qed.

Lemma extract_specs_label (U : Runtime) (txt : text) (n : Z) (k : string) (v : text) :
  dict_get k (extract_specs_from_text U txt n) = Some v ->
  In k (map fst (patterns U)).
Proof.
  intros H. unfold extract_specs_from_text, extract_with in H.
  apply extract_loop_get in H. destruct H as [H|(rules & Hin & _)].
  - discriminate.
  - change k with (fst (k, rules)). now apply in_map.
Qed.

Lemma pattern_label_kept (U : Runtime) (k : string) :
  In k (map fst (patterns U)) -> ~ overwritten k /\ k <> "Brand"%string.
Proof.
  rewrite patterns_labels. unfold overwritten. simpl.
  intros H. split; [intros Ho|intros Ho];
    repeat (destruct H as [<-|H]; [intuition discriminate|]); exact H.
Qed.

Section Steps.

Variable U : Runtime.
Variable row : Row.

Lemma add_description_present (body : text) :
  col_body_html row = Some (Str body) ->
  add_description U row [] =
  Ok (dict_update [] (extract_specs_from_text U (clean_html U (Str body)) 5)).
Proof. intros Hb. unfold add_description. rewrite Hb. reflexivity. Qed.

Lemma add_title_present (ttl : text) (s : dict) :
  col_title row = Some (Str ttl) ->
  add_title U row s =
  Ok (add_missing s (extract_specs_from_text U (clean_html U (Str ttl)) 2)).
Proof. intros Hb. unfold add_title. rewrite Hb. reflexivity. Qed.

Lemma add_description_spec :
  exists s1,
    add_description U row [] = Ok s1
    /\ Forall (entry_ok U row) s1
    /\ (dict_len s1 <= 5)%Z
    /\ (forall body, col_body_html row = Some (Str body) ->
        forall k, dict_get k s1 =
                  dict_get k (extract_specs_from_text U (clean_html U (Str body)) 5)).
Proof.
  destruct (notna (row_get (col_body_html row))) eqn:E.
  - destruct (notna_cell _ E) as (body & Hb).
    pose proof (extract_specs_nodup U (clean_html U (Str body)) 5) as Hnd.
    pose proof (extract_specs_valid U (clean_html U (Str body)) 5) as Hv.
    pose proof (extract_specs_length U (clean_html U (Str body)) 5) as L'.
    pose proof (add_description_present body Hb) as Ed.
    assert (Hg : forall body', col_body_html row = Some (Str body') ->
                 extract_specs_from_text U (clean_html U (Str body')) 5
                 = extract_specs_from_text U (clean_html U (Str body)) 5).
    { intros body' Hb'. assert (body' = body) by congruence. now subst. }
    generalize dependent (extract_specs_from_text U (clean_html U (Str body)) 5).
    intros e Hnd Hv L' Ed Hg.
    exists (dict_update [] e). split; [exact Ed|]. split; [|split].
    + apply dict_update_forall; [constructor|].
      eapply Forall_impl; [|exact Hv].
      intros kv. apply valid_entry_ok.
    + pose proof (dict_update_length e []) as L.
      unfold dict_len in *. simpl in L. lia.
    + intros body' Hb' k. rewrite (Hg body' Hb').
      now apply dict_update_nil_get.
  - exists []. split; [|split; [constructor|split]].
    + unfold add_description. rewrite E. reflexivity.
    + unfold dict_len; simpl; lia.
    + intros body Hb. rewrite Hb in E. discriminate.
Qed.

Lemma add_title_spec (s : dict) :
  exists s2,
    add_title U row s = Ok s2
    /\ (Forall (entry_ok U row) s -> Forall (entry_ok U row) s2)
    /\ (dict_len s <= dict_len s2 <= dict_len s + 2)%Z
    /\ (forall k v, dict_get k s = Some v -> dict_get k s2 = Some v).
Proof.
  destruct (notna (row_get (col_title row))) eqn:E.
  - destruct (notna_cell _ E) as (ttl & Hb).
    pose proof (extract_specs_valid U (clean_html U (Str ttl)) 2) as Hv.
    pose proof (extract_specs_length U (clean_html U (Str ttl)) 2) as L'.
    pose proof (add_title_present ttl s Hb) as Ed.
    generalize dependent (extract_specs_from_text U (clean_html U (Str ttl)) 2).
    intros e Hv L' Ed.
    exists (add_missing s e). split; [exact Ed|]. split; [|split].
    + intros Hs. apply add_missing_forall; [assumption|].
      eapply Forall_impl; [|exact Hv].
      intros kv. apply valid_entry_ok.
    + pose proof (add_missing_length e s) as L.
      unfold dict_len in *. lia.
    + intros k v. apply add_missing_keeps.
  - exists s. split; [|split; [auto|split; [lia|auto]]].
    unfold add_title. rewrite E. reflexivity.
Qed.

Lemma add_brand_spec (s : dict) :
  exists s3,
    add_brand U row s = Ok s3
    /\ (Forall (entry_ok U row) s -> Forall (entry_ok U row) s3)
    /\ (dict_len s <= dict_len s3 <= dict_len s + 1)%Z
    /\ (forall k v, dict_get k s = Some v -> dict_get k s3 = Some v).
Proof.
  unfold add_brand.
  destruct (extract_brand_spec U (row_get (col_title row)) (row_get (col_vendor row)))
    as (b & Eb & Hb).
  rewrite Eb. simpl.
  destruct (truthy b && negb (dict_mem "Brand" s)) eqn:E.
  - apply andb_prop in E. destruct E as [Et Em].
    destruct b as [brand|]; [|discriminate]. simpl.
    exists (dict_set "Brand" brand s). split; [reflexivity|]. split; [|split].
    + intros Hs. apply Forall_forall. intros [k v] Hin.
      apply dict_set_in in Hin. destruct Hin as [[-> ->]|Hin].
      * right; left. simpl. auto.
      * rewrite Forall_forall in Hs. now apply Hs.
    + pose proof (dict_set_length "Brand" brand s). unfold dict_len. lia.
    + intros k v Hk. rewrite dict_get_set_other; [exact Hk|].
      intros <-. unfold dict_mem in Em. rewrite Hk in Em. discriminate.
  - exists s. split; [reflexivity|]. split; [auto|]. split; [lia|auto].
Qed.

Lemma add_category_spec (s : dict) :
  exists s4,
    add_category U row s = Ok s4
    /\ (Forall (entry_ok U row) s -> Forall (entry_ok U row) s4)
    /\ (dict_len s <= dict_len s4 <= dict_len s + 1)%Z
    /\ (forall k v, k <> "Category"%string ->
                    dict_get k s = Some v -> dict_get k s4 = Some v).
Proof.
  unfold add_category.
  destruct (notna (row_get (col_type row))) eqn:E.
  - destruct (notna_cell _ E) as (ty & Hb). rewrite Hb. simpl.
    destruct (negb (is_empty (strip U ty))); simpl;
      [|exists s; split; [reflexivity|]; split; [auto|]; split; [lia|auto]].
    destruct (Z.ltb_spec 3 (len (strip U ty)));
      destruct (Z.ltb_spec (len (strip U ty)) 50); simpl;
        try (exists s; split; [reflexivity|]; split; [auto|]; split; [lia|auto]).
    exists (dict_set "Category" (strip U ty) s).
    split; [reflexivity|]. split; [|split].
    + intros Hs. apply Forall_forall. intros [k v] Hin.
      apply dict_set_in in Hin. destruct Hin as [[-> ->]|Hin].
      * right; right; left. simpl. rewrite Hb. simpl. auto.
      * rewrite Forall_forall in Hs. now apply Hs.
    + pose proof (dict_set_length "Category" (strip U ty) s). unfold dict_len. lia.
    + intros k v Hne Hk. rewrite dict_get_set_other; auto.
  - exists s. split; [reflexivity|]. split; [auto|]. split; [lia|auto].
Qed.

Lemma add_material_spec (s : dict) :
  exists s5,
    add_material U row s = Ok s5
    /\ (Forall (entry_ok U row) s -> Forall (entry_ok U row) s5)
    /\ (dict_len s <= dict_len s5 <= dict_len s + 1)%Z
    /\ (forall k v, dict_get k s = Some v -> dict_get k s5 = Some v).
Proof.
  unfold add_material.
  destruct (notna (row_get (col_material row))) eqn:E.
  - destruct (notna_cell _ E) as (mat & Hb). rewrite Hb. simpl.
    destruct (dict_mem "Material" s) eqn:Em; simpl;
      [exists s; split; [reflexivity|]; split; [auto|]; split; [lia|auto]|].
    destruct (Z.ltb_spec 3 (len (strip U mat)));
      destruct (Z.ltb_spec (len (strip U mat)) 30); simpl;
        try (exists s; split; [reflexivity|]; split; [auto|]; split; [lia|auto]).
    exists (dict_set "Material" (strip U mat) s).
    split; [reflexivity|]. split; [|split].
    + intros Hs. apply Forall_forall. intros [k v] Hin.
      apply dict_set_in in Hin. destruct Hin as [[-> ->]|Hin].
      * right; right; right. simpl. rewrite Hb. simpl. auto.
      * rewrite Forall_forall in Hs. now apply Hs.
    + pose proof (dict_set_length "Material" (strip U mat) s). unfold dict_len. lia.
    + intros k v Hk. rewrite dict_get_set_other; [exact Hk|].
      intros <-. unfold dict_mem in Em. rewrite Hk in Em. discriminate.
  - exists s. split; [reflexivity|]. split; [auto|]. split; [lia|auto].
Qed.

Lemma add_features_spec (s : dict) :
  exists s6,
    add_features U row s = Ok s6
    /\ (Forall (entry_ok U row) s -> Forall (entry_ok U row) s6)
    /\ ((4 <= dict_len s)%Z -> s6 = s)
    /\ (dict_len s <= dict_len s6
        <= dict_len s + Z.max 0 (Z.min 2 (5 - dict_len s)))%Z
    /\ (forall k v, k <> "Feature"%string -> k <> "Included"%string ->
                    dict_get k s = Some v -> dict_get k s6 = Some v).
Proof.
  unfold add_features.
  destruct (Z.ltb_spec (dict_len s) 4); cbn [andb];
    [|exists s; split; [reflexivity|]; split; [auto|]; split; [auto|];
      split; [lia|auto]].
  destruct (notna (row_get (col_body_html row))) eqn:E;
    [|exists s; split; [reflexivity|]; split; [auto|]; split; [auto|];
      split; [lia|auto]].
  destruct (notna_cell _ E) as (body & Hb). rewrite Hb. cbn [row_index bind].
  destruct (extract_key_features_spec U (clean_html U (Str body))
              (Z.min 2 (5 - dict_len s))) as (fs & Ef & Ff & Lf).
  rewrite Ef. cbn [bind].
  exists (dict_update s fs). split; [reflexivity|]. split; [|split; [|split]].
  - intros Hs. apply dict_update_forall; [assumption|].
    eapply Forall_impl; [|exact Ff]. intros kv [_ Hv]. now left.
  - lia.
  - pose proof (dict_update_length fs s). unfold dict_len in *. lia.
  - intros k v Hf Hi Hk. rewrite dict_update_get_other; [exact Hk|].
    intros Hin. apply in_map_iff in Hin. destruct Hin as (kv & <- & Hin).
    rewrite Forall_forall in Ff. destruct (Ff kv Hin) as [[H1|H1] _]; congruence.
Qed.

(** The run of [all_specs], step by step. *)
Lemma all_specs_run :
  exists s1 s2 s3 s4 s5 s6,
    add_description U row [] = Ok s1
    /\ add_title U row s1 = Ok s2
    /\ add_brand U row s2 = Ok s3
    /\ add_category U row s3 = Ok s4
    /\ add_material U row s4 = Ok s5
    /\ add_features U row s5 = Ok s6
    /\ all_specs U row = Ok s6.
Proof.
  destruct add_description_spec as (s1 & E1 & _).
  destruct (add_title_spec s1) as (s2 & E2 & _).
  destruct (add_brand_spec s2) as (s3 & E3 & _).
  destruct (add_category_spec s3) as (s4 & E4 & _).
  destruct (add_material_spec s4) as (s5 & E5 & _).
  destruct (add_features_spec s5) as (s6 & E6 & _).
  exists s1, s2, s3, s4, s5, s6. repeat (split; [assumption|]).
  unfold all_specs. rewrite E1; simpl. rewrite E2; simpl. rewrite E3; simpl.
  rewrite E4; simpl. rewrite E5; simpl. exact E6.
Qed.

End Steps.

(** ** Positions and substrings *)

Lemma char_at_skipn (t : text) (i : nat) (ch : chr) :
  char_at t i = Some ch <-> exists s, skipn i t = ch :: s /\ s = skipn (S i) t.
Proof.
  unfold char_at. revert t. induction i as [|i IH]; intros [|x t]; simpl.
  - split; [discriminate|intros (s & H & _); discriminate].
  - split.
    + intros H; inversion H; subst. eauto.
    + intros (s & H & _). inversion H; subst. reflexivity.
  - split; [discriminate|intros (s & H & _); discriminate].
  - apply IH.
Qed.

Lemma char_at_length (t : text) (i : nat) (ch : chr) :
  char_at t i = Some ch -> i < List.length t.
Proof. intros H. apply nth_error_Some. unfold char_at in H. congruence. Qed.

Lemma firstn_skipn_add {A : Type} (s : list A) (a b : nat) :
  firstn a s ++ firstn b (skipn a s) = firstn (a + b) s.
Proof.
  revert s. induction a as [|a IH]; intros [|x s]; simpl; auto.
  - now rewrite firstn_nil.
  - now rewrite IH.
Qed.

Lemma substr_app (t : text) (i j k : nat) :
  i <= j -> j <= k -> substr t i j ++ substr t j k = substr t i k.
Proof.
  intros H1 H2. unfold substr.
  replace (skipn j t) with (skipn (j - i) (skipn i t))
    by (rewrite skipn_skipn; f_equal; lia).
  rewrite firstn_skipn_add. f_equal. lia.
Qed.

Lemma substr_split (t : text) (i j : nat) :
  i <= j -> t = firstn i t ++ substr t i j ++ skipn j t.
Proof.
  intros H. unfold substr.
  replace (skipn j t) with (skipn (j - i) (skipn i t))
    by (rewrite skipn_skipn; f_equal; lia).
  now rewrite firstn_skipn, firstn_skipn.
Qed.

Lemma substr_length (t : text) (i j : nat) :
  i <= j -> j <= List.length t -> List.length (substr t i j) = j - i.
Proof.
  intros H1 H2. unfold substr. rewrite length_firstn, length_skipn. lia.
Qed.

Lemma starts_with_length (U : Runtime) (p s : text) :
  starts_with U p s = true -> List.length p <= List.length s.
Proof.
  revert s. induction p as [|pc p IH]; intros [|c s]; simpl; try lia; try discriminate.
  intros H. apply andb_prop in H. destruct H as [_ H]. apply IH in H. lia.
Qed.

Lemma starts_with_firstn (U : Runtime) (p s : text) (n : nat) :
  starts_with U p s = true -> List.length p <= n ->
  starts_with U p (firstn n s) = true.
Proof.
  revert s n. induction p as [|pc p IH]; intros [|c s] [|n]; simpl; auto; try lia.
  intros H Hn. apply andb_prop in H. destruct H as [H1 H2].
  rewrite H1. simpl. apply IH; [assumption|lia].
Qed.

Lemma starts_with_snoc (U : Runtime) (p s : text) (x c : chr) :
  starts_with U p s = true ->
  nth_error s (List.length p) = Some c ->
  lit_match U true x c = true ->
  starts_with U (p ++ [x]) s = true.
Proof.
  revert s. induction p as [|pc p IH]; intros [|d s]; simpl; try discriminate.
  - intros _ H E. inversion H; subst. now rewrite E.
  - intros H Hn E. apply andb_prop in H. destruct H as [H1 H2].
    rewrite H1. simpl. now apply IH.
Qed.

(** ** Quantifiers, literals and the shape of a match *)

Section Shapes.

Variable U : Runtime.
Variable icase : bool.
Variable t : text.

Lemma run_spec (a : atom) (s : text) (limit n : nat) :
  n <= run U icase a s limit ->
  n <= List.length s /\ n <= limit
  /\ forallb (atom_match U icase a) (firstn n s) = true.
Proof.
  revert s n. induction limit as [|l IH]; intros s n H.
  - simpl in H. assert (n = 0) by (destruct s; simpl in H; lia). subst.
    simpl. repeat split; lia.
  - destruct s as [|c s]; simpl in H.
    + assert (n = 0) by lia. subst. simpl. repeat split; lia.
    + destruct (atom_match U icase a c) eqn:E.
      * destruct n as [|n]; [simpl; repeat split; lia|].
        destruct (IH s n) as (H1 & H2 & H3); [lia|].
        simpl. rewrite E, H3. repeat split; lia.
      * assert (n = 0) by lia. subst. simpl. repeat split; lia.
Qed.

Lemma run_reach (a : atom) (s : text) (limit n : nat) :
  n <= List.length s -> n <= limit ->
  forallb (atom_match U icase a) (firstn n s) = true ->
  n <= run U icase a s limit.
Proof.
  revert s n. induction limit as [|l IH]; intros s n H1 H2 H3; [lia|].
  destruct n as [|n]; [lia|].
  destruct s as [|c s]; simpl in H1; [lia|].
  simpl in H3. apply andb_prop in H3. destruct H3 as [E H3].
  simpl. rewrite E. apply le_n_S. apply IH; [lia|lia|assumption].
Qed.

Lemma derives_rep (a : atom) (lo : nat) (hi : option nat) (lazy : bool)
    (i : nat) (c : caps) (j : nat) (c' : caps) :
  derives U icase t (Rep a lo hi lazy) i c j c' ->
  c' = c /\ i + lo <= j /\ (i <= List.length t -> j <= List.length t)
  /\ forallb (atom_match U icase a) (substr t i j) = true
  /\ match hi with Some h => j <= i + h | None => True end.
Proof.
  simpl. intros (n & Hlo & Hn & -> & ->).
  apply run_spec in Hn. destruct Hn as (H1 & H2 & H3).
  rewrite length_skipn in H1.
  split; [reflexivity|]. split; [lia|]. split; [lia|]. split.
  - unfold substr. replace (i + n - i) with n by lia. exact H3.
  - destruct hi; [lia|exact I].
Qed.

Lemma rep_derives (a : atom) (lo : nat) (hi : option nat) (lazy : bool)
    (i j : nat) (c : caps) :
  i + lo <= j -> j <= List.length t ->
  forallb (atom_match U icase a) (substr t i j) = true ->
  match hi with Some h => j <= i + h | None => True end ->
  derives U icase t (Rep a lo hi lazy) i c j c.
Proof.
  intros H1 H2 H3 H4. simpl. exists (j - i).
  split; [lia|]. split; [|split; [lia|reflexivity]].
  apply run_reach.
  - rewrite length_skipn. lia.
  - destruct hi; lia.
  - exact H3.
Qed.

Lemma derives_cats_cons (r : regex) (rs : list regex) (i : nat) (c : caps)
    (j : nat) (c' : caps) :
  derives U icase t (Cats (r :: rs)) i c j c' <->
  exists m cm, derives U icase t r i c m cm /\ derives U icase t (Cats rs) m cm j c'.
Proof.
  destruct rs as [|r' rs]; [|reflexivity].
  simpl. split.
  - intros D. exists j, c'. auto.
  - intros (m & cm & D & -> & ->). exact D.
Qed.

End Shapes.

Lemma derives_lits (U : Runtime) (t : text) (p : text) :
  forall i c j c',
    derives U true t (Cats (map (fun x => Chr (ALit x)) p)) i c j c' <->
    (j = i + List.length p /\ c' = c /\ starts_with U p (skipn i t) = true).
Proof.
  induction p as [|x p IH]; intros i c j c'.
  - simpl. split.
    + intros [-> ->]. repeat split; auto.
    + intros (-> & -> & _). split; [lia|reflexivity].
  - cbn [map]. rewrite derives_cats_cons. split.
    + intros (m & cm & (ch & Hch & Hm & -> & ->) & D).
      apply IH in D. destruct D as (-> & -> & Hs).
      apply char_at_skipn in Hch. destruct Hch as (s & E & Es).
      rewrite E. rewrite <- Es in Hs. cbn [starts_with atom_match] in Hm |- *.
      rewrite Hm, Hs. cbn [List.length]. repeat split; lia.
    + intros (-> & -> & Hs).
      destruct (skipn i t) as [|ch s] eqn:E; [discriminate|].
      simpl in Hs. apply andb_prop in Hs. destruct Hs as [Hm Hs].
      assert (Hch : char_at t i = Some ch /\ s = skipn (S i) t).
      { assert (char_at t i = Some ch) as Hc
          by (unfold char_at; rewrite <- (Nat.add_0_r i), <- nth_error_skipn, E;
              reflexivity).
        split; [exact Hc|].
        apply char_at_skipn in Hc. destruct Hc as (s' & E' & ->). congruence. }
      destruct Hch as [Hch ->].
      exists (S i), c. split.
      * exists ch. simpl. auto.
      * apply IH. repeat split; [simpl; lia|assumption].
Qed.

(** ** From an entry of the result back to a match *)

Lemma search_from_sound (U : Runtime) (icase : bool) (r : regex) (t : text)
    (pos : nat) (m : pymatch) :
  search_from U icase r t pos = Some m ->
  exists i j c,
    i <= List.length t
    /\ derives U icase t r i [] j c
    /\ m = {| m_string := t; m_start := i; m_end := j; m_caps := c;
              m_ngroups := ngroups r |}.
Proof.
  unfold search_from. intros H.
  apply first_some_sound in H. destruct H as (i & Hin & Hm).
  apply in_seq in Hin. unfold match_at in Hm.
  destruct (mtch U icase t r i [] (accept)) as [[j c]|] eqn:E; [|discriminate].
  apply mtch_sound in E. destruct E as (j' & c' & D & Ha).
  unfold accept in Ha. inversion Ha; subst j' c'.
  exists i, j, c. split; [lia|]. split; [exact D|]. now inversion Hm.
Qed.

Lemma try_rules_single (U : Runtime) (pattern : regex)
    (formatter : pymatch -> res text) (t v : text) :
  try_rules U [(pattern, formatter)] t = Some v ->
  exists m, search U true pattern t = Some m /\ formatter m = Ok v.
Proof.
  cbn [try_rules].
  destruct (search U true pattern t) as [m|]; [|discriminate].
  destruct (formatter m) as [value|e] eqn:Ef; cbn [bind]; [|discriminate].
  destruct (is_empty value); cbn [bind]; [discriminate|].
  destruct (_is_valid_value U value 100) as [[|]|e]; cbn [bind];
    intros H; try discriminate H.
  inversion H; subst. exists m. auto.
Qed.

Lemma rules_of_weight (U : Runtime) (rules : list rule) :
  In ("Weight"%string, rules) (patterns U) ->
  rules = [(pat_weight, fmt_number_unit)].
Proof.
  unfold patterns. cbn [In]. intros H.
  repeat (destruct H as [H|H]; [inversion H; reflexivity|]).
  destruct H.
Qed.

Lemma rules_of_power (U : Runtime) (rules : list rule) :
  In ("Power"%string, rules) (patterns U) ->
  rules = [(pat_power, fmt_number_unit)].
Proof.
  unfold patterns. cbn [In]. intros H.
  repeat (destruct H as [H|H]; [inversion H; reflexivity|]).
  destruct H.
Qed.

(** An entry of the pattern pass under a label that has a single rule comes
    from the leftmost match of that rule on the lower-cased text. *)
Lemma extract_specs_single_rule (U : Runtime) (txt : text) (n : Z) (label : string)
    (pattern : regex) (formatter : pymatch -> res text) (v : text) :
  (forall rules, In (label, rules) (patterns U) -> rules = [(pattern, formatter)]) ->
  dict_get label (extract_specs_from_text U txt n) = Some v ->
  exists i j c,
    i <= List.length (lower U txt)
    /\ derives U true (lower U txt) pattern i [] j c
    /\ formatter {| m_string := lower U txt; m_start := i; m_end := j;
                    m_caps := c; m_ngroups := ngroups pattern |} = Ok v.
Proof.
  intros Hr H. unfold extract_specs_from_text, extract_with in H.
  apply extract_loop_get in H. destruct H as [H|(rules & Hin & Ht)]; [discriminate|].
  rewrite (Hr rules Hin) in Ht.
  apply try_rules_single in Ht. destruct Ht as (m & Hs & Hf).
  apply search_from_sound in Hs. destruct Hs as (i & j & c & Hi & D & ->).
  exists i, j, c. auto.
Qed.

(** ** The shapes of numbers and white space *)

Section PatternShapes.

Variable U : Runtime.
Variable t : text.

Lemma derives_digits (i : nat) (c : caps) (j : nat) (c' : caps) :
  derives U true t (Plus ADigit) i c j c' ->
  c' = c /\ i < j /\ (i <= List.length t -> j <= List.length t)
  /\ forallb (isdecimal U) (substr t i j) = true.
Proof.
  intros D. apply derives_rep in D. destruct D as (-> & H1 & H2 & H3 & _).
  repeat split; auto; lia.
Qed.

Lemma derives_ws (i : nat) (c : caps) (j : nat) (c' : caps) :
  derives U true t ws i c j c' ->
  c' = c /\ i <= j /\ (i <= List.length t -> j <= List.length t)
  /\ forallb (isspace U) (substr t i j) = true.
Proof.
  intros D. apply derives_rep in D. destruct D as (-> & H1 & H2 & H3 & _).
  repeat split; auto; lia.
Qed.

Lemma derives_number (i : nat) (c : caps) (j : nat) (c' : caps) :
  i <= List.length t ->
  derives U true t number i c j c' ->
  c' = c /\ i < j /\ j <= List.length t /\ number_shape U (substr t i j).
Proof.
  intros Hi D. unfold number in D. cbn [Cats derives] in D.
  destruct D as (a & ca & D1 & b & cb & D2 & D3).
  apply derives_digits in D1. destruct D1 as (-> & Ha & Hal & Hd1).
  apply derives_rep in D2. destruct D2 as (-> & Hb & Hbl & Hdot & Hb1).
  apply derives_rep in D3. destruct D3 as (-> & Hj & Hjl & Hd2 & _).
  specialize (Hal Hi). specialize (Hbl Hal). specialize (Hjl Hbl).
  split; [reflexivity|]. split; [lia|]. split; [lia|].
  exists (substr t i a), (substr t a b), (substr t b j).
  split; [|split; [|split; [exact Hd1|split; [|exact Hd2]]]].
  - rewrite substr_app by lia. rewrite substr_app by lia. reflexivity.
  - intros E. apply (f_equal (@List.length chr)) in E.
    rewrite substr_length in E by lia. simpl in E. lia.
  - pose proof (substr_length t a b ltac:(lia) Hbl) as L.
    destruct (substr t a b) as [|d [|d' s]]; simpl in L.
    + now left.
    + right. simpl in Hdot. rewrite andb_true_r in Hdot.
      unfold lit_match in Hdot. simpl in Hdot.
      apply N.eqb_eq in Hdot. subst. reflexivity.
    + simpl in Hb1. lia.
Qed.

Lemma derives_word (w : string) (i : nat) (c : caps) (j : nat) (c' : caps) :
  derives U true t (Lits w) i c j c' ->
  c' = c /\ j = i + List.length (str w)
  /\ starts_with U (str w) (skipn i t) = true.
Proof.
  unfold Lits. intros D. apply derives_lits in D. tauto.
Qed.

Lemma word_derives (w : string) (i : nat) (c : caps) :
  starts_with U (str w) (skipn i t) = true ->
  derives U true t (Lits w) i c (i + List.length (str w)) c.
Proof.
  intros H. unfold Lits. apply derives_lits. auto.
Qed.

(** A word with an optional final [s]. *)
Lemma derives_word_s (w : string) (i : nat) (c : caps) (j : nat) (c' : caps) :
  derives U true t (Cat (Lits w) (Maybe (lit "s"))) i c j c' ->
  c' = c
  /\ ((j = i + List.length (str w)
       /\ starts_with U (str w) (skipn i t) = true)
      \/ (j = i + List.length (str w ++ str "s")
          /\ starts_with U (str w ++ str "s") (skipn i t) = true)).
Proof.
  cbn [derives]. intros (m & cm & D1 & D2).
  apply derives_word in D1. destruct D1 as (-> & -> & Hw).
  unfold Maybe in D2. cbn [derives] in D2.
  destruct D2 as (n & _ & Hn & -> & ->).
  split; [reflexivity|].
  apply run_spec in Hn. destruct Hn as (Hl & H1 & Hs).
  destruct n as [|[|n]]; [left|right|lia].
  - split; [lia|exact Hw].
  - rewrite length_app. simpl List.length. split; [lia|].
    destruct (skipn (i + List.length (str w)) t) as [|x s] eqn:E;
      [simpl in Hl; lia|].
    simpl in Hs. rewrite andb_true_r in Hs.
    apply starts_with_snoc with (c := x); [exact Hw| |exact Hs].
    rewrite nth_error_skipn. rewrite <- (Nat.add_0_r (i + _)).
    rewrite <- nth_error_skipn. rewrite E. reflexivity.
Qed.

Lemma starts_with_ci_equal (p : text) (i : nat) :
  starts_with U p (skipn i t) = true ->
  ci_equal U p (substr t i (i + List.length p)) = true.
Proof.
  intros H. unfold ci_equal, substr.
  replace (i + List.length p - i) with (List.length p) by lia.
  pose proof (starts_with_length U p (skipn i t) H) as L.
  rewrite length_firstn. replace (Nat.min _ _) with (List.length p) by lia.
  rewrite Nat.eqb_refl. simpl.
  apply starts_with_firstn; [exact H|lia].
Qed.

End PatternShapes.

(** ** Reading a derivation off a pattern *)

Section Inversions.

Variable U : Runtime.
Variable icase : bool.
Variable t : text.

Lemma derives_cat_inv (r1 r2 : regex) (i : nat) (c : caps) (j : nat) (c' : caps) :
  derives U icase t (Cat r1 r2) i c j c' ->
  exists m cm, derives U icase t r1 i c m cm /\ derives U icase t r2 m cm j c'.
Proof. exact (fun H => H). Qed.

Lemma derives_alt_inv (r1 r2 : regex) (i : nat) (c : caps) (j : nat) (c' : caps) :
  derives U icase t (Alt r1 r2) i c j c' ->
  derives U icase t r1 i c j c' \/ derives U icase t r2 i c j c'.
Proof. exact (fun H => H). Qed.

Lemma derives_grp_inv (n : nat) (r : regex) (i : nat) (c : caps) (j : nat) (c' : caps) :
  derives U icase t (Grp n r) i c j c' ->
  exists c1, derives U icase t r i c j c1 /\ c' = (n, (i, j)) :: c1.
Proof. exact (fun H => H). Qed.

Lemma derives_wordb_inv (i : nat) (c : caps) (j : nat) (c' : caps) :
  derives U icase t WordB i c j c' ->
  at_boundary U t i = true /\ j = i /\ c' = c.
Proof. exact (fun H => H). Qed.

Lemma derives_notahead_inv (r : regex) (i : nat) (c : caps) (j : nat) (c' : caps) :
  derives U icase t (NotAhead r) i c j c' ->
  mtch U icase t r i c (@accept) = None /\ j = i /\ c' = c.
Proof. exact (fun H => H). Qed.

End Inversions.

Ltac open_cat D m cm D1 :=
  apply derives_cat_inv in D; destruct D as (m & cm & D1 & D).

Ltac open_grp D c1 E :=
  apply derives_grp_inv in D; destruct D as (c1 & D & E).

(** ** The Weight and Power patterns *)

Lemma weight_match_shape (U : Runtime) (t : text) (i j : nat) (c : caps) :
  i <= List.length t ->
  derives U true t pat_weight i [] j c ->
  exists a k,
    i < a /\ a <= k /\ k <= j /\ j <= List.length t
    /\ c = [(2, (k, j)); (1, (i, a))]
    /\ number_shape U (substr t i a)
    /\ forallb (isspace U) (substr t a k) = true
    /\ existsb (fun u => ci_equal U (str u) (substr t k j)) weight_units = true.
Proof.
  intros Hi D. unfold pat_weight in D. cbn [Cats] in D.
  open_cat D a c1 D1. open_grp D1 c0 E1.
  apply derives_number in D1; [|exact Hi]. destruct D1 as (-> & Ha & Hal & Hnum).
  open_cat D k c2 D2.
  apply derives_ws in D2. destruct D2 as (-> & Hk & Hkl & Hsp).
  specialize (Hkl Hal).
  open_cat D e c3 D3. open_grp D3 c2 E3.
  apply derives_wordb_inv in D. destruct D as (_ & Ej & Ec). subst e c.
  assert (G : c2 = c1 /\ exists u, In u weight_units
                /\ j = k + List.length (str u)
                /\ starts_with U (str u) (skipn k t) = true).
  { cbn [Alts] in D3.
    apply derives_alt_inv in D3. destruct D3 as [D3|D3].
    { apply derives_word_s in D3. destruct D3 as (-> & [[-> H]|[-> H]]);
        (split; [reflexivity|]).
      - exists "lb"%string. simpl; auto.
      - exists "lbs"%string. simpl; auto 10. }
    apply derives_alt_inv in D3. destruct D3 as [D3|D3].
    { apply derives_word_s in D3. destruct D3 as (-> & [[-> H]|[-> H]]);
        (split; [reflexivity|]).
      - exists "pound"%string. simpl; auto 10.
      - exists "pounds"%string. simpl; auto 10. }
    apply derives_alt_inv in D3. destruct D3 as [D3|D3].
    { apply derives_word in D3. destruct D3 as (-> & -> & H).
      split; [reflexivity|]. exists "kg"%string. simpl; auto 10. }
    apply derives_word_s in D3. destruct D3 as (-> & [[-> H]|[-> H]]);
      (split; [reflexivity|]).
    - exists "kilogram"%string. simpl; auto 10.
    - exists "kilograms"%string. simpl; auto 10. }
  destruct G as (-> & u & Hu & -> & Hs).
  pose proof (starts_with_length U _ _ Hs) as L. rewrite length_skipn in L.
  exists a, k. subst c1 c3.
  repeat (split; [first [assumption|reflexivity|lia]|]).
  apply existsb_exists. exists u. split; [exact Hu|].
  now apply starts_with_ci_equal.
Qed.

Lemma power_match_shape (U : Runtime) (t : text) (i j : nat) (c : caps) :
  i <= List.length t ->
  derives U true t pat_power i [] j c ->
  exists a k u,
    In u power_units /\ a <= List.length t /\ k <= List.length t
    /\ power_occurrence U t i a k u = true
    /\ j = k + List.length (str u)
    /\ mtch U true t (Cat ws (Lits "max")) j c (@accept) = None.
Proof.
  intros Hi D. unfold pat_power in D. cbn [Cats] in D.
  open_cat D a c1 D1. open_grp D1 c0 E1.
  apply derives_digits in D1. destruct D1 as (-> & Ha & Hal & Hnum).
  specialize (Hal Hi).
  open_cat D k c2 D2.
  apply derives_ws in D2. destruct D2 as (-> & Hk & Hkl & Hsp).
  specialize (Hkl Hal).
  open_cat D e c3 D3. open_grp D3 c2 E3.
  open_cat D e' c4 D4.
  apply derives_wordb_inv in D4. destruct D4 as (Hb & Ee & Ec4). subst e' c4.
  apply derives_notahead_inv in D. destruct D as (Hna & Ej & Ec). subst j c.
  assert (G : exists u, In u power_units
                /\ e = k + List.length (str u)
                /\ starts_with U (str u) (skipn k t) = true).
  { cbn [Alts] in D3.
    apply derives_alt_inv in D3. destruct D3 as [D3|D3].
    { apply derives_word in D3. destruct D3 as (_ & -> & H).
      exists "watt"%string. simpl; auto. }
    apply derives_alt_inv in D3. destruct D3 as [D3|D3].
    { apply derives_word in D3. destruct D3 as (_ & -> & H).
      exists "watts"%string. simpl; auto. }
    apply derives_word in D3. destruct D3 as (_ & -> & H).
    exists "w"%string. simpl; auto. }
  destruct G as (u & Hu & -> & Hs).
  exists a, k, u.
  repeat (split; [first [assumption|reflexivity|lia]|]).
  split; [|split; [reflexivity|exact Hna]].
  unfold power_occurrence. rewrite Hs, Hb, Hnum, Hsp.
  destruct (Nat.ltb_spec i a); [|lia].
  destruct (Nat.leb_spec a k); [|lia]. reflexivity.
Qed.

Lemma followed_by_max_matches (U : Runtime) (t : text) (e : nat) (c : caps) :
  e <= List.length t ->
  followed_by_max U (skipn e t) = true ->
  mtch U true t (Cat ws (Lits "max")) e c (@accept) <> None.
Proof.
  intros He H. unfold followed_by_max in H.
  apply existsb_exists in H. destruct H as (n & Hin & H).
  apply in_seq in Hin. rewrite length_skipn in Hin.
  apply andb_prop in H. destruct H as [Hsp Hmax].
  apply mtch_complete with (j := e + n + List.length (str "max")) (c' := c);
    [|discriminate].
  cbn [derives]. exists (e + n), c. split.
  - apply rep_derives; [lia|lia| |exact I].
    unfold substr. replace (e + n - e) with n by lia. exact Hsp.
  - apply word_derives. rewrite skipn_skipn in Hmax.
    rewrite Nat.add_comm. exact Hmax.
Qed.

Lemma every_power_occurrence_spec (U : Runtime) (t : text) (i j k : nat) (u : string) :
  every_power_occurrence_followed_by_max U t = true ->
  i <= List.length t -> j <= List.length t -> k <= List.length t ->
  In u power_units ->
  power_occurrence U t i j k u = true ->
  followed_by_max U (skipn (k + List.length (str u)) t) = true.
Proof.
  unfold every_power_occurrence_followed_by_max.
  intros H Hi Hj Hk Hu Ho.
  assert (P : forall x, x <= List.length t -> In x (seq 0 (S (List.length t))))
    by (intros x Hx; apply in_seq; lia).
  rewrite forallb_forall in H. specialize (H k (P k Hk)).
  rewrite forallb_forall in H. specialize (H u Hu).
  rewrite forallb_forall in H. specialize (H j (P j Hj)).
  rewrite forallb_forall in H. specialize (H i (P i Hi)).
  rewrite Ho in H. exact H.
Qed.

(** ** Texts without a bullet glyph *)

Lemma first_some_all_none {A B : Type} (f : A -> option B) (l : list A) :
  (forall a, In a l -> f a = None) -> first_some f l = None.
Proof.
  induction l as [|a l IH]; simpl; intros H; [reflexivity|].
  rewrite (H a) by auto. apply IH. auto.
Qed.

Lemma findall_no_glyph (U : Runtime) (txt : text) :
  has_bullet_glyph txt = false -> findall U false bullet_pattern txt = [].
Proof.
  intros H. unfold findall, all_matches. cbn [matches_from].
  replace (search_from U false bullet_pattern txt 0) with (@None pymatch);
    [reflexivity|].
  symmetry. unfold search_from. apply first_some_all_none. intros i _.
  unfold match_at, bullet_pattern. cbn [Cats mtch].
  destruct (char_at txt i) as [ch|] eqn:E; [|reflexivity].
  assert (F : atom_match U false (ASet (map IChr bullet_glyphs)) ch = false);
    [|rewrite F; reflexivity].
  unfold has_bullet_glyph in H.
  assert (G : existsb (N.eqb ch) bullet_glyphs = false).
  { destruct (existsb (N.eqb ch) bullet_glyphs) eqn:G; [|reflexivity].
    rewrite <- H. symmetry. apply existsb_exists. exists ch. split; [|exact G].
    unfold char_at in E. eapply nth_error_In; eassumption. }
  transitivity (existsb (N.eqb ch) bullet_glyphs); [reflexivity|exact G].
Qed.

(** ** The parser's failure in [process_row] *)

Section MarkupSteps.

Variable U : Runtime.
Variable soup : text -> res text.
Variable row : Row.



Lemma markup_clean_html_agrees (cell : value) :
  parses U soup cell -> Markup.clean_html U soup cell = Ok (clean_html U cell).
Proof.
  intros H. unfold Markup.clean_html, clean_html.
  destruct (notna cell) eqn:E; [|reflexivity].
  rewrite (H E). reflexivity.
Qed.

Lemma markup_add_description_agrees (s : dict) :
  parses U soup (row_get (col_body_html row)) ->
  Markup.add_description U soup row s = add_description U row s.
Proof.
  intros H. unfold Markup.add_description, add_description.
  destruct (notna (row_get (col_body_html row))) eqn:E; [|reflexivity].
  destruct (notna_cell _ E) as (body & Hb). rewrite Hb in *.
  cbn [row_index bind row_get] in *.
  rewrite (markup_clean_html_agrees _ H). reflexivity.
Qed.

Lemma markup_add_title_agrees (s : dict) :
  parses U soup (row_get (col_title row)) ->
  Markup.add_title U soup row s = add_title U row s.
Proof.
  intros H. unfold Markup.add_title, add_title.
  destruct (notna (row_get (col_title row))) eqn:E; [|reflexivity].
  destruct (notna_cell _ E) as (ttl & Hb). rewrite Hb in *.
  cbn [row_index bind row_get] in *.
  rewrite (markup_clean_html_agrees _ H). reflexivity.
Qed.

Lemma markup_add_features_agrees (s : dict) :
  parses U soup (row_get (col_body_html row)) ->
  Markup.add_features U soup row s = add_features U row s.
Proof.
  intros H. unfold Markup.add_features, add_features.
  destruct ((dict_len s <? 4)%Z); cbn [andb]; [|reflexivity].
  destruct (notna (row_get (col_body_html row))) eqn:E; [|reflexivity].
  destruct (notna_cell _ E) as (body & Hb). rewrite Hb in *.
  cbn [row_index bind row_get] in *.
  rewrite (markup_clean_html_agrees _ H). reflexivity.
Qed.

Lemma markup_all_specs_agrees :
  parses U soup (row_get (col_body_html row)) ->
  parses U soup (row_get (col_title row)) ->
  Markup.all_specs U soup row = all_specs U row.
Proof.
  intros Hb Ht. unfold Markup.all_specs, all_specs.
  rewrite (markup_add_description_agrees [] Hb).
  destruct (add_description U row []) as [s1|e]; [|reflexivity]. cbn [bind].
  rewrite (markup_add_title_agrees s1 Ht).
  destruct (add_title U row s1) as [s2|e]; [|reflexivity]. cbn [bind].
  destruct (add_brand U row s2) as [s3|e]; [|reflexivity]. cbn [bind].
  destruct (add_category U row s3) as [s4|e]; [|reflexivity]. cbn [bind].
  destruct (add_material U row s4) as [s5|e]; [|reflexivity]. cbn [bind].
  apply markup_add_features_agrees. exact Hb.
Qed.







End MarkupSteps.

(** ** The rules of a label, one after the other *)

Lemma accepts_spec (U : Runtime) (value : text) :
  _is_valid_value U value 100 = Ok (accepts U value).
Proof.
  unfold accepts. destruct (valid_returns U value 100) as (b & ->).
  now destruct b.
Qed.

(** A rule that matches: its value is taken when it is not empty and the
    validator accepts it, and else the next rule is tried. *)
Lemma try_rules_match (U : Runtime) (pattern : regex)
    (formatter : pymatch -> res text) (rest : list rule) (t : text)
    (m : pymatch) (value : text) :
  search U true pattern t = Some m ->
  formatter m = Ok value ->
  try_rules U ((pattern, formatter) :: rest) t
  = if negb (is_empty value) && accepts U value then Some value
    else try_rules U rest t.
Proof.
  intros Hs Hf. cbn [try_rules]. rewrite Hs, Hf. cbn [bind].
  destruct (is_empty value); cbn [bind negb andb]; [reflexivity|].
  rewrite accepts_spec. cbn [bind]. now destruct (accepts U value).
Qed.




(** A label that is not in the rest of the catalog is left as it is. *)
Lemma extract_loop_other (U : Runtime) (k : string) (cat : catalog) (t : text)
    (n : Z) :
  ~ In k (map fst cat) ->
  forall specs, dict_get k (extract_loop U cat t n specs) = dict_get k specs.
Proof.
  induction cat as [|[name rules] rest IH]; cbn [extract_loop map fst In];
    intros H specs; [reflexivity|].
  destruct (n <=? dict_len specs)%Z; [reflexivity|].
  rewrite IH by tauto.
  destruct (try_rules U rules t); [|reflexivity].
  apply dict_get_set_other. tauto.
Qed.

(** With a cap of at least 2 the second label of a catalog is reached. *)
Lemma extract_loop_second (U : Runtime) (k1 : string) (r1 : list rule)
    (k2 : string) (r2 : list rule) (rest : catalog) (t : text) (n : Z) :
  k1 <> k2 -> ~ In k2 (map fst rest) -> (2 <= n)%Z ->
  dict_get k2 (extract_loop U ((k1, r1) :: (k2, r2) :: rest) t n [])
  = try_rules U r2 t.
Proof.
  intros Hk Hr Hn. cbn [extract_loop].
  assert (L0 : (n <=? dict_len [])%Z = false)
    by (apply Z.leb_gt; unfold dict_len; simpl; lia).
  rewrite L0.
  assert (L1 : forall specs : dict,
             List.length specs <= 1 -> (n <=? dict_len specs)%Z = false)
    by (intros specs H; apply Z.leb_gt; unfold dict_len; lia).
  destruct (try_rules U r1 t) as [v1|].
  - rewrite L1 by (pose proof (dict_set_length k1 v1 []); simpl in *; lia).
    rewrite extract_loop_other by exact Hr.
    destruct (try_rules U r2 t) as [v2|].
    + apply dict_get_set_same.
    + now rewrite dict_get_set_other by exact Hk.
  - rewrite L1 by (simpl; lia).
    rewrite extract_loop_other by exact Hr.
    destruct (try_rules U r2 t) as [v2|]; [|reflexivity].
    apply dict_get_set_same.
Qed.

Lemma extract_specs_weight (U : Runtime) (txt : text) (n : Z) :
  (2 <= n)%Z ->
  dict_get "Weight" (extract_specs_from_text U txt n)
  = try_rules U ((pat_weight, fmt_number_unit) :: @nil rule) (lower U txt).
Proof.
  intros Hn. unfold extract_specs_from_text, extract_with, patterns.
  apply extract_loop_second; [discriminate| |exact Hn].
  cbn [map fst In]. intros H.
  repeat (destruct H as [H|H]; [discriminate H|]). exact H.
Qed.

(** ** The leftmost match *)

Lemma first_some_least {B : Type} (f : nat -> option B) (n : nat) :
  forall a b,
    first_some f (seq a n) = Some b ->
    exists i, a <= i < a + n /\ f i = Some b
              /\ forall i', a <= i' < i -> f i' = None.
Proof.
  induction n as [|n IH]; cbn [seq first_some]; intros a b H; [discriminate|].
  destruct (f a) as [x|] eqn:E.
  - inversion H; subst. exists a. split; [lia|]. split; [exact E|]. intros; lia.
  - destruct (IH (S a) b H) as (i & Hi & Hf & Hl).
    exists i. split; [lia|]. split; [exact Hf|].
    intros i' Hi'. destruct (Nat.eq_dec i' a) as [->|Hne]; [exact E|].
    apply Hl. lia.
Qed.

Lemma match_at_none (U : Runtime) (icase : bool) (r : regex) (t : text)
    (i j : nat) (c : caps) :
  derives U icase t r i [] j c -> match_at U icase r t i <> None.
Proof.
  intros D. unfold match_at.
  pose proof (mtch_complete U icase t r i [] j c (@accept) D) as H.
  destruct (mtch U icase t r i [] (@accept)) as [[j' c']|]; [discriminate|].
  exfalso. apply H; [discriminate|reflexivity].
Qed.

(** [re.search] returns a match that starts where the first match of the
    pattern starts. *)
Lemma search_leftmost (U : Runtime) (icase : bool) (r : regex) (t : text)
    (m : pymatch) :
  search U icase r t = Some m ->
  exists i j c,
    i <= List.length t
    /\ derives U icase t r i [] j c
    /\ m = {| m_string := t; m_start := i; m_end := j; m_caps := c;
              m_ngroups := ngroups r |}
    /\ forall i' j' c', derives U icase t r i' [] j' c' -> i <= i'.
Proof.
  unfold search, search_from. intros H.
  apply first_some_least in H. destruct H as (i & Hi & Hm & Hl).
  unfold match_at in Hm.
  destruct (mtch U icase t r i [] (@accept)) as [[j c]|] eqn:E; [|discriminate].
  apply mtch_sound in E. destruct E as (j' & c' & D & Ha).
  unfold accept in Ha. inversion Ha; subst j' c'.
  exists i, j, c. split; [lia|]. split; [exact D|]. split; [now inversion Hm|].
  intros i' j' c' D'. destruct (Nat.le_gt_cases i i') as [L|L]; [exact L|].
  exfalso. apply (match_at_none U icase r t i' j' c' D'). apply Hl. lia.
Qed.

Lemma search_finds (U : Runtime) (icase : bool) (r : regex) (t : text)
    (i j : nat) (c : caps) :
  i <= List.length t -> derives U icase t r i [] j c ->
  search U icase r t <> None.
Proof.
  intros Hi D. unfold search, search_from.
  apply first_some_complete with (a := i).
  - apply in_seq. lia.
  - now apply match_at_none with (j := j) (c := c).
Qed.

(** ** Weight expressions and the Weight pattern *)

Lemma starts_with_app_inv (U : Runtime) (p q s : text) :
  starts_with U (p ++ q) s = true ->
  starts_with U p s = true
  /\ starts_with U q (skipn (List.length p) s) = true.
Proof.
  revert s. induction p as [|pc p IH]; intros s H.
  - split; [reflexivity|exact H].
  - destruct s as [|c s]; [discriminate H|].
    cbn [app starts_with] in H. apply andb_prop in H. destruct H as [H1 H2].
    destruct (IH s H2) as [H3 H4]. cbn [starts_with List.length skipn].
    rewrite H1, H3. auto.
Qed.

Section WeightShapes.

Variable U : Runtime.
Variable t : text.

Lemma weight_expression_spec (i a b j k : nat) (u : string) :
  weight_expression U t i a b j k u = true <->
  (In u weight_units
   /\ starts_with U (str u) (skipn k t) = true
   /\ at_boundary U t (k + List.length (str u)) = true
   /\ i < a /\ a <= b /\ b <= S a /\ b <= j /\ j <= k
   /\ forallb (isdecimal U) (substr t i a) = true
   /\ forallb (fun c => (c =? c_period)%N) (substr t a b) = true
   /\ forallb (isdecimal U) (substr t b j) = true
   /\ forallb (isspace U) (substr t j k) = true).
Proof.
  assert (M : existsb (String.eqb u) weight_units = true <-> In u weight_units).
  { rewrite existsb_exists. split.
    - intros (x & Hx & E). apply String.eqb_eq in E. now subst.
    - intros H. exists u. split; [exact H|apply String.eqb_refl]. }
  unfold weight_expression. split.
  - intros H.
    destruct (existsb (String.eqb u) weight_units) eqn:E1; [|discriminate].
    destruct (starts_with U (str u) (skipn k t)) eqn:E2; [|discriminate].
    destruct (at_boundary U t (k + List.length (str u))) eqn:E3; [|discriminate].
    destruct (Nat.ltb_spec i a); [|discriminate].
    destruct (Nat.leb_spec a b); [|discriminate].
    destruct (Nat.leb_spec b (S a)); [|discriminate].
    destruct (Nat.leb_spec b j); [|discriminate].
    destruct (Nat.leb_spec j k); [|discriminate].
    destruct (forallb (isdecimal U) (substr t i a)) eqn:E4; [|discriminate].
    destruct (forallb (fun c => (c =? c_period)%N) (substr t a b)) eqn:E5;
      [|discriminate].
    destruct (forallb (isdecimal U) (substr t b j)) eqn:E6; [|discriminate].
    repeat split; try assumption. now apply M.
  - intros (H1 & H2 & H3 & H4 & H5 & H6 & H7 & H8 & H9 & H10 & H11 & H12).
    apply M in H1. rewrite H1, H2, H3, H9, H10, H11, H12.
    destruct (Nat.ltb_spec i a); [|lia].
    destruct (Nat.leb_spec a b); [|lia].
    destruct (Nat.leb_spec b (S a)); [|lia].
    destruct (Nat.leb_spec b j); [|lia].
    destruct (Nat.leb_spec j k); [|lia]. reflexivity.
Qed.

Lemma word_s_derives (w : string) (i : nat) (c : caps) :
  starts_with U (str w ++ str "s") (skipn i t) = true ->
  derives U true t (Cat (Lits w) (Maybe (lit "s"))) i c
          (i + List.length (str w ++ str "s")) c.
Proof.
  intros H. pose proof (starts_with_length U _ _ H) as L.
  rewrite length_skipn, length_app in L. cbn [List.length str] in L.
  apply starts_with_app_inv in H. destruct H as [Hw Hs].
  rewrite skipn_skipn in Hs.
  cbn [derives]. exists (i + List.length (str w)), c. split.
  - now apply word_derives.
  - rewrite length_app. change (List.length (str "s")) with 1.
    apply (rep_derives U true t (lit "s") 0 (Some 1) false
             (i + List.length (str w)) (i + (List.length (str w) + 1)) c).
    + lia.
    + simpl in L. lia.
    + unfold substr.
      replace (i + (List.length (str w) + 1) - (i + List.length (str w)))
        with 1 by lia.
      rewrite (Nat.add_comm i).
      destruct (skipn (List.length (str w) + i) t) as [|x s]; [discriminate Hs|].
      cbn [starts_with str] in Hs. cbn [firstn forallb].
      apply andb_prop in Hs. destruct Hs as [Hs _].
      rewrite andb_true_r. exact Hs.
    + lia.
Qed.

Lemma word_opt_s_derives (w : string) (i : nat) (c : caps) :
  i <= List.length t ->
  starts_with U (str w) (skipn i t) = true ->
  derives U true t (Cat (Lits w) (Maybe (lit "s"))) i c
          (i + List.length (str w)) c.
Proof.
  intros Hi H. pose proof (starts_with_length U _ _ H) as L.
  rewrite length_skipn in L.
  cbn [derives]. exists (i + List.length (str w)), c. split.
  - now apply word_derives.
  - apply (rep_derives U true t (lit "s") 0 (Some 1) false
             (i + List.length (str w)) (i + List.length (str w)) c).
    + lia.
    + lia.
    + unfold substr. rewrite Nat.sub_diag. reflexivity.
    + lia.
Qed.

(** A weight expression is a match of the Weight pattern. *)
Lemma weight_expression_derives (i a b j k : nat) (u : string) :
  weight_expression U t i a b j k u = true ->
  i <= List.length t
  /\ derives U true t pat_weight i []
       (k + List.length (str u))
       [(2, (k, k + List.length (str u))); (1, (i, j))].
Proof.
  intros H. apply weight_expression_spec in H.
  destruct H as (Hu & Hs & Hb & H1 & H2 & H3 & H4 & H5 & D1 & Dp & D2 & Sp).
  pose proof (starts_with_length U _ _ Hs) as L. rewrite length_skipn in L.
  assert (Lu : 1 <= List.length (str u)).
  { cbn [weight_units In] in Hu.
    repeat (destruct Hu as [<-|Hu]; [simpl; lia|]). destruct Hu. }
  split; [lia|].
  unfold pat_weight. cbn [Cats].
  cbn [derives].
  exists j, [(1, (i, j))]. split.
  { exists []. split; [|reflexivity].
    unfold number. cbn [Cats]. cbn [derives].
    exists a, []. split.
    { apply (rep_derives U true t ADigit 1 None false i a []); [lia|lia|exact D1|exact I]. }
    exists b, []. split.
    { apply (rep_derives U true t (lit ".") 0 (Some 1) false a b []);
        [lia|lia|exact Dp|lia]. }
    apply (rep_derives U true t ADigit 0 None false b j []);
      [lia|lia|exact D2|exact I]. }
  exists k, [(1, (i, j))]. split.
  { apply (rep_derives U true t ASpace 0 None false j k [(1, (i, j))]);
      [lia|lia|exact Sp|exact I]. }
  exists (k + List.length (str u)),
         [(2, (k, k + List.length (str u))); (1, (i, j))].
  split; [|split; [exact Hb|split; reflexivity]].
  exists [(1, (i, j))]. split; [|reflexivity].
  cbn [weight_units In] in Hu. cbn [Alts].
  destruct Hu as [<-|Hu]; [left; apply word_opt_s_derives; [lia|assumption]|].
  destruct Hu as [<-|Hu]; [left; now apply (word_s_derives "lb")|].
  destruct Hu as [<-|Hu]; [right; left; apply word_opt_s_derives; [lia|assumption]|].
  destruct Hu as [<-|Hu]; [right; left; now apply (word_s_derives "pound")|].
  destruct Hu as [<-|Hu]; [right; right; left; now apply word_derives|].
  destruct Hu as [<-|Hu]; [right; right; right; apply word_opt_s_derives; [lia|assumption]|].
  destruct Hu as [<-|Hu]; [right; right; right; now apply (word_s_derives "kilogram")|].
  destruct Hu.
Qed.

Lemma derives_number_split (i : nat) (c : caps) (j : nat) (c' : caps) :
  i <= List.length t ->
  derives U true t number i c j c' ->
  c' = c /\ j <= List.length t
  /\ exists a b,
       i < a /\ a <= b /\ b <= S a /\ b <= j
       /\ forallb (isdecimal U) (substr t i a) = true
       /\ forallb (fun ch => (ch =? c_period)%N) (substr t a b) = true
       /\ forallb (isdecimal U) (substr t b j) = true.
Proof.
  intros Hi D. unfold number in D. cbn [Cats derives] in D.
  destruct D as (a & ca & D1 & b & cb & D2 & D3).
  apply derives_digits in D1. destruct D1 as (-> & Ha & Hal & Hd1).
  apply derives_rep in D2. destruct D2 as (-> & Hb & Hbl & Hdot & Hb1).
  apply derives_rep in D3. destruct D3 as (-> & Hj & Hjl & Hd2 & _).
  specialize (Hal Hi). specialize (Hbl Hal). specialize (Hjl Hbl).
  split; [reflexivity|]. split; [lia|].
  exists a, b. repeat split; try lia; assumption.
Qed.

(** A match of the Weight pattern is a weight expression, and its groups
    are the number and the unit. *)
Lemma derives_weight_expression (i e : nat) (c : caps) :
  i <= List.length t ->
  derives U true t pat_weight i [] e c ->
  exists a b j k u,
    weight_expression U t i a b j k u = true
    /\ e = k + List.length (str u)
    /\ c = [(2, (k, e)); (1, (i, j))].
Proof.
  intros Hi D. unfold pat_weight in D. cbn [Cats] in D.
  open_cat D j c1 D1. open_grp D1 c0 E1.
  apply derives_number_split in D1; [|exact Hi].
  destruct D1 as (-> & Hjl & a & b & H1 & H2 & H3 & H4 & Hd1 & Hp & Hd2).
  open_cat D k c2 D2.
  apply derives_ws in D2. destruct D2 as (-> & Hk & Hkl & Hsp).
  specialize (Hkl Hjl).
  open_cat D e' c3 D3. open_grp D3 c2 E3.
  apply derives_wordb_inv in D. destruct D as (Hb & Ej & Ec). subst e' c.
  assert (G : c2 = c1 /\ exists u, In u weight_units
                /\ e = k + List.length (str u)
                /\ starts_with U (str u) (skipn k t) = true).
  { cbn [Alts] in D3.
    apply derives_alt_inv in D3. destruct D3 as [D3|D3].
    { apply derives_word_s in D3. destruct D3 as (-> & [[-> H]|[-> H]]);
        (split; [reflexivity|]).
      - exists "lb"%string. simpl; auto.
      - exists "lbs"%string. simpl; auto 10. }
    apply derives_alt_inv in D3. destruct D3 as [D3|D3].
    { apply derives_word_s in D3. destruct D3 as (-> & [[-> H]|[-> H]]);
        (split; [reflexivity|]).
      - exists "pound"%string. simpl; auto 10.
      - exists "pounds"%string. simpl; auto 10. }
    apply derives_alt_inv in D3. destruct D3 as [D3|D3].
    { apply derives_word in D3. destruct D3 as (-> & -> & H).
      split; [reflexivity|]. exists "kg"%string. simpl; auto 10. }
    apply derives_word_s in D3. destruct D3 as (-> & [[-> H]|[-> H]]);
      (split; [reflexivity|]).
    - exists "kilogram"%string. simpl; auto 10.
    - exists "kilograms"%string. simpl; auto 10. }
  destruct G as (-> & u & Hu & -> & Hs).
  exists a, b, j, k, u. subst c1 c3.
  split; [|split; reflexivity].
  apply weight_expression_spec. repeat split; try assumption; lia.
Qed.

End WeightShapes.

(** ** The feature loops in closed form *)

Lemma collect_closed (U : Runtime) (label : string) (lo : Z) (trail : text)
    (cands : list text) :
  forall features,
    collect U label lo trail cands features
    = Ok (features ++ kept_features U label lo trail cands).
Proof.
  induction cands as [|cand rest IH]; intros features.
  - cbn [collect kept_features flat_map]. now rewrite app_nil_r.
  - cbn [collect kept_features flat_map]. fold (kept_features U label lo trail rest).
    unfold kept. cbn zeta.
    rewrite accepts_spec.
    destruct (lo <? len (rstrip_chars trail (strip U cand)))%Z; cbn [andb bind];
      [|now rewrite IH].
    destruct (len (rstrip_chars trail (strip U cand)) <? 80)%Z; cbn [bind];
      [|now rewrite IH].
    destruct (accepts U (rstrip_chars trail (strip U cand))).
    + rewrite IH. now rewrite <- app_assoc.
    + now rewrite IH.
Qed.

Lemma bullet_features_closed (U : Runtime) (txt : text) (n : Z) :
  bullet_features U txt n
  = Ok (kept_features U "Feature" 10 (str ".,")
          (slice_to (findall U false bullet_pattern txt) n)).
Proof. unfold bullet_features. now rewrite collect_closed. Qed.

Lemma keyword_features_closed (U : Runtime) (txt : text) (n : Z) :
  keyword_features U feature_keywords txt n [] = Ok (phrase_features U txt n).
Proof.
  unfold feature_keywords, phrase_features. cbn [keyword_features].
  rewrite collect_closed. cbn [bind app]. rewrite Z.sub_0_r.
  rewrite collect_closed. cbn [bind].
  rewrite collect_closed. cbn [bind]. reflexivity.
Qed.

Lemma kept_features_no_candidate (U : Runtime) (label : string) (lo : Z)
    (trail : text) (n : Z) :
  kept_features U label lo trail (slice_to (@nil text) n) = [].
Proof.
  unfold slice_to. destruct (0 <=? n)%Z; now rewrite firstn_nil.
Qed.

(** * The claims *)

(** C1, as the specification states it, fails: the product type [!!!!] is
    stored as the Category although the validator rejects it. *)
Lemma C1_junk_category_stored :
  all_specs plain junk_type_row = Ok [("Category"%string, str "!!!!")]
  /\ _is_valid_value plain (str "!!!!") 100 = Ok false.
Proof. split; vm_compute; reflexivity. Qed.

(** C1, amended: for every row, every entry of the dictionary built by
    [process_row] has a value that satisfies the validator with maximum
    length 100, unless it is the Brand entry made by the brand resolver
    (length strictly between 2 and 30), the Category entry made from the
    product type (trimmed, length strictly between 3 and 50) or the Material
    entry made from the metafield (trimmed, length strictly between 3 and
    30), which are stored without validation. *)
Theorem C1_entries_validated_or_length_checked (U : Runtime) (row : Row) :
  exists specs,
    all_specs U row = Ok specs /\ Forall (entry_ok U row) specs.
Proof.
  destruct (add_description_spec U row) as (s1 & E1 & F1 & _).
  destruct (add_title_spec U row s1) as (s2 & E2 & F2 & _).
  destruct (add_brand_spec U row s2) as (s3 & E3 & F3 & _).
  destruct (add_category_spec U row s3) as (s4 & E4 & F4 & _).
  destruct (add_material_spec U row s4) as (s5 & E5 & F5 & _).
  destruct (add_features_spec U row s5) as (s6 & E6 & F6 & _).
  exists s6. split; [|apply F6, F5, F4, F3, F2; exact F1].
  unfold all_specs. rewrite E1; simpl. rewrite E2; simpl. rewrite E3; simpl.
  rewrite E4; simpl. rewrite E5; simpl. exact E6.
Qed.




(** C3: when the pattern pass over the description and the pattern pass
    over the title each yield a value for the same label, the dictionary
    built by [process_row] holds the value from the description. *)
Theorem C3_description_wins (U : Runtime) (row : Row) (body ttl : text)
    (label : string) (vd vt : text) :
  col_body_html row = Some (Str body) ->
  col_title row = Some (Str ttl) ->
  dict_get label (extract_specs_from_text U (clean_html U (Str body)) 5) = Some vd ->
  dict_get label (extract_specs_from_text U (clean_html U (Str ttl)) 2) = Some vt ->
  exists specs, all_specs U row = Ok specs /\ dict_get label specs = Some vd.
Proof.
  intros Hb Ht Hd _.
  destruct (pattern_label_kept U label (extract_specs_label U _ _ _ _ Hd)) as [Hk _].
  destruct (add_description_spec U row) as (s1 & E1 & _ & _ & G1).
  destruct (add_title_spec U row s1) as (s2 & E2 & _ & _ & G2).
  destruct (add_brand_spec U row s2) as (s3 & E3 & _ & _ & G3).
  destruct (add_category_spec U row s3) as (s4 & E4 & _ & _ & G4).
  destruct (add_material_spec U row s4) as (s5 & E5 & _ & _ & G5).
  destruct (add_features_spec U row s5) as (s6 & E6 & _ & _ & _ & G6).
  exists s6. split.
  - unfold all_specs. rewrite E1; simpl. rewrite E2; simpl. rewrite E3; simpl.
    rewrite E4; simpl. rewrite E5; simpl. exact E6.
  - unfold overwritten in Hk.
    apply G6; [tauto|tauto|]. apply G5. apply G4; [tauto|]. apply G3. apply G2.
    rewrite (G1 body Hb). exact Hd.
Qed.

Lemma C3_description_wins_witness :
  exists specs,
    all_specs plain two_weights_row = Ok specs
    /\ dict_get "Weight" specs = Some (str "4.5 lbs").
Proof.
  apply (C3_description_wins plain two_weights_row (str "Weighs 4.5 lbs")
           (str "Acme Blender 2 kg") "Weight" (str "4.5 lbs") (str "2 kg"));
    vm_compute; reflexivity.
Defined.

(** C4: on every text the pattern pass capped at 5 yields at most 5 entries
    and the pattern pass capped at 2 yields at most 2. *)
Theorem C4_pattern_pass_caps (U : Runtime) (txt : text) :
  (dict_len (extract_specs_from_text U txt 5) <= 5)%Z
  /\ (dict_len (extract_specs_from_text U txt 2) <= 2)%Z.
Proof.
  split; apply extract_with_length; lia.
Qed.

(** C5, as the specification states it, fails: this text has a bullet
    glyph, yet no bullet feature is accepted (the segment after the glyph is
    too short) and the phrase-keyword pass runs and gives the result. *)
Lemma C5_fallback_runs_despite_bullet :
  has_bullet_glyph phrase_then_short_bullet = true
  /\ bullet_features plain phrase_then_short_bullet 2 = Ok []
  /\ extract_key_features plain phrase_then_short_bullet 2
     = Ok [("Feature"%string, feature_phrase)].
Proof. repeat split; vm_compute; reflexivity. Qed.

(** C5, amended: for every text and maximum count, the bullet pass keeps,
    of the first max-count bullet segments and of no others, those whose
    trimmed form without trailing periods and commas has a length strictly
    between 10 and 80 and is accepted by the validator, in their order: the
    segments are cut to the count before they are filtered.  When that
    list is not empty it is the result and the phrase-keyword pass does not
    run; the phrase-keyword pass runs, and gives the result, exactly when
    the list is empty, which is so whenever the text has no bullet
    glyph. *)
Theorem C5_fallback_when_no_bullet_feature (U : Runtime) (txt : text) (n : Z) :
  let bs := kept_features U "Feature" 10 (str ".,")
              (slice_to (findall U false bullet_pattern txt) n) in
  bullet_features U txt n = Ok bs
  /\ extract_key_features U txt n
     = match bs with
       | [] => keyword_features U feature_keywords txt n []
       | _ => Ok bs
       end
  /\ keyword_features U feature_keywords txt n [] = Ok (phrase_features U txt n)
  /\ (if has_bullet_glyph txt then True else bs = []).
Proof.
  cbn zeta. split; [apply bullet_features_closed|]. split; [|split].
  - unfold extract_key_features. rewrite bullet_features_closed. cbn [bind].
    now destruct (kept_features _ _ _ _ _).
  - apply keyword_features_closed.
  - destruct (has_bullet_glyph txt) eqn:G; [exact I|].
    rewrite (findall_no_glyph U txt G). apply kept_features_no_candidate.
Qed.

(** The cut comes before the filter: a rejected first segment uses up a
    maximum count of 1, and the good second segment is only reached with a
    count of 2. *)
Lemma junk_bullet_uses_up_the_count :
  extract_key_features plain junk_then_good 1 = Ok []
  /\ extract_key_features plain junk_then_good 2
     = Ok [("Feature"%string, good_bullet)].
Proof. split; vm_compute; reflexivity. Qed.

(** C6, as the specification states it, fails in its second half: the text
    [10x5] matches neither Dimensions pattern (the first needs three
    numbers, the second a leading keyword) and yields no Dimensions
    entry. *)
Lemma C6_two_numbers_alone_yield_nothing :
  dict_get "Dimensions" (extract_specs_from_text plain (str "10x5") 6) = None.
Proof. vm_compute. reflexivity. Qed.

(** C6, amended: [12.5 x 8 x 3 inches] yields Dimensions =
    [12.5 x 8 x 3 inches]; [10x5] alone yields no entry; after the keyword
    [size] (or [dimension], [dimensions]), as in [size: 10x5], the two
    numbers yield Dimensions = [10 x 5] with no unit. *)
Theorem C6_dimension_formatting (U : Runtime) :
  dict_get "Dimensions" (extract_specs_from_text U (str "12.5 x 8 x 3 inches") 6)
    = Some (str "12.5 x 8 x 3 inches")
  /\ extract_specs_from_text U (str "10x5") 6 = []
  /\ dict_get "Dimensions" (extract_specs_from_text U (str "size: 10x5") 6)
     = Some (str "10 x 5").
Proof. repeat split; vm_compute; reflexivity. Qed.

(** C7, as the specification states it, fails: the unit written [KG] in the
    source text comes out as [kg], because the engine searches the
    lower-cased text. *)
Lemma C7_unit_is_lower_cased :
  dict_get "Weight"
    (extract_specs_from_text plain (str "Product weighs 4.5 KG total") 6)
  = Some (str "4.5 kg").
Proof. vm_compute. reflexivity. Qed.

(** C7, amended: for every text whose lower-cased form contains a weight
    expression (a number of the shape digits, optional period, digits, then
    optional white space, then one of lb, lbs, pound, pounds, kg, kilogram,
    kilograms read without regard to case and ending at a word boundary),
    and every cap of at least 2, the pattern pass takes a weight expression
    that starts where the first one starts, and the Weight entry is its
    number, one space, and its unit, both as they stand in the lower-cased
    text, so [KG] in the source gives [kg]; that value is the entry when
    the validator accepts it, and otherwise there is no Weight entry; with
    any cap, a Weight entry has that value. *)
Theorem C7_leftmost_weight_expression (U : Runtime) (txt : text) (n : Z)
    (i0 a0 b0 j0 k0 : nat) (u0 : string) :
  (2 <= n)%Z ->
  weight_expression U (lower U txt) i0 a0 b0 j0 k0 u0 = true ->
  exists i a b j k u,
    weight_expression U (lower U txt) i a b j k u = true
    /\ (forall i' a' b' j' k' u',
          weight_expression U (lower U txt) i' a' b' j' k' u' = true -> i <= i')
    /\ let value := substr (lower U txt) i j ++ str " "
                    ++ substr (lower U txt) k (k + List.length (str u)) in
       dict_get "Weight" (extract_specs_from_text U txt n)
       = (if accepts U value then Some value else None)
       /\ forall n' v,
            dict_get "Weight" (extract_specs_from_text U txt n') = Some v ->
            v = value.
Proof.
  intros Hn H0. rewrite (extract_specs_weight U txt n Hn).
  assert (A : forall n' v,
             dict_get "Weight" (extract_specs_from_text U txt n') = Some v ->
             try_rules U ((pat_weight, fmt_number_unit) :: @nil rule) (lower U txt)
             = Some v).
  { intros n' v H. unfold extract_specs_from_text, extract_with in H.
    apply extract_loop_get in H.
    destruct H as [H|(rules & Hin & Ht)]; [discriminate|].
    now rewrite (rules_of_weight U rules Hin) in Ht. }
  remember (lower U txt) as t eqn:Et. clear Et.
  apply weight_expression_derives in H0. destruct H0 as [Hi0 D0].
  destruct (search U true pat_weight t) as [m|] eqn:Es;
    [|exfalso; exact (search_finds U true pat_weight t _ _ _ Hi0 D0 Es)].
  destruct (search_leftmost U true pat_weight t m Es)
    as (i & e & c & Hi & D & Em & Hl).
  destruct (derives_weight_expression U t i e c Hi D)
    as (a & b & j & k & u & Hw & He & Hc).
  exists i, a, b, j, k, u. split; [exact Hw|]. split.
  - intros i' a' b' j' k' u' H'.
    apply weight_expression_derives in H'. destruct H' as [_ D'].
    exact (Hl _ _ _ D').
  - cbn zeta.
    assert (R : try_rules U ((pat_weight, fmt_number_unit) :: @nil rule) t
                = if accepts U (substr t i j ++ str " "
                                ++ substr t k (k + List.length (str u)))
                  then Some (substr t i j ++ str " "
                             ++ substr t k (k + List.length (str u)))
                  else None).
    { rewrite (try_rules_match U pat_weight fmt_number_unit [] t m
                 (substr t i j ++ str " " ++ substr t k (k + List.length (str u)))).
      + cbn [try_rules]. now destruct (substr t i j).
      + exact Es.
      + subst m c e. unfold fmt_number_unit, group. cbn. reflexivity. }
    split; [exact R|].
    intros n' v H. apply A in H. rewrite R in H.
    destruct (accepts U _); [now inversion H|discriminate].
Qed.

Lemma C7_leftmost_weight_expression_witness :
  exists i a b j k u,
    weight_expression plain (lower plain (str "Product weighs 4.5 KG total"))
      i a b j k u = true
    /\ (forall i' a' b' j' k' u',
          weight_expression plain (lower plain (str "Product weighs 4.5 KG total"))
            i' a' b' j' k' u' = true -> i <= i')
    /\ let value :=
         substr (lower plain (str "Product weighs 4.5 KG total")) i j ++ str " "
         ++ substr (lower plain (str "Product weighs 4.5 KG total")) k
              (k + List.length (str u)) in
       dict_get "Weight"
         (extract_specs_from_text plain (str "Product weighs 4.5 KG total") 6)
       = (if accepts plain value then Some value else None)
       /\ forall n' v,
            dict_get "Weight"
              (extract_specs_from_text plain (str "Product weighs 4.5 KG total") n')
            = Some v ->
            v = value.
Proof.
  apply (C7_leftmost_weight_expression plain (str "Product weighs 4.5 KG total")
           6 15 16 17 18 19 "kg"); [lia|vm_compute; reflexivity].
Defined.

(** The two conditions of the amended C7 are needed: with a cap of 1 the
    Dimensions entry leaves no room for the Weight, and a value of more
    than 100 characters is rejected by the validator. *)
Lemma weight_entry_needs_room_and_validity :
  extract_specs_from_text plain dimensions_then_weight 1
  = [("Dimensions"%string, str "10 x 5 x 3 inches")]
  /\ dict_get "Weight" (extract_specs_from_text plain dimensions_then_weight 2)
     = Some (str "2 kg")
  /\ dict_get "Weight" (extract_specs_from_text plain hundred_digit_weight 6)
     = None.
Proof.
  split; [vm_compute; reflexivity|]. split; [vm_compute; reflexivity|].
  rewrite extract_specs_weight by lia. vm_compute. reflexivity.
Qed.

(** C8: when every occurrence of an integer, optional white space and one
    of the words watt, watts, w in the text (read without regard to case:
    in the lower-cased text the engine searches) is followed by optional
    white space and [max], the pattern pass yields no Power entry. *)
Theorem C8_no_power_before_max (U : Runtime) (txt : text) (n : Z) :
  every_power_occurrence_followed_by_max U (lower U txt) = true ->
  dict_get "Power" (extract_specs_from_text U txt n) = None.
Proof.
  intros H.
  destruct (dict_get "Power" (extract_specs_from_text U txt n)) as [v|] eqn:E;
    [exfalso|reflexivity].
  apply (extract_specs_single_rule U txt n "Power" pat_power fmt_number_unit)
    in E; [|apply rules_of_power].
  destruct E as (i & j & c & Hi & D & _).
  apply power_match_shape in D; [|exact Hi].
  destruct D as (a & k & u & Hu & Ha & Hk & Ho & -> & Hna).
  pose proof (every_power_occurrence_spec U _ i a k u H Hi Ha Hk Hu Ho) as F.
  revert Hna. apply followed_by_max_matches; [|exact F].
  unfold power_occurrence in Ho.
  destruct (starts_with U (str u) (skipn k (lower U txt))) eqn:Es;
    [|discriminate].
  apply starts_with_length in Es. rewrite length_skipn in Es. lia.
Qed.

(** The text [1500 watts max output] yields no Power entry. *)
Lemma C8_no_power_before_max_witness :
  dict_get "Power"
    (extract_specs_from_text plain (str "1500 watts max output") 6) = None.
Proof.
  apply C8_no_power_before_max. vm_compute. reflexivity.
Defined.

(** C9, as the specification states it, fails in the value it gives: on
    [up to 12 cups] the optional unit of the Temperature Range pattern
    matches the [c] of [cups], so the entry is 12 degrees C, not F. *)
Lemma C9_cups_read_as_celsius :
  dict_get "Temperature Range"
    (extract_specs_from_text plain (str "up to 12 cups") 6)
  = Some (deg "12" "C")
  /\ deg "12" "C" <> deg "12" "F".
Proof. split; [vm_compute; reflexivity|discriminate]. Qed.

(** C9, amended: a text with [up to <number>] and no temperature wording
    yields a Temperature Range entry: [up to 12 cups] gives 12 degrees C,
    the unit being read from the [c] of [cups]; where the next word begins
    with neither [f] nor [c], as in [up to 12 people], the unit defaults to
    F. *)
Theorem C9_up_to_number_read_as_temperature (U : Runtime) :
  dict_get "Temperature Range"
    (extract_specs_from_text U (str "up to 12 cups") 6) = Some (deg "12" "C")
  /\ dict_get "Temperature Range"
       (extract_specs_from_text U (str "up to 12 people") 6)
     = Some (deg "12" "F").
Proof.
  destruct U as [sp al de di up ci lo upp ti so js].
  split; vm_compute; destruct (al 176%N); reflexivity.
Qed.

(** C10: the dictionary built by [process_row] has at most 10 entries: at
    most 5 after the description pass, at most 2 more after the title pass,
    at most one more for each of Brand, Category and Material; the feature
    step changes nothing unless fewer than 4 entries are present, then adds
    at most min(2, 5 - count) entries, and the dictionary ends with at most
    5. *)
Theorem C10_at_most_ten_entries (U : Runtime) (row : Row) :
  exists s1 s2 s3 s4 s5 s6,
    add_description U row [] = Ok s1
    /\ add_title U row s1 = Ok s2
    /\ add_brand U row s2 = Ok s3
    /\ add_category U row s3 = Ok s4
    /\ add_material U row s4 = Ok s5
    /\ add_features U row s5 = Ok s6
    /\ all_specs U row = Ok s6
    /\ (dict_len s1 <= 5)%Z
    /\ (dict_len s2 <= dict_len s1 + 2)%Z
    /\ (dict_len s3 <= dict_len s2 + 1)%Z
    /\ (dict_len s4 <= dict_len s3 + 1)%Z
    /\ (dict_len s5 <= dict_len s4 + 1)%Z
    /\ (((4 <= dict_len s5)%Z /\ s6 = s5)
        \/ ((dict_len s5 < 4)%Z
            /\ (dict_len s6 <= dict_len s5 + Z.min 2 (5 - dict_len s5))%Z
            /\ (dict_len s6 <= 5)%Z))
    /\ (dict_len s6 <= 10)%Z.
Proof.
  destruct (add_description_spec U row) as (s1 & E1 & _ & L1 & _).
  destruct (add_title_spec U row s1) as (s2 & E2 & _ & L2 & _).
  destruct (add_brand_spec U row s2) as (s3 & E3 & _ & L3 & _).
  destruct (add_category_spec U row s3) as (s4 & E4 & _ & L4 & _).
  destruct (add_material_spec U row s4) as (s5 & E5 & _ & L5 & _).
  destruct (add_features_spec U row s5) as (s6 & E6 & _ & K6 & L6 & _).
  exists s1, s2, s3, s4, s5, s6.
  repeat (split; [assumption|]).
  split.
  { unfold all_specs. rewrite E1; simpl. rewrite E2; simpl. rewrite E3; simpl.
    rewrite E4; simpl. rewrite E5; simpl. exact E6. }
  repeat (split; [lia|]).
  destruct (Z.le_gt_cases 4 (dict_len s5)) as [H|H].
  - rewrite (K6 H). split; [left; auto|lia].
  - split; [right|]; lia.
Qed.

(** * Further properties of the extractor *)

(** ** Keys of a dictionary *)

Lemma dict_mem_in (k : string) (d : dict) :
  dict_mem k d = true <-> In k (map fst d).
Proof.
  unfold dict_mem. induction d as [|[k0 v0] d IH]; simpl.
  - split; [discriminate|tauto].
  - destruct (String.eqb_spec k0 k).
    + split; auto.
    + rewrite IH. split; [auto|]. intros [E|H]; [congruence|exact H].
Qed.

Lemma dict_mem_false (k : string) (d : dict) :
  dict_mem k d = false <-> ~ In k (map fst d).
Proof.
  rewrite <- dict_mem_in. destruct (dict_mem k d); split; congruence.
Qed.

Lemma dict_set_fresh (k : string) (v : text) (d : dict) :
  ~ In k (map fst d) -> dict_set k v d = d ++ [(k, v)].
Proof.
  induction d as [|[k0 v0] d IH]; simpl; intros H; [reflexivity|].
  destruct (String.eqb_spec k0 k); [tauto|]. rewrite IH; tauto.
Qed.

Lemma dict_set_keys (k : string) (v : text) (d : dict) :
  map fst (dict_set k v d)
  = if dict_mem k d then map fst d else map fst d ++ [k].
Proof.
  unfold dict_mem. induction d as [|[k0 v0] d IH]; simpl; [reflexivity|].
  destruct (String.eqb_spec k0 k); simpl.
  - subst. reflexivity.
  - rewrite IH. destruct (dict_get k d); reflexivity.
Qed.

Lemma dict_set_nodup (k : string) (v : text) (d : dict) :
  NoDup (map fst d) -> NoDup (map fst (dict_set k v d)).
Proof.
  intros H. rewrite dict_set_keys. destruct (dict_mem k d) eqn:E; [exact H|].
  apply dict_mem_false in E.
  apply NoDup_rev in H. rewrite <- (rev_involutive (_ ++ _)).
  apply NoDup_rev. rewrite rev_app_distr. simpl. constructor; [|exact H].
  now rewrite <- in_rev.
Qed.

Lemma dict_update_nodup (e d : dict) :
  NoDup (map fst d) -> NoDup (map fst (dict_update d e)).
Proof.
  unfold dict_update. revert d.
  induction e as [|[k v] e IH]; simpl; intros d H; [exact H|].
  apply IH. now apply dict_set_nodup.
Qed.

Lemma add_missing_nodup (e d : dict) :
  NoDup (map fst d) -> NoDup (map fst (add_missing d e)).
Proof.
  unfold add_missing. revert d.
  induction e as [|[k v] e IH]; simpl; intros d H; [exact H|].
  apply IH. destruct (dict_mem k d); [exact H|]. now apply dict_set_nodup.
Qed.

Lemma add_missing_get (k : string) (e d : dict) :
  dict_get k (add_missing d e) = or_else (dict_get k d) (dict_get k e).
Proof.
  unfold add_missing. revert d.
  induction e as [|[k0 v0] e IH]; simpl; intros d.
  - now destruct (dict_get k d).
  - rewrite IH. unfold dict_mem.
    destruct (String.eqb_spec k0 k).
    + subst. destruct (dict_get k d) eqn:E.
      * rewrite E. reflexivity.
      * rewrite dict_get_set_same. reflexivity.
    + destruct (dict_get k0 d); [reflexivity|].
      now rewrite dict_get_set_other.
Qed.

Lemma dict_get_not_in (k : string) (d : dict) :
  ~ In k (map fst d) -> dict_get k d = None.
Proof.
  intros H. destruct (dict_get k d) eqn:E; [|reflexivity].
  exfalso. apply H. apply dict_get_in in E.
  change k with (fst (k, t)). now apply in_map.
Qed.

(** ** What each step of the merge does to a label *)

Section StepLookups.

Variable U : Runtime.
Variable row : Row.

Lemma add_description_get (k : string) :
  exists s1,
    add_description U row [] = Ok s1
    /\ NoDup (map fst s1)
    /\ dict_get k s1 = dict_get k (description_specs U row).
Proof.
  unfold add_description, description_specs.
  destruct (notna (row_get (col_body_html row))) eqn:E.
  - destruct (notna_cell _ E) as (body & Hb). rewrite Hb. cbn [row_index bind row_get].
    eexists. split; [reflexivity|]. split.
    + apply dict_update_nodup. constructor.
    + apply dict_update_nil_get. apply extract_specs_nodup.
  - exists []. repeat split. constructor.
Qed.

Lemma add_title_get (k : string) (s : dict) :
  exists s2,
    add_title U row s = Ok s2
    /\ (NoDup (map fst s) -> NoDup (map fst s2))
    /\ dict_get k s2 = or_else (dict_get k s) (dict_get k (title_specs U row)).
Proof.
  unfold add_title, title_specs.
  destruct (notna (row_get (col_title row))) eqn:E.
  - destruct (notna_cell _ E) as (ttl & Hb). rewrite Hb. cbn [row_index bind row_get].
    eexists. split; [reflexivity|]. split.
    + apply add_missing_nodup.
    + apply add_missing_get.
  - exists s. split; [reflexivity|]. split; [auto|].
    now destruct (dict_get k s).
Qed.

Lemma add_brand_get (k : string) (s : dict) :
  exists s3 b,
    add_brand U row s = Ok s3
    /\ extract_brand U (row_get (col_title row)) (row_get (col_vendor row)) = Ok b
    /\ (NoDup (map fst s) -> NoDup (map fst s3))
    /\ dict_get k s3
       = if String.eqb k "Brand" then or_else (dict_get k s) b else dict_get k s.
Proof.
  unfold add_brand.
  destruct (extract_brand_spec U (row_get (col_title row)) (row_get (col_vendor row)))
    as (b & Eb & Hb).
  rewrite Eb. cbn [bind].
  assert (T : truthy b = match b with Some _ => true | None => false end).
  { destruct b as [[|c x]|]; try reflexivity. unfold len in Hb. simpl in Hb. lia. }
  rewrite T. unfold dict_mem.
  destruct b as [brand|]; cbn [andb fstr].
  - destruct (dict_get "Brand" s) eqn:G; cbn [negb].
    + exists s, (Some brand). repeat split; auto.
      destruct (String.eqb_spec k "Brand"); [subst; now rewrite G|reflexivity].
    + exists (dict_set "Brand" brand s), (Some brand). split; [reflexivity|].
      split; [reflexivity|]. split; [apply dict_set_nodup|].
      destruct (String.eqb_spec k "Brand").
      * subst. rewrite G. apply dict_get_set_same.
      * apply dict_get_set_other. congruence.
  - exists s, None. repeat split; auto.
    destruct (String.eqb k "Brand"); [now destruct (dict_get k s)|reflexivity].
Qed.

Lemma add_category_get (k : string) (s : dict) :
  exists s4,
    add_category U row s = Ok s4
    /\ (NoDup (map fst s) -> NoDup (map fst s4))
    /\ dict_get k s4
       = if String.eqb k "Category"
         then or_else (trimmed_between U (row_get (col_type row)) 3 50) (dict_get k s)
         else dict_get k s.
Proof.
  unfold add_category, trimmed_between.
  destruct (notna (row_get (col_type row))) eqn:E.
  - destruct (notna_cell _ E) as (ty & Hb). rewrite Hb. cbn [row_index bind row_get py_str].
    destruct ((3 <? len (strip U ty)) && (len (strip U ty) <? 50))%Z eqn:R.
    + assert (N : is_empty (strip U ty) = false).
      { destruct (strip U ty); [|reflexivity]. discriminate R. }
      rewrite N. cbn [negb andb].
      exists (dict_set "Category" (strip U ty) s). split; [reflexivity|].
      split; [apply dict_set_nodup|].
      destruct (String.eqb_spec k "Category").
      * subst. apply dict_get_set_same.
      * apply dict_get_set_other. congruence.
    + rewrite andb_false_r. exists s. repeat split; auto.
      now destruct (String.eqb k "Category").
  - exists s. repeat split; auto. now destruct (String.eqb k "Category").
Qed.

Lemma add_material_get (k : string) (s : dict) :
  exists s5,
    add_material U row s = Ok s5
    /\ (NoDup (map fst s) -> NoDup (map fst s5))
    /\ dict_get k s5
       = if String.eqb k "Material"
         then or_else (dict_get k s)
                      (trimmed_between U (row_get (col_material row)) 3 30)
         else dict_get k s.
Proof.
  unfold add_material, trimmed_between.
  destruct (notna (row_get (col_material row))) eqn:E.
  - destruct (notna_cell _ E) as (mat & Hb). rewrite Hb. cbn [row_index bind row_get py_str].
    unfold dict_mem.
    destruct (dict_get "Material" s) eqn:G; cbn [negb andb].
    + exists s. repeat split; auto.
      destruct (String.eqb_spec k "Material"); [subst; now rewrite G|reflexivity].
    + destruct ((3 <? len (strip U mat)) && (len (strip U mat) <? 30))%Z.
      * exists (dict_set "Material" (strip U mat) s). split; [reflexivity|].
        split; [apply dict_set_nodup|].
        destruct (String.eqb_spec k "Material").
        -- subst. rewrite G. apply dict_get_set_same.
        -- apply dict_get_set_other. congruence.
      * exists s. repeat split; auto.
        destruct (String.eqb_spec k "Material"); [subst; now rewrite G|reflexivity].
  - exists s. repeat split; auto.
    destruct (String.eqb k "Material"); [now destruct (dict_get k s)|reflexivity].
Qed.

Lemma add_features_get (k : string) (s : dict) :
  exists s6,
    add_features U row s = Ok s6
    /\ (NoDup (map fst s) -> NoDup (map fst s6))
    /\ (k <> "Feature"%string -> k <> "Included"%string ->
        dict_get k s6 = dict_get k s)
    /\ ((4 <= dict_len s)%Z -> s6 = s).
Proof.
  unfold add_features.
  destruct (Z.ltb_spec (dict_len s) 4); cbn [andb];
    [|exists s; repeat split; auto].
  destruct (notna (row_get (col_body_html row))) eqn:E;
    [|exists s; repeat split; auto].
  destruct (notna_cell _ E) as (body & Hb). rewrite Hb. cbn [row_index bind].
  destruct (extract_key_features_spec U (clean_html U (Str body))
              (Z.min 2 (5 - dict_len s))) as (fs & Ef & Ff & Lf).
  rewrite Ef. cbn [bind].
  exists (dict_update s fs). split; [reflexivity|].
  split; [apply dict_update_nodup|]. split; [|lia].
  intros Hf Hi. apply dict_update_get_other.
  intros Hin. apply in_map_iff in Hin. destruct Hin as (kv & <- & Hin).
  rewrite Forall_forall in Ff. destruct (Ff kv Hin) as [[H1|H1] _]; congruence.
Qed.

Lemma pattern_pass_no_label (k : string) (txt : text) (n : Z) :
  ~ In k (map fst (patterns U)) ->
  dict_get k (extract_specs_from_text U txt n) = None.
Proof.
  intros H. destruct (dict_get k (extract_specs_from_text U txt n)) eqn:E;
    [|reflexivity].
  exfalso. apply H. eapply extract_specs_label. eassumption.
Qed.

Lemma description_specs_no_label (k : string) :
  ~ In k (map fst (patterns U)) -> dict_get k (description_specs U row) = None.
Proof.
  intros H. unfold description_specs.
  destruct (notna _); [now apply pattern_pass_no_label|reflexivity].
Qed.

Lemma title_specs_no_label (k : string) :
  ~ In k (map fst (patterns U)) -> dict_get k (title_specs U row) = None.
Proof.
  intros H. unfold title_specs.
  destruct (notna _); [now apply pattern_pass_no_label|reflexivity].
Qed.

(** The lookups of one label through the six steps. *)
Lemma all_specs_lookup (k : string) :
  exists specs b,
    all_specs U row = Ok specs
    /\ NoDup (map fst specs)
    /\ extract_brand U (row_get (col_title row)) (row_get (col_vendor row)) = Ok b
    /\ (k <> "Feature"%string -> k <> "Included"%string ->
        dict_get k specs
        = let d := or_else (dict_get k (description_specs U row))
                           (dict_get k (title_specs U row)) in
          if String.eqb k "Brand" then or_else d b
          else if String.eqb k "Category"
          then or_else (trimmed_between U (row_get (col_type row)) 3 50) d
          else if String.eqb k "Material"
          then or_else d (trimmed_between U (row_get (col_material row)) 3 30)
          else d).
Proof.
  destruct (add_description_get k) as (s1 & E1 & N1 & G1).
  destruct (add_title_get k s1) as (s2 & E2 & N2 & G2).
  destruct (add_brand_get k s2) as (s3 & b & E3 & Eb & N3 & G3).
  destruct (add_category_get k s3) as (s4 & E4 & N4 & G4).
  destruct (add_material_get k s4) as (s5 & E5 & N5 & G5).
  destruct (add_features_get k s5) as (s6 & E6 & N6 & G6 & _).
  exists s6, b. split; [|split; [auto 10|split; [exact Eb|]]].
  - unfold all_specs. rewrite E1; cbn [bind]. rewrite E2; cbn [bind].
    rewrite E3; cbn [bind]. rewrite E4; cbn [bind]. rewrite E5; cbn [bind].
    exact E6.
  - intros Hf Hi. rewrite (G6 Hf Hi), G5, G4, G3, G2, G1. cbn zeta.
    destruct (String.eqb_spec k "Brand"); [subst; reflexivity|].
    destruct (String.eqb_spec k "Category"); [subst; reflexivity|].
    destruct (String.eqb_spec k "Material"); [subst; reflexivity|].
    reflexivity.
Qed.

End StepLookups.

(** ** The engine as a prefix of the matched labels *)

Lemma extract_loop_closed (U : Runtime) (cat : catalog) (t : text) (n : Z) :
  forall specs,
    NoDup (map fst specs ++ map fst cat) ->
    extract_loop U cat t n specs
    = if (n <=? dict_len specs)%Z then specs
      else specs ++ firstn (Z.to_nat (n - dict_len specs)) (matched_specs U cat t).
Proof.
  induction cat as [|[name rules] rest IH]; intros specs H.
  - simpl. rewrite firstn_nil, app_nil_r. now destruct (n <=? dict_len specs)%Z.
  - cbn [extract_loop matched_specs flat_map fst snd].
    destruct (Z.leb_spec n (dict_len specs)) as [L|L]; [reflexivity|].
    fold (matched_specs U rest t).
    destruct (try_rules U rules t) as [v|].
    + assert (F : ~ In name (map fst specs)).
      { simpl in H. apply NoDup_remove_2 in H. intros Hin. apply H.
        apply in_or_app. now left. }
      rewrite (dict_set_fresh name v specs F).
      rewrite IH.
      * unfold dict_len in *. rewrite length_app. simpl List.length.
        destruct (Z.leb_spec n (Z.of_nat (List.length specs + 1))) as [L'|L'].
        -- replace (Z.to_nat (n - Z.of_nat (List.length specs))) with 1 by lia.
           reflexivity.
        -- replace (Z.to_nat (n - Z.of_nat (List.length specs)))
             with (S (Z.to_nat (n - Z.of_nat (List.length specs + 1)))) by lia.
           simpl. now rewrite <- app_assoc.
      * rewrite map_app, <- app_assoc. exact H.
    + rewrite IH.
      * destruct (Z.leb_spec n (dict_len specs)); [lia|reflexivity].
      * simpl in H. now apply NoDup_remove_1 in H.
Qed.

Lemma extract_specs_closed (U : Runtime) (txt : text) (n : Z) :
  extract_specs_from_text U txt n
  = firstn (Z.to_nat n) (matched_specs U (patterns U) (lower U txt)).
Proof.
  unfold extract_specs_from_text, extract_with.
  rewrite extract_loop_closed by exact (patterns_nodup U).
  unfold dict_len. simpl List.length. change (Z.of_nat 0) with 0%Z.
  destruct (Z.leb_spec n 0).
  - replace (Z.to_nat n) with 0 by lia. reflexivity.
  - simpl. now rewrite Z.sub_0_r.
Qed.


(** ** ASCII case *)

Lemma ascii_lower_upper (c : chr) : ascii_lower (ascii_upper c) = ascii_lower c.
Proof.
  unfold ascii_lower, ascii_upper, ascii_isupper, ascii_islower, between.
  destruct (N.leb_spec 97 c); destruct (N.leb_spec c 122); simpl;
    destruct (N.leb_spec 65 c); destruct (N.leb_spec c 90); simpl;
      try destruct (N.leb_spec 65 (c - 32)); try destruct (N.leb_spec (c - 32) 90);
        simpl; lia.
Qed.

Lemma ascii_upper_is_ascii (c : chr) : is_ascii c = true -> is_ascii (ascii_upper c) = true.
Proof.
  unfold is_ascii, ascii_upper. intros H. apply N.ltb_lt in H.
  destruct (ascii_islower c); apply N.ltb_lt; lia.
Qed.

Lemma lower_upper_ascii (U : Runtime) (txt : text) :
  forallb is_ascii txt = true -> lower U (upper U txt) = lower U txt.
Proof.
  intros H. unfold upper. rewrite H. unfold lower. rewrite H.
  assert (A : forallb is_ascii (map ascii_upper txt) = true).
  { rewrite forallb_forall in *. intros c Hin. apply in_map_iff in Hin.
    destruct Hin as (d & <- & Hd). apply ascii_upper_is_ascii. auto. }
  rewrite A, map_map. apply map_ext. intros c. apply ascii_lower_upper.
Qed.

(** ** The formatters on the matches of their patterns *)

Lemma groups_length (m : pymatch) : List.length (groups m) = m_ngroups m.
Proof. unfold groups. now rewrite length_map, length_seq. Qed.

Lemma format_dimensions_returns (U : Runtime) (m : pymatch) :
  exists v,
    _format_dimensions U m = Ok v
    /\ (v = []
        \/ exists a b rest,
             v = a ++ str " x " ++ b ++ rest
             /\ In (Some a) (groups m) /\ In (Some b) (groups m)
             /\ str_isdigit U (remove_char c_period a) = true
             /\ str_isdigit U (remove_char c_period b) = true).
Proof.
  unfold _format_dimensions.
  set (gs := flat_map _ (groups m)).
  assert (G : forall s, In s gs ->
                In (Some s) (groups m)
                /\ str_isdigit U (remove_char c_period s) = true).
  { intros s Hin. apply in_flat_map in Hin. destruct Hin as ([x|] & Hx & Hin);
      [|destruct Hin].
    destruct (negb (is_empty x) && str_isdigit U (remove_char c_period x)) eqn:E;
      [|destruct Hin].
    destruct Hin as [<-|[]]. apply andb_prop in E. tauto. }
  assert (U4 : exists unit,
             (if 4 <=? List.length (groups m)
              then g4 <- group_checked m 4 ;;
                   (if truthy g4 then g4' <- group_checked m 4 ;; Ok (fstr g4')
                    else Ok (str "inches"))
              else Ok (str "inches")) = Ok unit).
  { rewrite groups_length. unfold group_checked.
    destruct (4 <=? m_ngroups m); [|eauto]. cbn [bind].
    destruct (truthy (group m 4)); cbn [bind]; eauto. }
  destruct U4 as (unit & ->). cbn [bind].
  destruct gs as [|a [|b [|c r]]]; cbn [List.length Nat.leb Nat.eqb index nth_error bind].
  - eauto.
  - eauto.
  - exists (a ++ str " x " ++ b). split; [reflexivity|]. right.
    exists a, b, []. rewrite app_nil_r.
    destruct (G a) as [? ?]; [simpl; auto|].
    destruct (G b) as [? ?]; [simpl; auto|]. auto.
  - eexists. split; [reflexivity|]. right.
    exists a, b. eexists. split; [reflexivity|].
    destruct (G a) as [? ?]; [simpl; auto|].
    destruct (G b) as [? ?]; [simpl; auto|]. auto.
Qed.

Lemma fmt_temperature_returns (U : Runtime) (m : pymatch) :
  exists v, fmt_temperature U m = Ok v.
Proof.
  unfold fmt_temperature.
  destruct (group m 2) as [[|c s]|]; cbn [truthy on_str bind]; eauto.
Qed.

Lemma derives_group_free (U : Runtime) (icase : bool) (t : text) (r : regex) :
  group_free r = true ->
  forall i c j c', derives U icase t r i c j c' -> c' = c.
Proof.
  induction r as [|a|r1 IH1 r2 IH2|r1 IH1 r2 IH2|r1 IH1|a lo hi lazy|n r1 IH1|r1 IH1| |];
    cbn [group_free derives]; intros G i c j c' D.
  - tauto.
  - destruct D as (ch & _ & _ & _ & ->). reflexivity.
  - apply andb_prop in G. destruct G as [G1 G2].
    destruct D as (m & cm & D1 & D2).
    apply (IH1 G1) in D1. apply (IH2 G2) in D2. congruence.
  - apply andb_prop in G. destruct G as [G1 G2].
    destruct D as [D|D]; [apply (IH1 G1) in D|apply (IH2 G2) in D]; exact D.
  - destruct D as [D|[_ ->]]; [now apply (IH1 G) in D|reflexivity].
  - destruct D as (n & _ & _ & _ & ->). reflexivity.
  - discriminate.
  - tauto.
  - tauto.
  - tauto.
Qed.

Ltac closed_by_group_free D :=
  apply derives_group_free in D; [|reflexivity].

Lemma material_1_group (U : Runtime) (t : text) (i j : nat) (c : caps) :
  derives U true t pat_material_1 i [] j c ->
  exists s e, c = [(1, (s, e))].
Proof.
  intros D. unfold pat_material_1 in D. cbn [Cats] in D.
  open_cat D a c1 D1. closed_by_group_free D1. subst c1.
  open_cat D b c2 D2. closed_by_group_free D2. subst c2.
  open_cat D e c3 D3. open_grp D3 c0 E3. closed_by_group_free D3. subst c0.
  closed_by_group_free D. subst. eauto.
Qed.

Lemma material_2_group (U : Runtime) (t : text) (i j : nat) (c : caps) :
  derives U true t pat_material_2 i [] j c ->
  exists s e, c = [(1, (s, e))].
Proof.
  intros D. unfold pat_material_2 in D. cbn [Cats] in D.
  open_cat D a c1 D1. closed_by_group_free D1. subst c1.
  open_cat D e c3 D3. open_grp D3 c0 E3. closed_by_group_free D3. subst c0.
  closed_by_group_free D. subst. eauto.
Qed.

Lemma color_group (U : Runtime) (t : text) (i j : nat) (c : caps) :
  derives U true t pat_color i [] j c ->
  exists s e, c = [(1, (s, e))].
Proof.
  intros D. unfold pat_color in D. cbn [Cats] in D.
  open_cat D a c1 D1. closed_by_group_free D1. subst c1.
  open_cat D a' c1 D1'. closed_by_group_free D1'. subst c1.
  open_cat D b c2 D2. closed_by_group_free D2. subst c2.
  open_cat D e c3 D3. open_grp D3 c0 E3. closed_by_group_free D3. subst c0.
  closed_by_group_free D. subst. eauto.
Qed.

Lemma search_group_1 (U : Runtime) (r : regex) (t : text) (m : pymatch) :
  (forall i j c, derives U true t r i [] j c -> exists s e, c = [(1, (s, e))]) ->
  search U true r t = Some m ->
  exists g, group m 1 = Some g.
Proof.
  intros H E. apply search_from_sound in E.
  destruct E as (i & j & c & _ & D & ->).
  destruct (H i j c D) as (s & e & ->). unfold group. simpl. eauto.
Qed.

(** ** Stripping and splitting *)

Lemma lstrip_by_clean (p : chr -> bool) (s : text) :
  starts_clean p (lstrip_by p s).
Proof.
  induction s as [|c s IH]; simpl; [exact I|].
  destruct (p c) eqn:E; [exact IH|]. simpl. exact E.
Qed.

Lemma lstrip_by_fixed (p : chr -> bool) (s : text) :
  starts_clean p s -> lstrip_by p s = s.
Proof.
  destruct s as [|c s]; simpl; [reflexivity|]. intros ->. reflexivity.
Qed.

Lemma lstrip_by_suffix (p : chr -> bool) (s : text) :
  exists pre, s = pre ++ lstrip_by p s.
Proof.
  induction s as [|c s (pre & IH)]; simpl; [exists []; reflexivity|].
  destruct (p c).
  - exists (c :: pre). simpl. now f_equal.
  - exists []. reflexivity.
Qed.

Lemma rstrip_by_prefix (p : chr -> bool) (s : text) :
  exists suf, s = rstrip_by p s ++ suf.
Proof.
  unfold rstrip_by. destruct (lstrip_by_suffix p (rev s)) as (pre & H).
  exists (rev pre). rewrite <- rev_app_distr, <- H. now rewrite rev_involutive.
Qed.

Lemma rstrip_by_idem (p : chr -> bool) (s : text) :
  rstrip_by p (rstrip_by p s) = rstrip_by p s.
Proof.
  unfold rstrip_by. rewrite rev_involutive.
  rewrite (lstrip_by_fixed p (lstrip_by p (rev s))); [reflexivity|].
  apply lstrip_by_clean.
Qed.

Lemma rstrip_by_keeps_start (p : chr -> bool) (s : text) :
  starts_clean p s -> starts_clean p (rstrip_by p s).
Proof.
  intros H. destruct (rstrip_by_prefix p s) as (suf & E).
  destruct (rstrip_by p s) as [|c r]; [exact I|].
  rewrite E in H. exact H.
Qed.

Lemma strip_idem (U : Runtime) (s : text) : strip U (strip U s) = strip U s.
Proof.
  unfold strip.
  rewrite (lstrip_by_fixed (isspace U)).
  - apply rstrip_by_idem.
  - apply rstrip_by_keeps_start. apply lstrip_by_clean.
Qed.

Lemma split_aux_words (U : Runtime) (s : text) :
  forall cur,
    forallb (fun c => negb (isspace U c)) cur = true ->
    Forall (word_ok U) (split_aux U s cur).
Proof.
  assert (R : forall (c : chr) cur,
             forallb (fun c => negb (isspace U c)) (c :: cur) = true ->
             word_ok U (rev (c :: cur))).
  { intros c cur H. split.
    - intros E. apply (f_equal (@List.length chr)) in E.
      rewrite length_rev in E. discriminate.
    - rewrite forallb_forall in *. intros x Hx. apply H. now apply in_rev. }
  induction s as [|c s IH]; simpl; intros cur H.
  - destruct cur; constructor; auto.
  - destruct (isspace U c) eqn:E.
    + destruct cur; [now apply IH|]. constructor; [auto|now apply IH].
    + apply IH. simpl. now rewrite E, H.
Qed.

Lemma split_words (U : Runtime) (s : text) : Forall (word_ok U) (split U s).
Proof. now apply split_aux_words. Qed.

Lemma split_aux_word (U : Runtime) (w rest cur : text) :
  forallb (fun c => negb (isspace U c)) w = true ->
  split_aux U (w ++ rest) cur = split_aux U rest (rev w ++ cur).
Proof.
  revert cur. induction w as [|c w IH]; simpl; intros cur H; [reflexivity|].
  apply andb_prop in H. destruct H as [Hc Hw].
  apply negb_true_iff in Hc. rewrite Hc. rewrite IH by exact Hw.
  now rewrite <- app_assoc.
Qed.

Lemma split_join (U : Runtime) (ws : list text) :
  Forall (word_ok U) ws -> split U (join [c_space] ws) = ws.
Proof.
  unfold split. induction ws as [|w ws IH]; intros H; [reflexivity|].
  inversion H as [|? ? [Hne Hw] Hws]; subst.
  assert (E : forall rest, split_aux U (w ++ rest) [] = split_aux U rest (rev w))
    by (intros rest; rewrite split_aux_word by exact Hw; now rewrite app_nil_r).
  destruct ws as [|w2 ws].
  - cbn [join]. pose proof (E []) as E0. rewrite app_nil_r in E0. rewrite E0.
    cbn [split_aux].
    destruct (rev w) eqn:R; [|now rewrite <- R, rev_involutive].
    exfalso. apply Hne. now rewrite <- (rev_involutive w), R.
  - cbn [join]. rewrite E. cbn [app split_aux].
    change (isspace U c_space) with true. cbn iota.
    destruct (rev w) eqn:R.
    + exfalso. apply Hne. now rewrite <- (rev_involutive w), R.
    + rewrite <- R, rev_involutive. f_equal. now apply IH.
Qed.

Lemma join_starts_clean (U : Runtime) (ws : list text) :
  Forall (word_ok U) ws -> starts_clean (isspace U) (join [c_space] ws).
Proof.
  intros H. destruct ws as [|w ws]; [exact I|].
  inversion H as [|? ? [Hne Hw] _]; subst.
  destruct w as [|c w]; [congruence|].
  simpl in Hw. apply andb_prop in Hw. destruct Hw as [Hc _].
  apply negb_true_iff in Hc.
  destruct ws; simpl; exact Hc.
Qed.

Lemma join_ends_clean (U : Runtime) (ws : list text) :
  Forall (word_ok U) ws -> starts_clean (isspace U) (rev (join [c_space] ws)).
Proof.
  induction ws as [|w ws IH]; intros H; [exact I|].
  inversion H as [|? ? [Hne Hw] Hws]; subst.
  assert (W : starts_clean (isspace U) (rev w)).
  { destruct (rev w) as [|c r] eqn:R; [exact I|]. simpl.
    rewrite forallb_forall in Hw. apply negb_true_iff. apply Hw.
    apply in_rev. rewrite R. now left. }
  destruct ws as [|w2 ws]; [exact W|].
  change (join [c_space] (w :: w2 :: ws))
    with (w ++ [c_space] ++ join [c_space] (w2 :: ws)).
  specialize (IH Hws).
  assert (J : join [c_space] (w2 :: ws) <> []).
  { inversion Hws as [|? ? [Hne2 _] _]; subst.
    cbn [join]. destruct ws; [exact Hne2|].
    destruct w2; [congruence|discriminate]. }
  remember (join [c_space] (w2 :: ws)) as joined eqn:Ej. clear Ej.
  rewrite !rev_app_distr.
  destruct (rev joined) as [|c r] eqn:R; [|exact IH].
  exfalso. apply J. now rewrite <- (rev_involutive joined), R.
Qed.

Lemma strip_join (U : Runtime) (ws : list text) :
  Forall (word_ok U) ws -> strip U (join [c_space] ws) = join [c_space] ws.
Proof.
  intros H. unfold strip.
  rewrite (lstrip_by_fixed (isspace U)) by now apply join_starts_clean.
  unfold rstrip_by.
  rewrite (lstrip_by_fixed (isspace U)) by now apply join_ends_clean.
  apply rev_involutive.
Qed.

(** ** The validator *)

Lemma valid_iff_acceptable (U : Runtime) (v : text) (n : Z) :
  _is_valid_value U v n = Ok true <-> acceptable U v n.
Proof.
  unfold _is_valid_value, acceptable. cbn zeta.
  destruct v as [|c0 v0]; cbn [is_empty orb].
  { split; [discriminate|]. intros (A & _). now destruct A. }
  destruct (strip U (c0 :: v0)) as [|c s] eqn:Es; cbn [is_empty].
  { split; [discriminate|]. intros (A & _). now destruct A. }
  destruct (Z.ltb_spec n (len (c :: s))) as [L1|L1].
  { split; [discriminate|]. intros (_ & A & _). lia. }
  unfold ratio_exceeds.
  destruct (Z.eqb_spec (len (c :: s)) 0) as [E|E];
    [unfold len in E; simpl in E; lia|].
  cbn [bind].
  destruct (Z.ltb_spec (3 * len (c :: s)) (10 * special_count U (c :: s)))
    as [L2|L2].
  { split; [discriminate|]. intros (_ & _ & A & _). lia. }
  destruct (Z.ltb_spec 5 (count c_comma (c :: s))) as [L3|L3]; cbn [orb].
  { split; [discriminate|]. intros (_ & _ & _ & A & _). lia. }
  destruct (Z.ltb_spec 5 (count c_period (c :: s))) as [L4|L4].
  { split; [discriminate|]. intros (_ & _ & _ & _ & A). lia. }
  split; [intros _|reflexivity].
  repeat split; try lia. discriminate.
Qed.

Lemma valid_of_stripped (U : Runtime) (v : text) (n : Z) :
  _is_valid_value U (strip U v) n = _is_valid_value U v n.
Proof.
  destruct (valid_returns U v n) as (b & Hb).
  destruct (valid_returns U (strip U v) n) as (b' & Hb').
  rewrite Hb, Hb'. f_equal.
  assert (A : acceptable U (strip U v) n <-> acceptable U v n)
    by (unfold acceptable; cbn zeta; now rewrite strip_idem).
  rewrite <- !valid_iff_acceptable in A. rewrite Hb, Hb' in A.
  destruct b, b'; try reflexivity.
  - destruct A as [_ A]. specialize (A eq_refl). discriminate.
  - destruct A as [A _]. specialize (A eq_refl). discriminate.
Qed.

(** ** Entries of the feature phrase extractor *)

Lemma collect_entries (U : Runtime) (label : string) (lo : Z) (trail : text)
    (Q : string * text -> Prop) :
  (forall f, (lo < len f < 80)%Z -> _is_valid_value U f 100 = Ok true ->
             Q (label, f)) ->
  forall cands features fs,
    Forall Q features ->
    collect U label lo trail cands features = Ok fs ->
    Forall Q fs.
Proof.
  intros HQ. induction cands as [|cand rest IH]; cbn [collect];
    intros features fs Hf H.
  - inversion H; subst. exact Hf.
  - set (feature := rstrip_chars trail (strip U cand)) in *.
    destruct (Z.ltb_spec lo (len feature)); cbn [andb] in H.
    + destruct (Z.ltb_spec (len feature) 80).
      * destruct (_is_valid_value U feature 100) as [[|]|e] eqn:Ev;
          cbn [bind] in H; [| |discriminate].
        -- apply IH in H; [exact H|]. apply Forall_app. split; [exact Hf|].
           constructor; [|constructor]. apply HQ; [lia|exact Ev].
        -- now apply IH in H.
      * cbn [bind] in H. now apply IH in H.
    + cbn [bind] in H. now apply IH in H.
Qed.

Lemma keyword_features_entries (U : Runtime) (txt : text) (n : Z) :
  forall features fs,
    Forall (feature_entry U) features ->
    keyword_features U feature_keywords txt n features = Ok fs ->
    Forall (feature_entry U) fs.
Proof.
  intros features fs Hf H. unfold feature_keywords in H.
  cbn [keyword_features] in H.
  destruct (collect U "Feature" 15 (str ",") _ features) as [f1|] eqn:E1;
    cbn [bind] in H; [|discriminate].
  apply collect_entries with (Q := feature_entry U) in E1;
    [|intros f L V; split; [left; simpl; split; [reflexivity|lia]|exact V]
     |exact Hf].
  destruct (collect U "Included" 15 (str ",") _ f1) as [f2|] eqn:E2;
    cbn [bind] in H; [|discriminate].
  apply collect_entries with (Q := feature_entry U) in E2;
    [|intros f L V; split; [right; simpl; split; [reflexivity|lia]|exact V]
     |exact E1].
  destruct (collect U "Included" 15 (str ",") _ f2) as [f3|] eqn:E3;
    cbn [bind] in H; [|discriminate].
  apply collect_entries with (Q := feature_entry U) in E3;
    [|intros f L V; split; [right; simpl; split; [reflexivity|lia]|exact V]
     |exact E2].
  inversion H; subst. exact E3.
Qed.

Lemma extract_key_features_entries (U : Runtime) (txt : text) (n : Z)
    (fs : list (string * text)) :
  extract_key_features U txt n = Ok fs -> Forall (feature_entry U) fs.
Proof.
  unfold extract_key_features, bullet_features. intros H.
  destruct (collect U "Feature" 10 (str ".,") _ []) as [bs|] eqn:E;
    cbn [bind] in H; [|discriminate].
  apply collect_entries with (Q := feature_entry U) in E;
    [|intros f L V; split; [left; simpl; split; [reflexivity|lia]|exact V]
     |constructor].
  destruct bs as [|b bs]; cbn [negb] in H.
  - eapply keyword_features_entries; [constructor|exact H].
  - inversion H; subst. exact E.
Qed.

(** ** The Power pattern, with its captures *)

Lemma power_match_full (U : Runtime) (t : text) (i j : nat) (c : caps) :
  i <= List.length t ->
  derives U true t pat_power i [] j c ->
  exists a k u,
    In u power_units
    /\ power_occurrence U t i a k u = true
    /\ j = k + List.length (str u)
    /\ j <= List.length t
    /\ c = [(2, (k, j)); (1, (i, a))]
    /\ followed_by_max U (skipn j t) = false.
Proof.
  intros Hi D. unfold pat_power in D. cbn [Cats] in D.
  open_cat D a c1 D1. open_grp D1 c0 E1.
  apply derives_digits in D1. destruct D1 as (-> & Ha & Hal & Hnum).
  specialize (Hal Hi).
  open_cat D k c2 D2.
  apply derives_ws in D2. destruct D2 as (-> & Hk & Hkl & Hsp).
  specialize (Hkl Hal).
  open_cat D e c3 D3. open_grp D3 c2 E3.
  open_cat D e' c4 D4.
  apply derives_wordb_inv in D4. destruct D4 as (Hb & Ee & Ec4). subst e' c4.
  apply derives_notahead_inv in D. destruct D as (Hna & Ej & Ec). subst j c.
  assert (G : c2 = c1 /\ exists u, In u power_units
                /\ e = k + List.length (str u)
                /\ starts_with U (str u) (skipn k t) = true).
  { cbn [Alts] in D3.
    apply derives_alt_inv in D3. destruct D3 as [D3|D3].
    { apply derives_word in D3. destruct D3 as (-> & -> & H).
      split; [reflexivity|]. exists "watt"%string. simpl; auto. }
    apply derives_alt_inv in D3. destruct D3 as [D3|D3].
    { apply derives_word in D3. destruct D3 as (-> & -> & H).
      split; [reflexivity|]. exists "watts"%string. simpl; auto. }
    apply derives_word in D3. destruct D3 as (-> & -> & H).
    split; [reflexivity|]. exists "w"%string. simpl; auto. }
  destruct G as (-> & u & Hu & -> & Hs).
  pose proof (starts_with_length U _ _ Hs) as L. rewrite length_skipn in L.
  exists a, k, u. subst c1 c3.
  split; [exact Hu|]. split; [|split; [reflexivity|split; [lia|split; [reflexivity|]]]].
  - unfold power_occurrence. rewrite Hs, Hb, Hnum, Hsp.
    destruct (Nat.ltb_spec i a); [|lia].
    destruct (Nat.leb_spec a k); [|lia]. reflexivity.
  - destruct (followed_by_max U (skipn (k + List.length (str u)) t)) eqn:F;
      [|reflexivity].
    exfalso. revert Hna. apply followed_by_max_matches; [lia|exact F].
Qed.

(** ** The rows of the sheet *)

Section SheetLoop.

Variable U : Runtime.
Variable soup : text -> res text.
Variable df_at_set : text -> res unit.
Variable loads_len : text -> option Z.
Variable overwrite : bool.

Lemma row_outcome_keeps_product (r o : SheetRow) :
  row_outcome U soup df_at_set overwrite r o -> sr_row o = sr_row r.
Proof.
  intros (b & _ & H).
  destruct (b && negb overwrite); [now subst|].
  destruct H as (js & _ & H).
  destruct (is_empty js); [now subst|]. destruct H as [_ ->]. reflexivity.
Qed.

(** What the loop has done when it returns. *)
Lemma process_rows_spec (rows : list SheetRow) :
  forall stats out st,
    process_rows U soup df_at_set loads_len overwrite rows stats = Ok (out, st) ->
    Forall2 (row_outcome U soup df_at_set overwrite) rows out
    /\ total st = total stats
    /\ (already_populated stats <= already_populated st)%Z
    /\ (newly_populated stats <= newly_populated st)%Z
    /\ (skipped stats <= skipped st)%Z
    /\ ((already_populated st - already_populated stats)
        + (newly_populated st - newly_populated stats)
        + (skipped st - skipped stats)
        = Z.of_nat (List.length rows))%Z
    /\ (overwrite = true -> already_populated st = already_populated stats).
Proof.
  induction rows as [|r rest IH]; intros stats out st H.
  - cbn [process_rows] in H. inversion H; subst. cbn [List.length].
    repeat split; try constructor; try lia.
  - cbn [process_rows] in H.
    destruct (has_existing U r) as [b|e] eqn:Eb; cbn [bind] in H; [|discriminate].
    destruct (b && negb overwrite) eqn:Eo.
    + match type of H with
      | context [process_rows U soup df_at_set loads_len overwrite rest ?s] =>
          destruct (process_rows U soup df_at_set loads_len overwrite rest s)
            as [[out' st']|e] eqn:E
      end; cbn [bind fst snd] in H; [|discriminate].
      inversion H; subst. apply IH in E.
      destruct E as (F & T & A & N & K & S & W).
      cbn [total already_populated newly_populated skipped] in *.
      split.
      { constructor; [|exact F]. exists b. split; [exact Eb|].
        rewrite Eo. reflexivity. }
      cbn [List.length]. repeat split; try lia.
      intros ->. rewrite andb_false_r in Eo. discriminate.
    + destruct (Markup.process_row U soup (sr_row r)) as [js|e] eqn:Ej;
        cbn [bind] in H; [|discriminate].
      destruct (is_empty js) eqn:Ee; cbn [negb] in H.
      * match type of H with
        | context [process_rows U soup df_at_set loads_len overwrite rest ?s] =>
            destruct (process_rows U soup df_at_set loads_len overwrite rest s)
              as [[out' st']|e] eqn:E
        end; cbn [bind fst snd] in H; [|discriminate].
        inversion H; subst. apply IH in E.
        destruct E as (F & T & A & N & K & S & W).
        cbn [total already_populated newly_populated skipped] in *.
        split.
        { constructor; [|exact F]. exists b. split; [exact Eb|].
          rewrite Eo. exists js. split; [exact Ej|]. rewrite Ee. reflexivity. }
        cbn [List.length]. repeat split; try lia. auto.
      * destruct (df_at_set js) as [[]|e] eqn:Est; cbn [bind] in H; [|discriminate].
        match type of H with
        | context [process_rows U soup df_at_set loads_len overwrite rest ?s] =>
            destruct (process_rows U soup df_at_set loads_len overwrite rest s)
              as [[out' st']|e] eqn:E
        end; cbn [bind fst snd] in H; [|discriminate].
        inversion H; subst. apply IH in E.
        destruct E as (F & T & A & N & K & S & W).
        cbn [total already_populated newly_populated skipped] in *.
        split.
        { constructor; [|exact F]. exists b. split; [exact Eb|].
          rewrite Eo. exists js. split; [exact Ej|]. rewrite Ee. auto. }
        cbn [List.length]. repeat split; try lia. auto.
Qed.

(** The loop returns when it gets past every row. *)
Lemma process_rows_returns (rows : list SheetRow) :
  Forall (row_passes U soup df_at_set overwrite) rows ->
  forall stats,
  exists out st,
    process_rows U soup df_at_set loads_len overwrite rows stats = Ok (out, st).
Proof.
  induction 1 as [|r rest (o & b & Eb & Hr) _ IH]; intros stats.
  - cbn [process_rows]. eauto.
  - cbn [process_rows]. rewrite Eb. cbn [bind].
    destruct (b && negb overwrite).
    + match goal with
      | |- context [process_rows U soup df_at_set loads_len overwrite rest ?s] =>
          destruct (IH s) as (out & st & E)
      end.
      rewrite E. cbn [bind]. eauto.
    + destruct Hr as (js & Ej & Hr). rewrite Ej. cbn [bind].
      destruct (is_empty js); cbn [negb].
      * match goal with
        | |- context [process_rows U soup df_at_set loads_len overwrite rest ?s] =>
            destruct (IH s) as (out & st & E)
        end.
        rewrite E. cbn [bind]. eauto.
      * destruct Hr as [Est _]. rewrite Est. cbn [bind].
        match goal with
        | |- context [process_rows U soup df_at_set loads_len overwrite rest ?s] =>
            destruct (IH s) as (out & st & E)
        end.
        rewrite E. cbn [bind]. eauto.
Qed.

End SheetLoop.

(** * Properties of the whole extractor *)

(** No two entries of the dictionary built by [process_row] share a
    label. *)
Theorem merged_labels_unique (U : Runtime) (row : Row) :
  exists specs, all_specs U row = Ok specs /\ NoDup (map fst specs).
Proof.
  destruct (all_specs_lookup U row "Brand") as (specs & b & E & N & _).
  exists specs. auto.
Qed.

(** For a label of the pattern catalog, the merged value is the one found
    in the description, else the one found in the title, else, for
    Material only, the trimmed material metafield when its length is
    strictly between 3 and 30; no later step changes it. *)
Theorem catalog_label_source (U : Runtime) (row : Row) (k : string) :
  In k (map fst (patterns U)) ->
  exists specs,
    all_specs U row = Ok specs
    /\ dict_get k specs
       = or_else (dict_get k (description_specs U row))
           (or_else (dict_get k (title_specs U row))
              (if String.eqb k "Material"
               then trimmed_between U (row_get (col_material row)) 3 30
               else None)).
Proof.
  intros Hk. destruct (pattern_label_kept U k Hk) as [Ho Hb].
  destruct (all_specs_lookup U row k) as (specs & b & E & _ & _ & G).
  exists specs. split; [exact E|].
  unfold overwritten in Ho.
  rewrite G by tauto. cbn zeta.
  destruct (String.eqb_spec k "Brand"); [congruence|].
  destruct (String.eqb_spec k "Category"); [tauto|].
  destruct (dict_get k (description_specs U row));
    destruct (dict_get k (title_specs U row));
    destruct (String.eqb k "Material"); reflexivity.
Qed.

Lemma catalog_label_source_witness :
  exists specs,
    all_specs plain two_weights_row = Ok specs
    /\ dict_get "Weight" specs
       = or_else (dict_get "Weight" (description_specs plain two_weights_row))
           (or_else (dict_get "Weight" (title_specs plain two_weights_row))
              (if String.eqb "Weight" "Material"
               then trimmed_between plain
                      (row_get (col_material two_weights_row)) 3 30
               else None)).
Proof.
  apply (catalog_label_source plain two_weights_row "Weight").
  simpl. tauto.
Defined.

(** The Brand entry of the merged dictionary is exactly what the brand
    resolver returns (absent when it returns nothing), and the Category
    entry is exactly the trimmed product type when its length is strictly
    between 3 and 50 (absent otherwise): the pattern passes and the feature
    step never set or change them. *)
Theorem brand_and_category_source (U : Runtime) (row : Row) :
  exists specs b,
    all_specs U row = Ok specs
    /\ extract_brand U (row_get (col_title row)) (row_get (col_vendor row)) = Ok b
    /\ dict_get "Brand" specs = b
    /\ dict_get "Category" specs
       = trimmed_between U (row_get (col_type row)) 3 50.
Proof.
  destruct (all_specs_lookup U row "Brand") as (specs & b & E & _ & Eb & G).
  destruct (all_specs_lookup U row "Category") as (specs' & b' & E' & _ & _ & G').
  assert (specs' = specs) by congruence. subst specs'.
  exists specs, b. split; [exact E|]. split; [exact Eb|]. split.
  - rewrite G by discriminate. cbn zeta.
    rewrite description_specs_no_label, title_specs_no_label;
      [reflexivity| |]; rewrite patterns_labels; simpl; intuition discriminate.
  - rewrite G' by discriminate. cbn zeta.
    rewrite description_specs_no_label, title_specs_no_label;
      [|rewrite patterns_labels; simpl; intuition discriminate
       |rewrite patterns_labels; simpl; intuition discriminate].
    cbn [String.eqb Ascii.eqb Bool.eqb andb or_else].
    now destruct (trimmed_between U (row_get (col_type row)) 3 50).
Qed.

(** The pattern pass returns, in the order of the catalog, the accepted
    values of the first [max_specs] labels that have one; a cap of zero or
    less gives the empty dictionary. *)
Theorem pattern_pass_is_prefix_of_matches (U : Runtime) (txt : text) (n : Z) :
  extract_specs_from_text U txt n
  = firstn (Z.to_nat n) (matched_specs U (patterns U) (lower U txt)).
Proof. apply extract_specs_closed. Qed.

(** Lowering the cap only cuts the result short: the pass capped at [n] is
    the first [n] entries of the pass capped at any larger [m]. *)
Theorem smaller_cap_is_prefix (U : Runtime) (txt : text) (n m : Z) :
  (n <= m)%Z ->
  extract_specs_from_text U txt n
  = firstn (Z.to_nat n) (extract_specs_from_text U txt m).
Proof.
  intros H. rewrite !extract_specs_closed, firstn_firstn.
  f_equal. lia.
Qed.

Lemma smaller_cap_is_prefix_witness :
  extract_specs_from_text plain (str "Weighs 4.5 lbs, 900 watts, 120 volts") 2
  = firstn (Z.to_nat 2)
      (extract_specs_from_text plain (str "Weighs 4.5 lbs, 900 watts, 120 volts") 5).
Proof.
  apply (smaller_cap_is_prefix plain). lia.
Defined.

(** On a text of ASCII characters the pattern pass does not depend on the
    case of the letters: upper-casing the text leaves the result, values
    included, unchanged. *)
Theorem ascii_case_ignored (U : Runtime) (txt : text) (n : Z) :
  forallb is_ascii txt = true ->
  extract_specs_from_text U (upper U txt) n = extract_specs_from_text U txt n.
Proof.
  intros H. unfold extract_specs_from_text, extract_with.
  now rewrite lower_upper_ascii.
Qed.

Lemma ascii_case_ignored_witness :
  extract_specs_from_text plain (upper plain (str "Weighs 4.5 lbs")) 6
  = extract_specs_from_text plain (str "Weighs 4.5 lbs") 6.
Proof.
  apply (ascii_case_ignored plain). vm_compute. reflexivity.
Defined.

(** No formatter of the catalog raises on a match of its own pattern, on
    any text: the [except] branch of the engine is never taken with
    [self.patterns]. *)
Theorem catalog_formatters_return (U : Runtime) (t : text) :
  Forall (fun entry : string * list rule =>
            Forall (fun r : rule =>
                      match search U true (fst r) t with
                      | Some m => exists v, snd r m = Ok v
                      | None => True
                      end) (snd entry))
         (patterns U).
Proof.
  unfold patterns.
  repeat (apply Forall_cons;
          [cbn [snd];
           repeat (apply Forall_cons;
                   [cbn [fst snd];
                    match goal with
                    | |- match ?s with _ => _ end =>
                        destruct s as [m|] eqn:E; [|exact I]
                    end|]); try apply Forall_nil|]);
    try apply Forall_nil.
  all: try (destruct (format_dimensions_returns U m) as (v & Hv & _);
            exists v; exact Hv).
  all: try (unfold fmt_number_unit; eexists; reflexivity).
  all: try (apply fmt_temperature_returns).
  all: try (eexists; reflexivity).
  - destruct (search_group_1 U pat_material_1 t m (material_1_group U t) E)
      as (g & ->). cbn [on_str]. eauto.
  - destruct (search_group_1 U pat_material_2 t m (material_2_group U t) E)
      as (g & ->). cbn [on_str]. eauto.
  - destruct (search_group_1 U pat_color t m (color_group U t) E)
      as (g & ->). cbn [on_str]. eauto.
Qed.

(** [_format_dimensions] never raises, whatever match it is given: its
    indexing is guarded by the length tests.  Its result is empty or
    begins with two captured groups, made of digits and periods, joined by
    [ x ]. *)
Theorem format_dimensions_never_raises (U : Runtime) (m : pymatch) :
  exists v,
    _format_dimensions U m = Ok v
    /\ (v = []
        \/ exists a b rest,
             v = a ++ str " x " ++ b ++ rest
             /\ In (Some a) (groups m) /\ In (Some b) (groups m)
             /\ str_isdigit U (remove_char c_period a) = true
             /\ str_isdigit U (remove_char c_period b) = true).
Proof. apply format_dimensions_returns. Qed.

(** The validator never raises (the division by the length is guarded by
    the emptiness test) and accepts exactly the values whose trimmed form
    is not empty, at most [max_length] long, has at most 3 special
    characters in 10, at most 5 commas and at most 5 periods. *)
Theorem validator_verdict (U : Runtime) (v : text) (n : Z) :
  (exists b, _is_valid_value U v n = Ok b)
  /\ (_is_valid_value U v n = Ok true <-> acceptable U v n).
Proof. split; [apply valid_returns|apply valid_iff_acceptable]. Qed.

(** White space around a value never changes the verdict of the
    validator. *)
Theorem validator_ignores_outer_whitespace (U : Runtime) (v : text) (n : Z) :
  _is_valid_value U (strip U v) n = _is_valid_value U v n.
Proof. apply valid_of_stripped. Qed.

(** [extract_key_features] never raises; every entry it returns is a
    Feature of length strictly between 10 and 80 or an Included of length
    strictly between 15 and 80 (keyword Feature entries are longer than 15
    too), accepted by the validator; and for a non-negative maximum it
    returns at most that many entries. *)
Theorem key_features_entries (U : Runtime) (txt : text) (n : Z) :
  exists fs,
    extract_key_features U txt n = Ok fs
    /\ Forall (feature_entry U) fs
    /\ ((n < 0)%Z \/ (Z.of_nat (List.length fs) <= n)%Z).
Proof.
  destruct (extract_key_features_spec U txt n) as (fs & E & _ & L).
  exists fs. split; [exact E|]. split.
  - eapply extract_key_features_entries. exact E.
  - destruct (Z.lt_ge_cases n 0); [now left|right; auto].
Qed.

(** The brand resolver never raises.  A vendor that is not null and whose
    trimmed form has a length strictly between 2 and 30 is returned,
    trimmed, whatever the title is.  Otherwise a returned brand is the
    first word of a title that is not null, begins with an upper-case
    letter, holds no white space and has a length strictly between 2 and
    30. *)
Theorem brand_resolution (U : Runtime) (ttl vendor : value) :
  exists b,
    extract_brand U ttl vendor = Ok b
    /\ match trimmed_between U vendor 2 30 with
       | Some x => b = Some x
       | None =>
           match b with
           | Some w =>
               notna ttl = true
               /\ (exists rest, split U (py_str ttl) = w :: rest)
               /\ (exists c w', w = c :: w' /\ isupper U c = true)
               /\ word_ok U w
               /\ (2 < len w < 30)%Z
           | None => True
           end
       end.
Proof.
  unfold extract_brand. fold (trimmed_between U vendor 2 30).
  destruct (trimmed_between U vendor 2 30) as [x|]; [eauto|].
  destruct (notna ttl) eqn:Et; [|exists None; auto].
  pose proof (split_words U (py_str ttl)) as W.
  destruct (split U (py_str ttl)) as [|w ws] eqn:Es; [exists None; auto|].
  inversion W as [|? ? Hw _]; subst.
  destruct w as [|c w]; [destruct Hw as [Hw _]; congruence|].
  cbn [index nth_error bind].
  destruct (isupper U c) eqn:Eu; cbn [andb]; [|exists None; auto].
  destruct (Z.ltb_spec 2 (len (c :: w))); cbn [andb]; [|exists None; auto].
  destruct (Z.ltb_spec (len (c :: w)) 30); [|exists None; auto].
  exists (Some (c :: w)). split; [reflexivity|].
  repeat split; eauto. - apply Hw. - apply Hw.
Qed.

(** [clean_html] returns the empty text for a null cell.  For any other
    cell it raises when the parser rejects the text of the cell, with the
    parser's error, and otherwise returns a text in normal form: it has no
    white space at either end, and splitting it at white space and joining
    the words with single spaces gives it back, so every run of white space
    in it is one space. *)
Theorem clean_html_normalised (U : Runtime) (soup : text -> res text) (v : value) :
  match Markup.clean_html U soup v with
  | Ok r =>
      (if notna v then exists txt, soup (py_str v) = Ok txt else r = [])
      /\ strip U r = r
      /\ join [c_space] (split U r) = r
  | Raise e => notna v = true /\ soup (py_str v) = Raise e
  end.
Proof.
  unfold Markup.clean_html. destruct (notna v).
  - destruct (soup (py_str v)) as [txt|e]; cbn [bind]; [|auto].
    pose proof (split_words U txt) as W.
    split; [eauto|]. split.
    + now apply strip_join.
    + now rewrite split_join.
  - repeat split.
Qed.

(** A Power entry comes from an integer, optional white space and one of
    watt, watts, w ending at a word boundary in the lower-cased text, which
    is not followed by optional white space and [max]; its value is the
    integer, a space, and the unit as it stands there. *)
Theorem power_entry_not_before_max (U : Runtime) (txt : text) (n : Z) (v : text) :
  dict_get "Power" (extract_specs_from_text U txt n) = Some v ->
  exists i j k u,
    In u power_units
    /\ power_occurrence U (lower U txt) i j k u = true
    /\ followed_by_max U (skipn (k + List.length (str u)) (lower U txt)) = false
    /\ v = substr (lower U txt) i j ++ str " "
           ++ substr (lower U txt) k (k + List.length (str u)).
Proof.
  intros H.
  apply (extract_specs_single_rule U txt n "Power" pat_power fmt_number_unit)
    in H; [|apply rules_of_power].
  destruct H as (i & j & c & Hi & D & Hf).
  apply power_match_full in D; [|exact Hi].
  destruct D as (a & k & u & Hu & Ho & -> & Hl & -> & Hm).
  exists i, a, k, u. repeat split; auto.
  unfold fmt_number_unit in Hf. inversion Hf. reflexivity.
Qed.

Lemma power_entry_not_before_max_witness :
  exists i j k u,
    In u power_units
    /\ power_occurrence plain (lower plain (str "Motor: 900 W")) i j k u = true
    /\ followed_by_max plain
         (skipn (k + List.length (str u)) (lower plain (str "Motor: 900 W"))) = false
    /\ str "900 w"
       = substr (lower plain (str "Motor: 900 W")) i j ++ str " "
         ++ substr (lower plain (str "Motor: 900 W")) k (k + List.length (str u)).
Proof.
  apply (power_entry_not_before_max plain (str "Motor: 900 W") 6 (str "900 w")).
  vm_compute. reflexivity.
Defined.

(** When the loop of [process_excel_file] returns, it returns as many rows
    as the sheet has, and its counters add up: every row is counted once,
    as already populated, newly populated or skipped, and none as already
    populated when existing specifications are overwritten. *)
Theorem sheet_statistics_add_up (U : Runtime) (soup : text -> res text)
    (df_at_set : text -> res unit) (loads_len : text -> option Z)
    (overwrite : bool) (df : Sheet) (out : list SheetRow) (st : Stats) :
  process_excel_file U soup df_at_set loads_len overwrite df = Ok (out, st) ->
  List.length out = List.length (iterrows df)
  /\ total st = Z.of_nat (List.length (iterrows df))
  /\ (0 <= already_populated st)%Z
  /\ (0 <= newly_populated st)%Z
  /\ (0 <= skipped st)%Z
  /\ (already_populated st + newly_populated st + skipped st = total st)%Z
  /\ (if overwrite then already_populated st = 0%Z else True).
Proof.
  unfold process_excel_file. intros H.
  apply process_rows_spec in H. destruct H as (F & T & A & N & K & S & W).
  cbn [total already_populated newly_populated skipped] in *.
  split; [symmetry; eapply Forall2_length; exact F|].
  repeat (split; [lia|]).
  destruct overwrite; [auto|exact I].
Qed.

Lemma sheet_statistics_add_up_witness :
  List.length example_sheet_after = List.length (iterrows example_sheet)
  /\ total example_stats = Z.of_nat (List.length (iterrows example_sheet))
  /\ (0 <= already_populated example_stats)%Z
  /\ (0 <= newly_populated example_stats)%Z
  /\ (0 <= skipped example_stats)%Z
  /\ (already_populated example_stats + newly_populated example_stats
      + skipped example_stats = total example_stats)%Z
  /\ True.
Proof.
  apply (sheet_statistics_add_up plain example_soup always_stored
           (fun _ => Some 2%Z) false example_sheet example_sheet_after
           example_stats).
  vm_compute. reflexivity.
Defined.

(** The loop of [process_excel_file] returns exactly when it gets past
    every row: the row has the specification cell and, unless it has
    specifications that are not to be overwritten, [process_row] returns
    on it and the text it returns is empty or is stored without an error.
    When the loop returns, each row comes out with its product data
    untouched and, independently of the other rows: unchanged if it has
    specifications and they are not to be overwritten, or if [process_row]
    returns the empty text; otherwise with the text returned by
    [process_row] in the specification column. *)
Theorem sheet_rows_outcome (U : Runtime) (soup : text -> res text)
    (df_at_set : text -> res unit) (loads_len : text -> option Z)
    (overwrite : bool) (df : Sheet) :
  ((exists out st,
       process_excel_file U soup df_at_set loads_len overwrite df = Ok (out, st))
   <-> Forall (row_passes U soup df_at_set overwrite) (iterrows df))
  /\ (forall out st,
        process_excel_file U soup df_at_set loads_len overwrite df = Ok (out, st) ->
        Forall2 (row_outcome U soup df_at_set overwrite) (iterrows df) out
        /\ map sr_row out = map sr_row (iterrows df)).
Proof.
  unfold process_excel_file.
  assert (R : forall out st,
             process_rows U soup df_at_set loads_len overwrite (iterrows df)
               {| total := Z.of_nat (List.length (iterrows df));
                  already_populated := 0; newly_populated := 0; skipped := 0;
                  specs_extracted := 0 |} = Ok (out, st) ->
             Forall2 (row_outcome U soup df_at_set overwrite) (iterrows df) out).
  { intros out st H. now apply process_rows_spec in H. }
  split; [split|].
  - intros (out & st & H). specialize (R out st H).
    clear H. induction R as [|r o rs os Ho F IH]; constructor; [|exact IH].
    exists o. exact Ho.
  - intros H. now apply process_rows_returns.
  - intros out st H. specialize (R out st H). split; [exact R|].
    clear H. induction R as [|r o rs os Ho F IH]; [reflexivity|].
    cbn [map]. f_equal; [|exact IH].
    now apply row_outcome_keeps_product in Ho.
Qed.

Lemma sheet_rows_outcome_witness :
  Forall2 (row_outcome plain example_soup always_stored false)
    (iterrows example_sheet) example_sheet_after
  /\ map sr_row example_sheet_after = map sr_row (iterrows example_sheet).
Proof.
  apply (proj2 (sheet_rows_outcome plain example_soup always_stored
                  (fun _ => Some 2%Z) false example_sheet)
           example_sheet_after example_stats).
  vm_compute. reflexivity.
Defined.

(** On a sheet that lacks the specification column the loop of
    [process_excel_file] raises KeyError at its first row; when such a
    sheet has no rows, the loop returns with no rows and every counter at
    zero. *)
Theorem sheet_without_spec_column_raises (U : Runtime) (soup : text -> res text)
    (df_at_set : text -> res unit) (loads_len : text -> option Z)
    (overwrite : bool) (rows : list Row) :
  process_excel_file U soup df_at_set loads_len overwrite (WithoutSpecColumn rows)
  = match rows with
    | [] => Ok ([], {| total := 0; already_populated := 0; newly_populated := 0;
                       skipped := 0; specs_extracted := 0 |})
    | _ :: _ => Raise KeyError
    end.
Proof. destruct rows; reflexivity. Qed.

(** On a row whose description and title, where they are not null, the
    parser accepts, giving the texts that the runtime has for them,
    [process_row] with the parser's failure is [process_row] without it:
    what is proved of the one holds of the other on accepted markup. *)
Theorem accepted_markup_runs_as_parsed (U : Runtime) (soup : text -> res text)
    (row : Row) :
  parses U soup (row_get (col_body_html row)) ->
  parses U soup (row_get (col_title row)) ->
  Markup.all_specs U soup row = all_specs U row
  /\ Markup.process_row U soup row = process_row U row.
Proof.
  intros Hb Ht. pose proof (markup_all_specs_agrees U soup row Hb Ht) as E.
  split; [exact E|]. unfold Markup.process_row, process_row. now rewrite E.
Qed.

Lemma accepted_markup_runs_as_parsed_witness :
  Markup.all_specs plain example_soup two_weights_row
  = all_specs plain two_weights_row
  /\ Markup.process_row plain example_soup two_weights_row
     = process_row plain two_weights_row.
Proof.
  apply (accepted_markup_runs_as_parsed plain example_soup two_weights_row);
    intros _; vm_compute; reflexivity.
Defined.

Lemma dict_get_of_in (k : string) (v : text) (d : dict) :
  NoDup (map fst d) -> In (k, v) d -> dict_get k d = Some v.
Proof.
  induction d as [|[k0 v0] d IH]; simpl; intros N H; [destruct H|].
  inversion N; subst. destruct H as [E|H].
  - inversion E; subst. now rewrite String.eqb_refl.
  - destruct (String.eqb_spec k0 k); [|auto].
    subst. exfalso. apply H2. change k with (fst (k, v)). now apply in_map.
Qed.

(** Every label of the dictionary built by [process_row] is a label of the
    pattern catalog, Brand, Category, Feature or Included. *)
Theorem merged_labels_known (U : Runtime) (row : Row) :
  exists specs,
    all_specs U row = Ok specs
    /\ Forall (fun kv => In (fst kv) (known_labels U)) specs.
Proof.
  destruct (all_specs_lookup U row "Brand") as (specs & b0 & E & N & _).
  exists specs. split; [exact E|]. apply Forall_forall. intros [k v] Hin.
  cbn [fst].
  destruct (in_dec string_dec k (known_labels U)) as [|Hn]; [assumption|].
  exfalso.
  destruct (all_specs_lookup U row k) as (specs' & b & E' & _ & _ & G).
  assert (specs' = specs) by congruence. subst specs'.
  pose proof (dict_get_of_in k v specs N Hin) as Hg.
  unfold known_labels in Hn. rewrite in_app_iff in Hn.
  assert (A0 : ~ In k (map fst (patterns U))) by tauto.
  assert (A1 : k <> "Brand"%string)
    by (intros ->; apply Hn; right; simpl; auto).
  assert (A2 : k <> "Category"%string)
    by (intros ->; apply Hn; right; simpl; auto).
  assert (A3 : k <> "Feature"%string)
    by (intros ->; apply Hn; right; simpl; auto).
  assert (A4 : k <> "Included"%string)
    by (intros ->; apply Hn; right; simpl; auto).
  rewrite G in Hg by assumption. cbn zeta in Hg.
  rewrite description_specs_no_label, title_specs_no_label in Hg by assumption.
  destruct (String.eqb_spec k "Brand"); [tauto|].
  destruct (String.eqb_spec k "Category"); [tauto|].
  destruct (String.eqb_spec k "Material").
  - subst. apply A0. rewrite patterns_labels. simpl. auto 10.
  - discriminate.
Qed.
